(** * Concerto cloud provider: load-balancer reconciliation

    A shallow embedding of the Go package [concerto_cloud]
    (pkg/cloudprovider/providers/concerto): the REST resource client
    [concertoAPIServiceREST], the provider facade [ConcertoCloud] with its
    three load-balancer operations, and the properties of the reconciliation
    engine built from them.

    Go values are modelled as follows.
    - [string] is [string]; [int] is [Z] (no arithmetic is performed on the
      integers of this package, they are only compared and passed on);
      [float64] is the primitive binary64 [float].
    - a slice is a [list] (the code never distinguishes nil from empty);
      a pointer that may be nil is an [option]; dereferencing nil is the
      run-time panic [Panic].
    - a function returning [(T, error)] is a computation in the monad [M]:
      it threads the state of the outside world and yields [Ok v], [Err e]
      or [Panic].
    - a [[]byte] payload is a value of an opaque type [bytes]: the package
      never inspects a payload, it only hands it to encoding/json. *)

From Stdlib Require Import String Ascii List ZArith Bool Arith Lia Floats.
Import ListNotations.

Local Open Scope string_scope.
Local Open Scope list_scope.

Set Implicit Arguments.

(** ** Errors *)

(** The [error] values this package produces or passes on.  The package-level
    variables of the errors file are the constant constructors; every
    [fmt.Errorf] / [errors.New] call site has a constructor holding its
    arguments; errors coming from net/http and encoding/json are opaque. *)
Inductive error : Type :=
| InstanceNotFound                          (* cloudprovider.InstanceNotFound *)
| NotYetImplemented
| NoConfigFile
| UnsupportedOperation
| LoadBalancerCreateError
| LoadBalancerDeleteError
| LoadBalancerRegisterInstanceError
| LoadBalancerDeregisterInstanceError
| LoadBalancerUnsupportedAffinityError
| LoadBalancerUnsupportedExternalIPError
| LoadBalancerUnsupportedNumberOfPortsError
| HTTPStatusGettingLoadBalancers (status : Z)
    (* "HTTP %v when getting '/kaas/load_balancers'" *)
| HTTPStatusCreatingLoadBalancer (status : Z) (name : string)
    (* "HTTP %v when creating load balancer %s" *)
| LoadBalancerNotFound (loadBalancerId : string)
    (* "Load balancer not found " + loadBalancerId *)
| NodeNotFoundInLoadBalancer (ip loadBalancerId : string)
    (* "Node %s not found in load balancer %s" *)
| ConvertingNamesToIPsError (cause : error)
    (* "Error while converting names to IP addresses: %v" *)
| CouldNotFindInstance (name : string)
    (* "Could not find instance: %s" *)
| ExternalError (msg : string).
    (* an error of the HTTP client or of the JSON decoder *)

(** ** The computation monad *)

Inductive result (A : Type) : Type :=
| Ok (a : A)
| Err (e : error)
| Panic.

Arguments Ok {A} a.
Arguments Err {A} e.
Arguments Panic {A}.

Definition M (S A : Type) : Type := S -> result A * S.

Definition ret {S A : Type} (a : A) : M S A := fun s => (Ok a, s).

Definition fail {S A : Type} (e : error) : M S A := fun s => (Err e, s).

Definition panic {S A : Type} : M S A := fun s => (Panic, s).

Definition bind {S A B : Type} (m : M S A) (k : A -> M S B) : M S B :=
  fun s =>
    match m s with
    | (Ok a, s') => k a s'
    | (Err e, s') => (Err e, s')
    | (Panic, s') => (Panic, s')
    end.

Notation "x <- m ;; k" := (bind m (fun x => k))
  (at level 61, m at next level, right associativity).
Notation "' pat <- m ;; k" := (bind m (fun x => match x with pat => k end))
  (at level 61, pat pattern, m at next level, right associativity).
Notation "m ;;; k" := (bind m (fun _ => k))
  (at level 61, right associativity).

(** ** Data model *)

(** ConcertoInstance is an abstraction for a Concerto cloud instance. *)
Record ConcertoInstance : Type := {
  ci_Id : string;
  ci_Name : string;
  ci_PublicIP : string;
  ci_CPUs : float;
  ci_Memory : Z;
  ci_Storage : Z
}.

(** Ship is used for deserializing. *)
Record Ship : Type := {
  ship_Id : string;
  ship_Fqdn : string;
  ship_Name : string;
  ship_Public_ip : string;
  ship_Server_plan_id : string;
  ship_Cpus : float;
  ship_Memory : Z;
  ship_Storage : Z
}.

(** ConcertoLoadBalancer abstracts a Concerto Load Balancer. *)
Record ConcertoLoadBalancer : Type := {
  lb_Id : string;
  lb_Name : string;
  lb_FQDN : string;
  lb_Port : Z;
  lb_NodePort : Z;
  lb_Protocol : string
}.

(** ConcertoLoadBalancerNode: one member of a load balancer. *)
Record ConcertoLoadBalancerNode : Type := {
  node_ID : string;
  node_IP : string
}.

(** The fields of api.ServicePort that this package reads. *)
Record ServicePort : Type := {
  sp_Port : Z;
  sp_NodePort : Z
}.

(** api.LoadBalancerIngress and api.LoadBalancerStatus. *)
Record LoadBalancerIngress : Type := {
  ingress_IP : string;
  ingress_Hostname : string
}.

Record LoadBalancerStatus : Type := {
  status_Ingress : list LoadBalancerIngress
}.

(** api.ServiceAffinity is a string type; net.IP is a byte slice. *)
Definition ServiceAffinity : Type := string.
Definition ServiceAffinityNone : ServiceAffinity := "None".
Definition ServiceAffinityClientIP : ServiceAffinity := "ClientIP".
Definition IP : Type := list Byte.byte.

(** ** Collaborators: the JSON codec and the REST client *)

(** encoding/json at the types this package uses it at.  [Unmarshal_lb]
    decodes into an existing load balancer, whose fields the payload
    overwrites. *)
Record JSON (bytes : Type) : Type := {
  nil_bytes : bytes;
  Unmarshal_ships : bytes -> list Ship + error;
  Unmarshal_lbs : bytes -> list ConcertoLoadBalancer + error;
  Unmarshal_nodes : bytes -> list ConcertoLoadBalancerNode + error;
  Unmarshal_lb : bytes -> ConcertoLoadBalancer -> ConcertoLoadBalancer + error;
  Marshal_node : ConcertoLoadBalancerNode -> bytes + error;
  Marshal_lb : ConcertoLoadBalancer -> bytes + error
}.

(** What a verb of the REST client returns: body, status, error. *)
Definition Response (bytes : Type) : Type := (bytes * Z * option error)%type.

(** restService: GET, POST and DELETE of a path against the configured
    endpoint.  [W] is the state of the world the verbs act on. *)
Record restService (bytes W : Type) : Type := {
  Get : string -> W -> Response bytes * W;
  Post : string -> bytes -> W -> Response bytes * W;
  Delete : string -> W -> Response bytes * W
}.

(** ConcertoAPIService is an abstraction for Flexiant Concerto API. *)
Record ConcertoAPIService (S : Type) : Type := {
  GetInstanceByName : string -> M S ConcertoInstance;
  GetInstanceList : M S (list ConcertoInstance);
  CreateLoadBalancer : string -> Z -> Z -> M S (option ConcertoLoadBalancer);
  GetLoadBalancerByName : string -> M S (option ConcertoLoadBalancer);
  DeleteLoadBalancerById : string -> M S unit;
  GetLoadBalancerNodes : string -> M S (list ConcertoLoadBalancerNode);
  GetLoadBalancerNodesAsIPs : string -> M S (list string);
  RegisterInstancesWithLoadBalancer : string -> list string -> M S unit;
  DeregisterInstancesFromLoadBalancer : string -> list string -> M S unit
}.

(** ** The REST implementation of the API service *)

Module concertoAPIServiceREST.
Section Client.

Context {bytes W : Type}.
Variable json : JSON bytes.
Variable client : restService bytes W.

(** A verb of the client as a computation: it always yields its triple. *)
Definition call {A : Type} (f : W -> A * W) : M W A :=
  fun w => let (a, w') := f w in (Ok a, w').

Definition toInstance (s : Ship) : ConcertoInstance :=
  {| ci_Id := ship_Id s;
     ci_Name := ship_Fqdn s;
     ci_PublicIP := ship_Public_ip s;
     ci_CPUs := ship_Cpus s;
     ci_Memory := ship_Memory s;
     ci_Storage := ship_Storage s |}.

Definition toNode (ci : ConcertoInstance) : ConcertoLoadBalancerNode :=
  {| node_ID := EmptyString; node_IP := ci_PublicIP ci |}.

Definition node_toJson (cn : ConcertoLoadBalancerNode) : bytes :=
  match Marshal_node json cn with
  | inl b => b
  | inr _ => nil_bytes json
  end.

Definition lb_toJson (lb : ConcertoLoadBalancer) : bytes :=
  match Marshal_lb json lb with
  | inl b => b
  | inr _ => nil_bytes json
  end.

(** The three path shapes built with string concatenation or Sprintf. *)
Definition loadBalancerPath (id : string) : string :=
  "/kaas/load_balancers/" ++ id.

Definition nodesPath (loadBalancerId : string) : string :=
  "/kaas/load_balancers/" ++ loadBalancerId ++ "/nodes".

Definition nodePath (loadBalancerId nodeId : string) : string :=
  "/kaas/load_balancers/" ++ loadBalancerId ++ "/nodes/" ++ nodeId.

Definition GetInstanceList : M W (list ConcertoInstance) :=
  '(data, status, err) <- call (Get client "/kaas/ships") ;;
  match err with
  | Some e => fail e
  | None =>
      if (status =? 404)%Z then ret []
      else match Unmarshal_ships json data with
           | inr e => fail e
           | inl ships => ret (map toInstance ships)
           end
  end.

Definition GetInstanceByName (name : string) : M W ConcertoInstance :=
  concertoInstances <- GetInstanceList ;;
  match find (fun instance => ci_Name instance =? name) concertoInstances with
  | Some instance => ret instance
  | None => fail InstanceNotFound
  end.

Definition GetLoadBalancerList : M W (list ConcertoLoadBalancer) :=
  '(data, status, err) <- call (Get client "/kaas/load_balancers") ;;
  match err with
  | Some e => fail e
  | None =>
      if (status >=? 400)%Z then fail (HTTPStatusGettingLoadBalancers status)
      else match Unmarshal_lbs json data with
           | inr e => fail e
           | inl lbs => ret lbs
           end
  end.

Definition GetLoadBalancerByName (name : string)
  : M W (option ConcertoLoadBalancer) :=
  concertoLBs <- GetLoadBalancerList ;;
  ret (find (fun lb => lb_Name lb =? name) concertoLBs).

Definition DeleteLoadBalancerById (id : string) : M W unit :=
  '(_, status, err) <- call (Delete client (loadBalancerPath id)) ;;
  match err with
  | Some e => fail e
  | None =>
      if ((status =? 200) || (status =? 204))%Z then ret tt
      else fail LoadBalancerDeleteError
  end.

Definition GetInstanceByIP (ip : string) : M W ConcertoInstance :=
  concertoInstances <- GetInstanceList ;;
  match find (fun instance => ci_PublicIP instance =? ip) concertoInstances with
  | Some instance => ret instance
  | None => fail InstanceNotFound
  end.

Definition GetLoadBalancerNodes (loadBalancerId : string)
  : M W (list ConcertoLoadBalancerNode) :=
  '(data, status, err) <- call (Get client (nodesPath loadBalancerId)) ;;
  match err with
  | Some e => fail e
  | None =>
      if (status =? 404)%Z then fail (LoadBalancerNotFound loadBalancerId)
      else match Unmarshal_nodes json data with
           | inr e => fail e
           | inl nodes => ret nodes
           end
  end.

Definition GetLoadBalancerNodesAsIPs (loadBalancerId : string)
  : M W (list string) :=
  nodes <- GetLoadBalancerNodes loadBalancerId ;;
  ret (map node_IP nodes).

Definition GetNodeByIP (loadBalancerId ip : string)
  : M W ConcertoLoadBalancerNode :=
  lbNodes <- GetLoadBalancerNodes loadBalancerId ;;
  match find (fun node => node_IP node =? ip) lbNodes with
  | Some node => ret node
  | None => fail (NodeNotFoundInLoadBalancer ip loadBalancerId)
  end.

Definition registerInstanceWithLoadBalancer (loadBalancerId ip : string)
  : M W unit :=
  instance <- GetInstanceByIP ip ;;
  let jsonNode := node_toJson (toNode instance) in
  '(_, status, err) <- call (Post client (nodesPath loadBalancerId) jsonNode) ;;
  match err with
  | Some e => fail e
  | None =>
      if negb (status =? 201)%Z then fail LoadBalancerRegisterInstanceError
      else ret tt
  end.

Fixpoint RegisterInstancesWithLoadBalancer (loadBalancerId : string)
  (ips : list string) : M W unit :=
  match ips with
  | [] => ret tt
  | ip :: ips' =>
      registerInstanceWithLoadBalancer loadBalancerId ip ;;;
      RegisterInstancesWithLoadBalancer loadBalancerId ips'
  end.

Definition deregisterInstanceFromLoadBalancer (loadBalancerId ip : string)
  : M W unit :=
  node <- GetNodeByIP loadBalancerId ip ;;
  '(_, status, err) <-
     call (Delete client (nodePath loadBalancerId (node_ID node))) ;;
  match err with
  | Some e => fail e
  | None =>
      if ((status =? 200) || (status =? 204))%Z then ret tt
      else fail LoadBalancerDeregisterInstanceError
  end.

Fixpoint DeregisterInstancesFromLoadBalancer (loadBalancerId : string)
  (ips : list string) : M W unit :=
  match ips with
  | [] => ret tt
  | ip :: ips' =>
      deregisterInstanceFromLoadBalancer loadBalancerId ip ;;;
      DeregisterInstancesFromLoadBalancer loadBalancerId ips'
  end.

Definition CreateLoadBalancer (name : string) (port nodePort : Z)
  : M W (option ConcertoLoadBalancer) :=
  let lb := {| lb_Id := EmptyString;
               lb_Name := name;
               lb_FQDN := name;
               lb_Port := port;
               lb_NodePort := nodePort;
               lb_Protocol := "tcp" |} in
  '(data, status, err) <-
     call (Post client "/kaas/load_balancers" (lb_toJson lb)) ;;
  match err with
  | Some e => fail e
  | None =>
      if negb (status =? 201)%Z
      then fail (HTTPStatusCreatingLoadBalancer status name)
      else match Unmarshal_lb json data lb with
           | inr e => fail e
           | inl lb' => ret (Some lb')
           end
  end.

(** The client as a [ConcertoAPIService]. *)
Definition service : ConcertoAPIService W :=
  Build_ConcertoAPIService
    GetInstanceByName
    GetInstanceList
    CreateLoadBalancer
    GetLoadBalancerByName
    DeleteLoadBalancerById
    GetLoadBalancerNodes
    GetLoadBalancerNodesAsIPs
    RegisterInstancesWithLoadBalancer
    DeregisterInstancesFromLoadBalancer.

End Client.
End concertoAPIServiceREST.

Module REST := concertoAPIServiceREST.

(** ** The provider facade *)

(** ConcertoCloud is an implementation of Interface, TCPLoadBalancer, and
    Instances for Flexiant Concerto. *)
Record ConcertoCloud (S : Type) : Type := {
  service : ConcertoAPIService S
}.

(** Modelled from the spec: [subtractStringArrays] is called by
    [UpdateTCPLoadBalancer] but its body is not among the sources.  The
    specification describes it as the plain set difference of its two
    arguments (the elements of the first that do not occur in the second,
    no ordering requirement, no deduplication). *)
Definition subtractStringArrays (a b : list string) : list string :=
  filter (fun x => negb (existsb (String.eqb x) b)) a.

Section Cloud.

Context {S : Type}.
Variable c : ConcertoCloud S.

(** [toStatus] dereferences its argument. *)
Definition toStatus (lb : option ConcertoLoadBalancer)
  : M S LoadBalancerStatus :=
  match lb with
  | None => panic
  | Some lb =>
      ret {| status_Ingress :=
               [ {| ingress_IP := EmptyString;
                    ingress_Hostname := lb_FQDN lb |} ] |}
  end.

(** GetTCPLoadBalancer: status, exists. *)
Definition GetTCPLoadBalancer (name _region : string)
  : M S (option LoadBalancerStatus * bool) :=
  lb <- GetLoadBalancerByName (service c) name ;;
  match lb with
  | None => ret (None, false)
  | Some _ => status <- toStatus lb ;; ret (Some status, true)
  end.

(** The loop of [hostsNamesToIPs] over the host names, once the instances
    have been listed; [ips] is the slice built so far. *)
Fixpoint lookupHosts (instances : list ConcertoInstance)
  (hosts ips : list string) : M S (list string) :=
  match hosts with
  | [] => ret ips
  | name :: hosts' =>
      match find (fun instance => ci_Name instance =? name) instances with
      | Some instance =>
          lookupHosts instances hosts' (ips ++ [ci_PublicIP instance])
      | None => fail (CouldNotFindInstance name)
      end
  end.

Definition hostsNamesToIPs (hosts : list string) : M S (list string) :=
  fun s =>
    match GetInstanceList (service c) s with
    | (Ok instances, s') => lookupHosts instances hosts [] s'
    | (Err e, s') => (Err (ConvertingNamesToIPsError e), s')
    | (Panic, s') => (Panic, s')
    end.

Definition createTCPLoadBalancer (name : string)
  (ports : list (option ServicePort)) (hosts : list string)
  : M S (option ConcertoLoadBalancer) :=
  match ports with
  | Some p :: _ =>
      let port := sp_Port p in
      let nodePort := sp_NodePort p in
      lb <- CreateLoadBalancer (service c) name port nodePort ;;
      if (0 <? length hosts)%nat then
        ipAddresses <- hostsNamesToIPs hosts ;;
        match lb with
        | None => panic
        | Some lb' =>
            RegisterInstancesWithLoadBalancer (service c) (lb_Id lb')
              ipAddresses ;;;
            ret lb
        end
      else ret lb
  | _ => panic
  end.

(** UpdateTCPLoadBalancer implementation for Flexiant Concerto. *)
Definition UpdateTCPLoadBalancer (name region : string) (hosts : list string)
  : M S unit :=
  lb <- GetLoadBalancerByName (service c) name ;;
  match lb with
  | None => panic
  | Some lb =>
      currentNodes <- GetLoadBalancerNodesAsIPs (service c) (lb_Id lb) ;;
      wantedNodes <- hostsNamesToIPs hosts ;;
      let nodesToRemove := subtractStringArrays currentNodes wantedNodes in
      let nodesToAdd := subtractStringArrays wantedNodes currentNodes in
      DeregisterInstancesFromLoadBalancer (service c) (lb_Id lb)
        nodesToRemove ;;;
      RegisterInstancesWithLoadBalancer (service c) (lb_Id lb) nodesToAdd
  end.

(** EnsureTCPLoadBalancer implementation for Flexiant Concerto. *)
Definition EnsureTCPLoadBalancer (name region : string)
  (loadBalancerIP : option IP) (ports : list (option ServicePort))
  (hosts : list string) (affinityType : ServiceAffinity)
  : M S LoadBalancerStatus :=
  if negb (affinityType =? ServiceAffinityNone)
  then fail LoadBalancerUnsupportedAffinityError
  else
    match loadBalancerIP with
    | Some _ => fail LoadBalancerUnsupportedExternalIPError
    | None =>
        if negb (length ports =? 1)%nat
        then fail LoadBalancerUnsupportedNumberOfPortsError
        else
          lb <- GetLoadBalancerByName (service c) name ;;
          match lb with
          | None =>
              lb' <- createTCPLoadBalancer name ports hosts ;;
              toStatus lb'
          | Some _ =>
              UpdateTCPLoadBalancer name region hosts ;;;
              toStatus lb
          end
    end.

(** EnsureTCPLoadBalancerDeleted implementation for Flexiant Concerto. *)
Definition EnsureTCPLoadBalancerDeleted (name region : string) : M S unit :=
  lb <- GetLoadBalancerByName (service c) name ;;
  match lb with
  | None => ret tt
  | Some lb => DeleteLoadBalancerById (service c) (lb_Id lb)
  end.

End Cloud.

(** ** The Instances operations of the facade *)

(** A Go [int64] computation wraps around in two's complement. *)
Definition int64 (z : Z) : Z := ((z + 2 ^ 63) mod 2 ^ 64 - 2 ^ 63)%Z.

(** api.NodeAddress; its type is a string, here always "ExternalIP". *)
Record NodeAddress : Type := {
  addr_Type : string;
  addr_Address : string
}.

Definition NodeExternalIP : string := "ExternalIP".

(** The capacity of api.NodeResources as this package builds it: the number
    handed to resource.NewMilliQuantity for the CPU and the number handed to
    resource.NewQuantity for the memory. *)
Record NodeResources : Type := {
  capacity_cpu_milli : Z;
  capacity_memory : Z
}.

Section Instances.

Context {S : Type}.
Variable c : ConcertoCloud S.

(** Collaborators from the Go libraries: regexp.Compile (its result is used
    through MatchString only), net.ParseIP followed by String, and the
    conversion of a float64 to int64. *)
Variable regexp_Compile : string -> (string -> bool) + error.
Variable ParseIP_String : string -> string.
Variable float64_to_int64 : float -> Z.

(** NodeAddresses returns the addresses of the specified instance. *)
Definition NodeAddresses (name : string) : M S (list NodeAddress) :=
  ci <- GetInstanceByName (service c) name ;;
  ret [ {| addr_Type := NodeExternalIP;
           addr_Address := ParseIP_String (ci_PublicIP ci) |} ].

(** InstanceID returns the cloud provider ID of the specified instance. *)
Definition InstanceID (name : string) : M S string :=
  ci <- GetInstanceByName (service c) name ;;
  ret (ci_Id ci).

(** ExternalID returns the cloud provider ID of the specified instance
    (deprecated). *)
Definition ExternalID (name : string) : M S string := InstanceID name.

(** The loop of [List] over the instances; [names] is the slice built so
    far. *)
Fixpoint matchingNames (matchString : string -> bool)
  (instances : list ConcertoInstance) (names : list string) : list string :=
  match instances with
  | [] => names
  | instance :: instances' =>
      if matchString (ci_Name instance)
      then matchingNames matchString instances' (names ++ [ci_Name instance])
      else matchingNames matchString instances' names
  end.

(** List lists instances that match 'filter'.  (The method List of the
    source; it is named [ListInstances] here, [List] being the library of
    lists.) *)
Definition ListInstances (filter : string) : M S (list string) :=
  match regexp_Compile filter with
  | inr e => fail e
  | inl matchString =>
      instances <- GetInstanceList (service c) ;;
      ret (matchingNames matchString instances [])
  end.

(** Builds an api.NodeResources: cpu is in cores, memory is in MiB. *)
Definition makeNodeResources (cpu : float) (memory : Z) : NodeResources :=
  {| capacity_cpu_milli := float64_to_int64 (cpu * 1000)%float;
     capacity_memory := int64 (int64 (int64 (memory * 1024) * 1024)) |}.

(** GetNodeResources gets the resources for a particular node. *)
Definition GetNodeResources (name : string) : M S NodeResources :=
  ci <- GetInstanceByName (service c) name ;;
  ret (makeNodeResources (ci_CPUs ci) (ci_Memory ci)).

(** Returns the name of the node we are currently running on. *)
Definition CurrentNodeName (hostname : string) : M S string := ret hostname.

(** NOT SUPPORTED in Concerto Cloud. *)
Definition AddSSHKeyToAllInstances (user : string) (keyData : list Byte.byte)
  : M S unit :=
  fail UnsupportedOperation.

End Instances.

(** ** Observing the remote calls *)

(** One call received by the REST endpoint. *)
Inductive Call (bytes : Type) : Type :=
| GET (path : string)
| POST (path : string) (body : bytes)
| DELETE (path : string).

Arguments GET {bytes} path.
Arguments POST {bytes} path body.
Arguments DELETE {bytes} path.

Definition isGET {bytes : Type} (k : Call bytes) : bool :=
  match k with GET _ => true | _ => false end.

Definition isPOST {bytes : Type} (k : Call bytes) : bool :=
  match k with POST _ _ => true | _ => false end.

Definition isDELETE {bytes : Type} (k : Call bytes) : bool :=
  match k with DELETE _ => true | _ => false end.

(** RESTMock of the tests: every verb appends itself to [receivedCalls] and
    answers the canned body, status and error. *)
Definition RESTMock {bytes : Type} (body : bytes) (status : Z)
  (err : option error) : restService bytes (list (Call bytes)) :=
  {| Get := fun path receivedCalls =>
       ((body, status, err), receivedCalls ++ [GET path]);
     Post := fun path b receivedCalls =>
       ((body, status, err), receivedCalls ++ [POST path b]);
     Delete := fun path receivedCalls =>
       ((body, status, err), receivedCalls ++ [DELETE path]) |}.

(** The same recording in front of an arbitrary client. *)
Definition recording {bytes W : Type} (client : restService bytes W)
  : restService bytes (W * list (Call bytes)) :=
  {| Get := fun path '(w, receivedCalls) =>
       let (r, w') := Get client path w in
       (r, (w', receivedCalls ++ [GET path]));
     Post := fun path b '(w, receivedCalls) =>
       let (r, w') := Post client path b w in
       (r, (w', receivedCalls ++ [POST path b]));
     Delete := fun path '(w, receivedCalls) =>
       let (r, w') := Delete client path w in
       (r, (w', receivedCalls ++ [DELETE path])) |}.

(** The provider as deployed: the facade over the REST service over a
    recorded client. *)
Definition concerto {bytes W : Type} (json : JSON bytes)
  (client : restService bytes W) : ConcertoCloud (W * list (Call bytes)) :=
  {| service := concertoAPIServiceREST.service json (recording client) |}.

(** ** The remote system

    The remote API is not part of this package.  The specification assumes
    of it that a completed create, register, deregister or delete call is
    visible to every later listing.  [Remote] is such a system: the instances
    it hosts, its load balancers and the members of each, behind the three
    verbs of the REST client.  It answers the statuses the client treats as
    success (200 for a listing, 201 for a creation, 204 for a deletion) and
    404 for a path that names no resource.  Identifiers are assigned by the
    remote system.  Properties that speak of the membership after a call are
    stated against it; the others hold for every REST client. *)
Module Remote.

Import concertoAPIServiceREST.

(** The wire format on the server side. *)
Record Wire (bytes : Type) : Type := {
  encode_ships : list Ship -> bytes;
  encode_lbs : list ConcertoLoadBalancer -> bytes;
  encode_nodes : list ConcertoLoadBalancerNode -> bytes;
  encode_lb : ConcertoLoadBalancer -> bytes;
  decode_lb : bytes -> option ConcertoLoadBalancer;
  decode_node : bytes -> option ConcertoLoadBalancerNode;
  empty_body : bytes
}.

(** Client and server agree on the wire format: what one side encodes the
    other side decodes to the same value. *)
Record Agree {bytes : Type} (json : JSON bytes) (wire : Wire bytes) : Prop := {
  ships_roundtrip : forall l, Unmarshal_ships json (encode_ships wire l) = inl l;
  lbs_roundtrip : forall l, Unmarshal_lbs json (encode_lbs wire l) = inl l;
  nodes_roundtrip : forall l, Unmarshal_nodes json (encode_nodes wire l) = inl l;
  lb_roundtrip : forall lb lb0, Unmarshal_lb json (encode_lb wire lb) lb0 = inl lb;
  lb_request : forall lb, decode_lb wire (lb_toJson json lb) = Some lb;
  node_request : forall n, decode_node wire (node_toJson json n) = Some n
}.

Record State : Type := {
  ships : list Ship;
  balancers : list (ConcertoLoadBalancer * list ConcertoLoadBalancerNode)
}.

Fixpoint zeros (n : nat) : string :=
  match n with
  | O => EmptyString
  | S n' => String "0" (zeros n')
  end.

(** An identifier different from all those in use: it is longer. *)
Definition freshId (used : list string) : string :=
  zeros (S (list_max (map String.length used))).

Definition withId (lb : ConcertoLoadBalancer) (id : string)
  : ConcertoLoadBalancer :=
  {| lb_Id := id;
     lb_Name := lb_Name lb;
     lb_FQDN := lb_FQDN lb;
     lb_Port := lb_Port lb;
     lb_NodePort := lb_NodePort lb;
     lb_Protocol := lb_Protocol lb |}.

Section Server.

Context {bytes : Type}.
Variable wire : Wire bytes.

Definition handleGet (path : string) (st : State) : Response bytes * State :=
  if path =? "/kaas/ships" then
    ((encode_ships wire (ships st), 200%Z, None), st)
  else if path =? "/kaas/load_balancers" then
    ((encode_lbs wire (map fst (balancers st)), 200%Z, None), st)
  else
    match find (fun b => nodesPath (lb_Id (fst b)) =? path) (balancers st) with
    | Some b => ((encode_nodes wire (snd b), 200%Z, None), st)
    | None => ((empty_body wire, 404%Z, None), st)
    end.

Definition addNode (path : string) (n : ConcertoLoadBalancerNode)
  (b : ConcertoLoadBalancer * list ConcertoLoadBalancerNode)
  : ConcertoLoadBalancer * list ConcertoLoadBalancerNode :=
  if nodesPath (lb_Id (fst b)) =? path then
    (fst b, snd b ++ [ {| node_ID := freshId (map node_ID (snd b));
                          node_IP := node_IP n |} ])
  else b.

Definition handlePost (path : string) (body : bytes) (st : State)
  : Response bytes * State :=
  if path =? "/kaas/load_balancers" then
    match decode_lb wire body with
    | None => ((empty_body wire, 400%Z, None), st)
    | Some lb =>
        if existsb (fun b => lb_Name (fst b) =? lb_Name lb) (balancers st)
        then ((empty_body wire, 409%Z, None), st)
        else
          let lb' := withId lb (freshId (map (fun b => lb_Id (fst b))
                                             (balancers st))) in
          ((encode_lb wire lb', 201%Z, None),
           {| ships := ships st;
              balancers := balancers st ++ [(lb', [])] |})
    end
  else if existsb (fun b => nodesPath (lb_Id (fst b)) =? path) (balancers st)
  then
    match decode_node wire body with
    | None => ((empty_body wire, 400%Z, None), st)
    | Some n =>
        ((body, 201%Z, None),
         {| ships := ships st;
            balancers := map (addNode path n) (balancers st) |})
    end
  else ((empty_body wire, 404%Z, None), st).

Definition dropNode (path : string)
  (b : ConcertoLoadBalancer * list ConcertoLoadBalancerNode)
  : ConcertoLoadBalancer * list ConcertoLoadBalancerNode :=
  (fst b,
   filter (fun n => negb (nodePath (lb_Id (fst b)) (node_ID n) =? path))
          (snd b)).

Definition handleDelete (path : string) (st : State)
  : Response bytes * State :=
  if existsb (fun b => loadBalancerPath (lb_Id (fst b)) =? path) (balancers st)
  then
    ((empty_body wire, 204%Z, None),
     {| ships := ships st;
        balancers :=
          filter (fun b => negb (loadBalancerPath (lb_Id (fst b)) =? path))
                 (balancers st) |})
  else if existsb
            (fun b => existsb
                        (fun n => nodePath (lb_Id (fst b)) (node_ID n) =? path)
                        (snd b))
            (balancers st)
  then
    ((empty_body wire, 204%Z, None),
     {| ships := ships st;
        balancers := map (dropNode path) (balancers st) |})
  else ((empty_body wire, 404%Z, None), st).

Definition server : restService bytes State :=
  {| Get := handleGet; Post := handlePost; Delete := handleDelete |}.

End Server.

(** The addresses registered with the load balancer of the given id. *)
Definition membership (st : State) (id : string) : list string :=
  match find (fun b => lb_Id (fst b) =? id) (balancers st) with
  | Some b => map node_IP (snd b)
  | None => []
  end.

(** The load balancer of the given name, as a listing shows it. *)
Definition balancerNamed (st : State) (name : string)
  : option ConcertoLoadBalancer :=
  find (fun lb => lb_Name lb =? name) (map fst (balancers st)).

(** The address of the instance a host name designates. *)
Definition addressOf (st : State) (host : string) : string :=
  match find (fun s => ship_Fqdn s =? host) (ships st) with
  | Some s => ship_Public_ip s
  | None => EmptyString
  end.

Definition resolvedAddresses (st : State) (hosts : list string) : list string :=
  map (addressOf st) hosts.

Definition allResolve (st : State) (hosts : list string) : bool :=
  forallb (fun host => existsb (fun s => ship_Fqdn s =? host) (ships st)) hosts.

(** Well-formed states: load balancer ids and names are unique, an id holds
    no path separator, and the node ids of one load balancer are unique. *)
Fixpoint distinct (l : list string) : bool :=
  match l with
  | [] => true
  | x :: l' => negb (existsb (String.eqb x) l') && distinct l'
  end.

Definition slashFree (s : string) : bool :=
  negb (existsb (Ascii.eqb "/") (list_ascii_of_string s)).

Definition wellFormed (st : State) : bool :=
  distinct (map (fun b => lb_Id (fst b)) (balancers st))
  && distinct (map (fun b => lb_Name (fst b)) (balancers st))
  && forallb (fun b => slashFree (lb_Id (fst b))) (balancers st)
  && forallb (fun b => distinct (map node_ID (snd b))) (balancers st).

End Remote.

(** ** A structured wire format

    The simplest format on which client and server agree: a payload is the
    value it carries.  It is used to run the provider on concrete inputs. *)
Inductive payload : Type :=
| ShipsPayload (l : list Ship)
| BalancersPayload (l : list ConcertoLoadBalancer)
| NodesPayload (l : list ConcertoLoadBalancerNode)
| BalancerPayload (lb : ConcertoLoadBalancer)
| NodePayload (n : ConcertoLoadBalancerNode)
| EmptyPayload.

Definition payloadJSON : JSON payload :=
  {| nil_bytes := EmptyPayload;
     Unmarshal_ships := fun data =>
       match data with
       | ShipsPayload l => inl l
       | _ => inr (ExternalError "json: cannot unmarshal into []Ship")
       end;
     Unmarshal_lbs := fun data =>
       match data with
       | BalancersPayload l => inl l
       | _ => inr (ExternalError "json: cannot unmarshal into []ConcertoLoadBalancer")
       end;
     Unmarshal_nodes := fun data =>
       match data with
       | NodesPayload l => inl l
       | _ => inr (ExternalError "json: cannot unmarshal into []ConcertoLoadBalancerNode")
       end;
     Unmarshal_lb := fun data _ =>
       match data with
       | BalancerPayload lb => inl lb
       | _ => inr (ExternalError "json: cannot unmarshal into ConcertoLoadBalancer")
       end;
     Marshal_node := fun n => inl (NodePayload n);
     Marshal_lb := fun lb => inl (BalancerPayload lb) |}.

Definition payloadWire : Remote.Wire payload :=
  {| Remote.encode_ships := ShipsPayload;
     Remote.encode_lbs := BalancersPayload;
     Remote.encode_nodes := NodesPayload;
     Remote.encode_lb := BalancerPayload;
     Remote.decode_lb := fun data =>
       match data with BalancerPayload lb => Some lb | _ => None end;
     Remote.decode_node := fun data =>
       match data with NodePayload n => Some n | _ => None end;
     Remote.empty_body := EmptyPayload |}.

(** ** Sample data

    The scenario of the specification: a load balancer whose members are
    1.2.3.4 and 5.6.7.8, and three instances of which the second and the
    third are the desired hosts. *)
Definition sampleShip (id fqdn ip : string) : Ship :=
  {| ship_Id := id;
     ship_Fqdn := fqdn;
     ship_Name := fqdn;
     ship_Public_ip := ip;
     ship_Server_plan_id := "plan";
     ship_Cpus := 2%float;
     ship_Memory := 2048%Z;
     ship_Storage := 20%Z |}.

Definition sampleBalancer : ConcertoLoadBalancer :=
  {| lb_Id := "0001";
     lb_Name := "myLB";
     lb_FQDN := "myLB";
     lb_Port := 80%Z;
     lb_NodePort := 30080%Z;
     lb_Protocol := "tcp" |}.

Definition sampleState : Remote.State :=
  {| Remote.ships :=
       [ sampleShip "s1" "host-a" "1.2.3.4";
         sampleShip "s2" "host-b" "5.6.7.8";
         sampleShip "s3" "host-c" "9.9.9.9" ];
     Remote.balancers :=
       [ (sampleBalancer,
          [ {| node_ID := "n1"; node_IP := "1.2.3.4" |};
            {| node_ID := "n2"; node_IP := "5.6.7.8" |} ]) ] |}.

Definition samplePort : ServicePort :=
  {| sp_Port := 80%Z; sp_NodePort := 30080%Z |}.

(** The same remote system with a second load balancer. *)
Definition sampleState2 : Remote.State :=
  {| Remote.ships := Remote.ships sampleState;
     Remote.balancers :=
       Remote.balancers sampleState ++
       [ ({| lb_Id := "0002";
             lb_Name := "otherLB";
             lb_FQDN := "otherLB";
             lb_Port := 443%Z;
             lb_NodePort := 30443%Z;
             lb_Protocol := "tcp" |},
          [ {| node_ID := "n1"; node_IP := "9.9.9.9" |} ]) ] |}.

(** A remote system that refuses every DELETE with status 500. *)
Definition refusingDeletes : restService payload Remote.State :=
  {| Get := Remote.handleGet payloadWire;
     Post := Remote.handlePost payloadWire;
     Delete := fun _ st => ((EmptyPayload, 500%Z, None), st) |}.

(** The provider in front of the remote system, on the structured wire. *)
Definition sampleCloud : ConcertoCloud (Remote.State * list (Call payload)) :=
  concerto payloadJSON (Remote.server payloadWire).

(** ** The per-address operations of the reconciliation

    [Update] changes the membership through two operations of the REST
    service, each on one address.  [issued] is the execution of a sequence
    of them, every one succeeding, from one state of the world to another. *)
Inductive Operation : Type :=
| Deregister (ip : string)
| Register (ip : string).

Section Operations.

Context {bytes W : Type}.
Variable json : JSON bytes.
Variable client : restService bytes W.

Definition perform (loadBalancerId : string) (op : Operation) : M W unit :=
  match op with
  | Deregister ip =>
      concertoAPIServiceREST.deregisterInstanceFromLoadBalancer
        json client loadBalancerId ip
  | Register ip =>
      concertoAPIServiceREST.registerInstanceWithLoadBalancer
        json client loadBalancerId ip
  end.

Inductive issued (loadBalancerId : string) : list Operation -> W -> W -> Prop :=
| issued_nil : forall w, issued loadBalancerId [] w w
| issued_cons : forall op ops w w' w'',
    perform loadBalancerId op w = (Ok tt, w') ->
    issued loadBalancerId ops w' w'' ->
    issued loadBalancerId (op :: ops) w w''.

End Operations.

(** Deregistrations come first in a sequence of operations. *)
Definition deregistersFirst (ops : list Operation) : Prop :=
  exists removed added,
    ops = map Deregister removed ++ map Register added.

(** ** What the REST endpoint sees of a reconciliation

    The relations below describe a run of Update by the calls the endpoint
    receives and the answers it gives, without reference to the functions
    of the REST service.  A state is the world together with the calls
    received so far; every call made is recorded, and no other call is.

    [balancerListed name s lb s']: the endpoint is asked for the load
    balancers and answers, with a status below 400, a list in which [lb] is
    the first of that name.

    [membersListed id s M s']: the endpoint is asked for the members of the
    load balancer and answers, with a status other than 404, a list of
    nodes whose addresses are [M].

    [hostsResolved hosts s D s']: the endpoint is asked for the instances;
    the addresses [D] are, host by host, the address of the first instance
    listed under the name of the host (none is listed under status 404).

    [deregistrations id ips s s']: for each address of [ips] in turn, the
    endpoint is asked for the members of the load balancer, answers a list
    in which [node] is the first member with that address, is then asked to
    DELETE that very node and answers 200 or 204.

    [registrations id ips s s']: for each address of [ips] in turn, the
    endpoint is asked for the instances, answers a list in which some
    instance has that address, is then sent the POST of the node with an
    empty ID and that address to the nodes path of the load balancer and
    answers 201. *)
Section Transcript.

Context {bytes W : Type}.
Variable json : JSON bytes.
Variable client : restService bytes W.

Inductive balancerListed (name : string)
  : W * list (Call bytes) -> ConcertoLoadBalancer
    -> W * list (Call bytes) -> Prop :=
| balancerListed_intro :
    forall w calls data status w1 lbs pre lb post,
      Get client "/kaas/load_balancers" w = ((data, status, None), w1) ->
      (status < 400)%Z ->
      Unmarshal_lbs json data = inl lbs ->
      lbs = pre ++ lb :: post ->
      lb_Name lb = name ->
      (forall b, In b pre -> lb_Name b <> name) ->
      balancerListed name (w, calls) lb
        (w1, calls ++ [GET "/kaas/load_balancers"]).

Inductive membersListed (loadBalancerId : string)
  : W * list (Call bytes) -> list string -> W * list (Call bytes) -> Prop :=
| membersListed_intro :
    forall w calls data status w1 nodes,
      Get client ("/kaas/load_balancers/" ++ loadBalancerId ++ "/nodes") w
      = ((data, status, None), w1) ->
      status <> 404%Z ->
      Unmarshal_nodes json data = inl nodes ->
      membersListed loadBalancerId (w, calls) (map node_IP nodes)
        (w1,
         calls ++
         [GET ("/kaas/load_balancers/" ++ loadBalancerId ++ "/nodes")]).

(** [ip] is the address of the first of [ships] whose fqdn is [host]. *)
Definition firstNamed (ships : list Ship) (host ip : string) : Prop :=
  exists pre ship post,
    ships = pre ++ ship :: post
    /\ ship_Fqdn ship = host
    /\ ship_Public_ip ship = ip
    /\ (forall x, In x pre -> ship_Fqdn x <> host).

Inductive hostsResolved (hosts : list string)
  : W * list (Call bytes) -> list string -> W * list (Call bytes) -> Prop :=
| hostsResolved_intro :
    forall w calls data status w1 ships D,
      Get client "/kaas/ships" w = ((data, status, None), w1) ->
      (status = 404%Z /\ ships = []
       \/ status <> 404%Z /\ Unmarshal_ships json data = inl ships) ->
      Forall2 (firstNamed ships) hosts D ->
      hostsResolved hosts (w, calls) D (w1, calls ++ [GET "/kaas/ships"]).

Inductive deregistrations (loadBalancerId : string)
  : list string -> W * list (Call bytes) -> W * list (Call bytes) -> Prop :=
| deregistrations_nil : forall s, deregistrations loadBalancerId [] s s
| deregistrations_cons :
    forall ip ips w calls data status w1 nodes pre node post
           data' status' w2 s',
      Get client ("/kaas/load_balancers/" ++ loadBalancerId ++ "/nodes") w
      = ((data, status, None), w1) ->
      status <> 404%Z ->
      Unmarshal_nodes json data = inl nodes ->
      nodes = pre ++ node :: post ->
      node_IP node = ip ->
      (forall n, In n pre -> node_IP n <> ip) ->
      Delete client
        ("/kaas/load_balancers/" ++ loadBalancerId ++ "/nodes/"
         ++ node_ID node) w1
      = ((data', status', None), w2) ->
      (status' = 200 \/ status' = 204)%Z ->
      deregistrations loadBalancerId ips
        (w2,
         calls ++
         [GET ("/kaas/load_balancers/" ++ loadBalancerId ++ "/nodes");
          DELETE ("/kaas/load_balancers/" ++ loadBalancerId ++ "/nodes/"
                  ++ node_ID node)])
        s' ->
      deregistrations loadBalancerId (ip :: ips) (w, calls) s'.

Inductive registrations (loadBalancerId : string)
  : list string -> W * list (Call bytes) -> W * list (Call bytes) -> Prop :=
| registrations_nil : forall s, registrations loadBalancerId [] s s
| registrations_cons :
    forall ip ips w calls data status w1 ships ship body data' w2 s',
      Get client "/kaas/ships" w = ((data, status, None), w1) ->
      status <> 404%Z ->
      Unmarshal_ships json data = inl ships ->
      In ship ships ->
      ship_Public_ip ship = ip ->
      body = match Marshal_node json
                     {| node_ID := EmptyString; node_IP := ip |} with
             | inl b => b
             | inr _ => nil_bytes json
             end ->
      Post client ("/kaas/load_balancers/" ++ loadBalancerId ++ "/nodes")
        body w1
      = ((data', 201%Z, None), w2) ->
      registrations loadBalancerId ips
        (w2,
         calls ++
         [GET "/kaas/ships";
          POST ("/kaas/load_balancers/" ++ loadBalancerId ++ "/nodes") body])
        s' ->
      registrations loadBalancerId (ip :: ips) (w, calls) s'.

End Transcript.

(** Sample collaborators: a filter language with the one pattern "host-.*"
    for names that begin with "host-" (any other filter is refused), the
    identity for the normalisation of an address, and no use of the CPU
    conversion. *)
Definition sampleCompile (filter : string) : (string -> bool) + error :=
  if filter =? "host-.*" then inl (String.prefix "host-")
  else inr (ExternalError "error parsing regexp").

(** A call in the course of reconciling the membership of one load
    balancer: any GET, a POST to its nodes path, a DELETE of one of its
    nodes. *)
Definition membershipCall {bytes : Type} (loadBalancerId : string)
  (k : Call bytes) : Prop :=
  match k with
  | GET _ => True
  | POST path _ => path = REST.nodesPath loadBalancerId
  | DELETE path => exists nodeId, path = REST.nodePath loadBalancerId nodeId
  end.

(** * Properties *)

(** ** The monad *)

Lemma bind_Ok {S A B : Type} (m : M S A) (k : A -> M S B) s a s' :
  m s = (Ok a, s') -> bind m k s = k a s'.
Proof. intros H. unfold bind. now rewrite H. Qed.

Lemma bind_Err {S A B : Type} (m : M S A) (k : A -> M S B) s e s' :
  m s = (Err e, s') -> bind m k s = (Err e, s').
Proof. intros H. unfold bind. now rewrite H. Qed.

Lemma bind_Panic {S A B : Type} (m : M S A) (k : A -> M S B) s s' :
  m s = (Panic, s') -> bind m k s = (Panic, s').
Proof. intros H. unfold bind. now rewrite H. Qed.

(** ** Capability checks of Ensure *)

Section EnsureChecks.

Context {S : Type}.
Variable c : ConcertoCloud S.

Lemma Ensure_affinity name region loadBalancerIP ports hosts affinityType s :
  affinityType <> ServiceAffinityNone ->
  EnsureTCPLoadBalancer c name region loadBalancerIP ports hosts affinityType s
  = (Err LoadBalancerUnsupportedAffinityError, s).
Proof.
  intros H. unfold EnsureTCPLoadBalancer.
  apply String.eqb_neq in H. now rewrite H.
Qed.

Lemma Ensure_externalIP name region ip ports hosts s :
  EnsureTCPLoadBalancer c name region (Some ip) ports hosts
    ServiceAffinityNone s
  = (Err LoadBalancerUnsupportedExternalIPError, s).
Proof. reflexivity. Qed.

Lemma Ensure_ports name region ports hosts s :
  length ports <> 1%nat ->
  EnsureTCPLoadBalancer c name region None ports hosts ServiceAffinityNone s
  = (Err LoadBalancerUnsupportedNumberOfPortsError, s).
Proof.
  intros H. unfold EnsureTCPLoadBalancer. simpl.
  apply Nat.eqb_neq in H. now rewrite H.
Qed.

End EnsureChecks.

(** C5 (as amended): an affinity other than None is rejected with the
    unsupported-affinity error; with affinity None, a non-nil explicit
    load-balancer IP is rejected with the unsupported-external-IP error.  In
    both cases no remote call is made: the world and the record of received
    calls are as before. *)
Theorem Ensure_rejects_unsupported_capability :
  forall (bytes W : Type) (json : JSON bytes) (client : restService bytes W)
         (name region : string) (loadBalancerIP : option IP)
         (ports : list (option ServicePort)) (hosts : list string)
         (affinityType : ServiceAffinity)
         (w : W) (receivedCalls : list (Call bytes)),
    (affinityType <> ServiceAffinityNone ->
     EnsureTCPLoadBalancer (concerto json client) name region loadBalancerIP
       ports hosts affinityType (w, receivedCalls)
     = (Err LoadBalancerUnsupportedAffinityError, (w, receivedCalls)))
    /\
    (affinityType = ServiceAffinityNone -> loadBalancerIP <> None ->
     EnsureTCPLoadBalancer (concerto json client) name region loadBalancerIP
       ports hosts affinityType (w, receivedCalls)
     = (Err LoadBalancerUnsupportedExternalIPError, (w, receivedCalls))).
Proof.
  intros. split.
  - intros H. now apply Ensure_affinity.
  - intros -> H. destruct loadBalancerIP as [ip|]; [|congruence].
    apply Ensure_externalIP.
Qed.

Lemma Ensure_rejects_unsupported_capability_witness :
  EnsureTCPLoadBalancer sampleCloud "myLB" "region" None [Some samplePort]
    ["host-b"] ServiceAffinityClientIP (sampleState, [])
  = (Err LoadBalancerUnsupportedAffinityError, (sampleState, []))
  /\
  EnsureTCPLoadBalancer sampleCloud "myLB" "region" (Some []) [Some samplePort]
    ["host-b"] ServiceAffinityNone (sampleState, [])
  = (Err LoadBalancerUnsupportedExternalIPError, (sampleState, [])).
Proof.
  split.
  - apply (proj1 (Ensure_rejects_unsupported_capability payloadJSON
                    (Remote.server payloadWire) "myLB" "region" None
                    [Some samplePort] ["host-b"] ServiceAffinityClientIP
                    sampleState [])).
    discriminate.
  - apply (proj2 (Ensure_rejects_unsupported_capability payloadJSON
                    (Remote.server payloadWire) "myLB" "region" (Some [])
                    [Some samplePort] ["host-b"] ServiceAffinityNone
                    sampleState [])).
    + reflexivity.
    + discriminate.
Defined.

(** C5 (as stated) fails where both capabilities are requested: the affinity
    check comes first, so a non-nil explicit IP together with ClientIP
    affinity yields the unsupported-affinity error. *)
Lemma Ensure_externalIP_with_affinity_counterexample :
  fst (EnsureTCPLoadBalancer sampleCloud "myLB" "region" (Some [])
         [Some samplePort] ["host-b"] ServiceAffinityClientIP
         (sampleState, []))
  = Err LoadBalancerUnsupportedAffinityError
  /\
  fst (EnsureTCPLoadBalancer sampleCloud "myLB" "region" (Some [])
         [Some samplePort] ["host-b"] ServiceAffinityClientIP
         (sampleState, []))
  <> Err LoadBalancerUnsupportedExternalIPError.
Proof. split; [reflexivity | discriminate]. Qed.

(** C6 (as amended): Ensure validates the number of ports itself.  With
    affinity None and a nil explicit IP, a ports list whose length is not 1
    is rejected with the unsupported-number-of-ports error before any lookup:
    no remote call is made. *)
Theorem Ensure_validates_number_of_ports :
  forall (bytes W : Type) (json : JSON bytes) (client : restService bytes W)
         (name region : string) (ports : list (option ServicePort))
         (hosts : list string) (w : W) (receivedCalls : list (Call bytes)),
    length ports <> 1%nat ->
    EnsureTCPLoadBalancer (concerto json client) name region None ports hosts
      ServiceAffinityNone (w, receivedCalls)
    = (Err LoadBalancerUnsupportedNumberOfPortsError, (w, receivedCalls)).
Proof. intros. now apply Ensure_ports. Qed.

Lemma Ensure_validates_number_of_ports_witness :
  EnsureTCPLoadBalancer sampleCloud "myLB" "region" None
    [Some samplePort; Some samplePort] ["host-b"] ServiceAffinityNone
    (sampleState, [])
  = (Err LoadBalancerUnsupportedNumberOfPortsError, (sampleState, [])).
Proof.
  apply (Ensure_validates_number_of_ports payloadJSON
           (Remote.server payloadWire) "myLB" "region"
           [Some samplePort; Some samplePort] ["host-b"] sampleState []).
  simpl. lia.
Defined.

(** C6 (as stated) fails: with no port at all, Ensure returns the
    ports-count error of its own and makes no lookup. *)
Lemma Ensure_ports_not_checked_counterexample :
  EnsureTCPLoadBalancer sampleCloud "newLB" "region" None [] ["host-b"]
    ServiceAffinityNone (sampleState, [])
  = (Err LoadBalancerUnsupportedNumberOfPortsError, (sampleState, [])).
Proof. reflexivity. Qed.

(** ** The two listings and HTTP 404 *)

(** C7: on status 404 (and no transport error) [GetInstanceList] returns the
    empty sequence and no error, whereas [GetLoadBalancerNodes] returns the
    error "Load balancer not found" and no result. *)
Theorem listings_treat_404_oppositely :
  forall (bytes W : Type) (json : JSON bytes) (client : restService bytes W)
         (loadBalancerId : string) (w1 w1' w2 w2' : W) (data1 data2 : bytes),
    Get client "/kaas/ships" w1 = ((data1, 404%Z, None), w1') ->
    Get client (concertoAPIServiceREST.nodesPath loadBalancerId) w2
    = ((data2, 404%Z, None), w2') ->
    concertoAPIServiceREST.GetInstanceList json client w1 = (Ok [], w1')
    /\
    concertoAPIServiceREST.GetLoadBalancerNodes json client loadBalancerId w2
    = (Err (LoadBalancerNotFound loadBalancerId), w2').
Proof.
  intros bytes W json client loadBalancerId w1 w1' w2 w2' data1 data2 H1 H2.
  split.
  - unfold concertoAPIServiceREST.GetInstanceList,
      concertoAPIServiceREST.call, bind.
    rewrite H1. reflexivity.
  - unfold concertoAPIServiceREST.GetLoadBalancerNodes,
      concertoAPIServiceREST.call, bind.
    rewrite H2. reflexivity.
Qed.

Lemma listings_treat_404_oppositely_witness :
  concertoAPIServiceREST.GetInstanceList payloadJSON
    (RESTMock EmptyPayload 404%Z None) []
  = (Ok [], [GET "/kaas/ships"])
  /\
  concertoAPIServiceREST.GetLoadBalancerNodes payloadJSON
    (RESTMock EmptyPayload 404%Z None) "0001" []
  = (Err (LoadBalancerNotFound "0001"),
     [GET "/kaas/load_balancers/0001/nodes"]).
Proof.
  apply (listings_treat_404_oppositely payloadJSON
           (RESTMock EmptyPayload 404%Z None) "0001"
           [] [] (data1 := EmptyPayload) (data2 := EmptyPayload));
    reflexivity.
Defined.

(** ** What a registration transmits *)

Lemma find_some_eqb {A : Type} (key : A -> string) (k : string) (l : list A) x :
  find (fun y => key y =? k) l = Some x -> In x l /\ key x = k.
Proof.
  intros H. apply find_some in H. destruct H as [H1 H2].
  split; [assumption | now apply String.eqb_eq].
Qed.

(** C10: whatever instance the address resolves to, the only POST a
    registration makes goes to the nodes path of the load balancer and carries
    the encoding of the node with an empty ID and the address; the calls of a
    registration are the instance listing and, when the address is found,
    that POST. *)
Theorem registration_transmits_address_only :
  forall (bytes W : Type) (json : JSON bytes) (client : restService bytes W)
         (loadBalancerId ip : string) (w w' : W)
         (receivedCalls receivedCalls' : list (Call bytes)) (r : result unit),
    concertoAPIServiceREST.registerInstanceWithLoadBalancer json
      (recording client) loadBalancerId ip (w, receivedCalls)
    = (r, (w', receivedCalls')) ->
    receivedCalls' = receivedCalls ++ [GET "/kaas/ships"]
    \/
    receivedCalls' =
      receivedCalls ++
      [GET "/kaas/ships";
       POST (concertoAPIServiceREST.nodesPath loadBalancerId)
            (concertoAPIServiceREST.node_toJson json
               {| node_ID := EmptyString; node_IP := ip |})].
Proof.
  intros bytes W json client loadBalancerId ip w w' calls calls' r.
  unfold concertoAPIServiceREST.registerInstanceWithLoadBalancer,
    concertoAPIServiceREST.GetInstanceByIP,
    concertoAPIServiceREST.GetInstanceList,
    concertoAPIServiceREST.call, bind, ret, fail.
  cbn [Get Post recording].
  destruct (Get client "/kaas/ships" w) as [[[data status] err] w1].
  destruct err as [e|].
  { intros H. injection H as _ _ <-. now left. }
  destruct (status =? 404)%Z.
  { cbn [find]. intros H. injection H as _ _ <-. now left. }
  destruct (Unmarshal_ships json data) as [ships|e].
  2:{ intros H. injection H as _ _ <-. now left. }
  destruct (find _ _) as [instance|] eqn:Hfind.
  2:{ intros H. injection H as _ _ <-. now left. }
  apply find_some_eqb in Hfind. destruct Hfind as [_ Hip].
  unfold concertoAPIServiceREST.toNode. rewrite Hip.
  destruct (Post client _ _ w1) as [[[data' status'] err'] w2].
  intros H. right.
  destruct err'; [|destruct (negb _)]; injection H as _ _ <-;
    now rewrite <- app_assoc.
Qed.

Lemma registration_transmits_address_only_witness :
  snd (snd (concertoAPIServiceREST.registerInstanceWithLoadBalancer
              payloadJSON (recording (Remote.server payloadWire))
              "0001" "9.9.9.9" (sampleState, [])))
  = [GET "/kaas/ships"]
  \/
  snd (snd (concertoAPIServiceREST.registerInstanceWithLoadBalancer
              payloadJSON (recording (Remote.server payloadWire))
              "0001" "9.9.9.9" (sampleState, [])))
  = [GET "/kaas/ships";
     POST "/kaas/load_balancers/0001/nodes"
          (NodePayload {| node_ID := EmptyString; node_IP := "9.9.9.9" |})].
Proof.
  eapply (@registration_transmits_address_only _ _ payloadJSON
            (Remote.server payloadWire) "0001" "9.9.9.9"
            sampleState _ [] _ _).
  cbv. reflexivity.
Defined.

(** ** Runs of the REST service and the calls they make *)

Lemma bind_inv {S A B : Type} (m : M S A) (k : A -> M S B) s r s' :
  bind m k s = (r, s') ->
  (exists a s1, m s = (Ok a, s1) /\ k a s1 = (r, s'))
  \/ (exists e, m s = (Err e, s') /\ r = Err e)
  \/ (m s = (Panic, s') /\ r = Panic).
Proof.
  unfold bind. destruct (m s) as [[a|e|] s1]; intros H.
  - left. now exists a, s1.
  - right. left. injection H as <- <-. now exists e.
  - right. right. injection H as <- <-. now split.
Qed.

Section Calls.

Context {bytes W : Type}.
Variable json : JSON bytes.
Variable client : restService bytes W.

Local Abbreviation rest := (recording client).
Local Abbreviation World := (W * list (Call bytes))%type.

Lemma GetInstanceList_calls (s s' : World) r :
  REST.GetInstanceList json rest s = (r, s') ->
  snd s' = snd s ++ [GET "/kaas/ships"] /\ r <> Panic.
Proof.
  destruct s as [w calls].
  unfold REST.GetInstanceList, REST.call, bind, ret, fail. cbn [Get recording].
  destruct (Get client "/kaas/ships" w) as [[[data status] err] w1].
  destruct err; [|destruct (status =? 404)%Z;
                   [|destruct (Unmarshal_ships json data)]];
    intros H; injection H as <- <-; split; (reflexivity || discriminate).
Qed.

Lemma GetLoadBalancerList_calls (s s' : World) r :
  REST.GetLoadBalancerList json rest s = (r, s') ->
  snd s' = snd s ++ [GET "/kaas/load_balancers"] /\ r <> Panic.
Proof.
  destruct s as [w calls].
  unfold REST.GetLoadBalancerList, REST.call, bind, ret, fail. cbn [Get recording].
  destruct (Get client "/kaas/load_balancers" w) as [[[data status] err] w1].
  destruct err; [|destruct (status >=? 400)%Z;
                   [|destruct (Unmarshal_lbs json data)]];
    intros H; injection H as <- <-; split; (reflexivity || discriminate).
Qed.

Lemma GetLoadBalancerNodes_calls id (s s' : World) r :
  REST.GetLoadBalancerNodes json rest id s = (r, s') ->
  snd s' = snd s ++ [GET (REST.nodesPath id)] /\ r <> Panic.
Proof.
  destruct s as [w calls].
  unfold REST.GetLoadBalancerNodes, REST.call, bind, ret, fail. cbn [Get recording].
  destruct (Get client (REST.nodesPath id) w) as [[[data status] err] w1].
  destruct err; [|destruct (status =? 404)%Z;
                   [|destruct (Unmarshal_nodes json data)]];
    intros H; injection H as <- <-; split; (reflexivity || discriminate).
Qed.

Lemma GetLoadBalancerByName_calls name (s s' : World) r :
  REST.GetLoadBalancerByName json rest name s = (r, s') ->
  snd s' = snd s ++ [GET "/kaas/load_balancers"] /\ r <> Panic.
Proof.
  unfold REST.GetLoadBalancerByName. intros H.
  apply bind_inv in H. destruct H as [(l & s1 & H1 & H2)|[(e & H1 & ->)|[H1 ->]]].
  - apply GetLoadBalancerList_calls in H1. injection H2 as <- <-.
    split; [tauto | discriminate].
  - apply GetLoadBalancerList_calls in H1. split; [tauto | discriminate].
  - apply GetLoadBalancerList_calls in H1. tauto.
Qed.

Lemma GetLoadBalancerNodesAsIPs_calls id (s s' : World) r :
  REST.GetLoadBalancerNodesAsIPs json rest id s = (r, s') ->
  snd s' = snd s ++ [GET (REST.nodesPath id)] /\ r <> Panic.
Proof.
  unfold REST.GetLoadBalancerNodesAsIPs. intros H.
  apply bind_inv in H. destruct H as [(l & s1 & H1 & H2)|[(e & H1 & ->)|[H1 ->]]].
  - apply GetLoadBalancerNodes_calls in H1. injection H2 as <- <-.
    split; [tauto | discriminate].
  - apply GetLoadBalancerNodes_calls in H1. split; [tauto | discriminate].
  - apply GetLoadBalancerNodes_calls in H1. tauto.
Qed.

Lemma lookupHosts_pure {S : Type} instances hosts ips (s s' : S) r :
  lookupHosts instances hosts ips s = (r, s') -> s' = s /\ r <> Panic.
Proof.
  revert ips. induction hosts as [|name hosts IH]; intros ips; cbn.
  - intros H. injection H as <- <-. split; [reflexivity | discriminate].
  - destruct (find _ instances).
    + apply IH.
    + intros H. injection H as <- <-. split; [reflexivity | discriminate].
Qed.

Lemma hostsNamesToIPs_calls hosts (s s' : World) r :
  hostsNamesToIPs (concerto json client) hosts s = (r, s') ->
  snd s' = snd s ++ [GET "/kaas/ships"] /\ r <> Panic.
Proof.
  unfold hostsNamesToIPs. cbn [service concerto GetInstanceList REST.service].
  destruct (concertoAPIServiceREST.GetInstanceList json rest s)
    as [[instances|e|] s1] eqn:H1;
    apply GetInstanceList_calls in H1; destruct H1 as [H1 H1'].
  - intros H. apply lookupHosts_pure in H. destruct H as [-> H]. tauto.
  - intros H. injection H as <- <-. split; [assumption | discriminate].
  - congruence.
Qed.

(** The calls of one registration and of one deregistration. *)
Lemma register_calls id ip (s s' : World) r :
  REST.registerInstanceWithLoadBalancer json rest id ip s = (r, s') ->
  r <> Panic /\
  (snd s' = snd s ++ [GET "/kaas/ships"]
   \/ snd s' = snd s ++
        [GET "/kaas/ships";
         POST (REST.nodesPath id)
              (REST.node_toJson json {| node_ID := EmptyString; node_IP := ip |})]).
Proof.
  destruct s as [w calls]. destruct s' as [w' calls'].
  unfold REST.registerInstanceWithLoadBalancer, REST.GetInstanceByIP, REST.GetInstanceList,
    REST.call, bind, ret, fail.
  cbn [Get Post recording snd].
  destruct (Get client "/kaas/ships" w) as [[[data status] err] w1].
  destruct err as [e|].
  { intros H. injection H as <- _ <-. split; [discriminate | now left]. }
  destruct (status =? 404)%Z.
  { cbn [find]. intros H. injection H as <- _ <-.
    split; [discriminate | now left]. }
  destruct (Unmarshal_ships json data) as [ships|e].
  2:{ intros H. injection H as <- _ <-. split; [discriminate | now left]. }
  destruct (find _ _) as [instance|] eqn:Hfind.
  2:{ intros H. injection H as <- _ <-. split; [discriminate | now left]. }
  apply find_some_eqb in Hfind. destruct Hfind as [_ Hip].
  unfold REST.toNode. rewrite Hip.
  destruct (Post client _ _ w1) as [[[data' status'] err'] w2].
  intros H.
  destruct err'; [|destruct (negb _)]; injection H as <- _ <-;
    (split; [discriminate | right; now rewrite <- app_assoc]).
Qed.

Lemma deregister_calls id ip (s s' : World) r :
  REST.deregisterInstanceFromLoadBalancer json rest id ip s = (r, s') ->
  r <> Panic /\
  (snd s' = snd s ++ [GET (REST.nodesPath id)]
   \/ exists nodeId,
        snd s' = snd s ++ [GET (REST.nodesPath id); DELETE (REST.nodePath id nodeId)]).
Proof.
  destruct s as [w calls]. destruct s' as [w' calls'].
  unfold REST.deregisterInstanceFromLoadBalancer, REST.GetNodeByIP, REST.GetLoadBalancerNodes,
    REST.call, bind, ret, fail.
  cbn [Get Delete recording snd].
  destruct (Get client (REST.nodesPath id) w) as [[[data status] err] w1].
  destruct err as [e|].
  { intros H. injection H as <- _ <-. split; [discriminate | now left]. }
  destruct (status =? 404)%Z.
  { intros H. injection H as <- _ <-. split; [discriminate | now left]. }
  destruct (Unmarshal_nodes json data) as [nodes|e].
  2:{ intros H. injection H as <- _ <-. split; [discriminate | now left]. }
  destruct (find _ _) as [node|] eqn:Hfind.
  2:{ intros H. injection H as <- _ <-. split; [discriminate | now left]. }
  destruct (Delete client _ w1) as [[[data' status'] err'] w2].
  intros H.
  destruct err'; [|destruct (_ || _)%bool]; injection H as <- _ <-;
    (split; [discriminate
            | right; exists (node_ID node); now rewrite <- app_assoc]).
Qed.

(** What one operation adds to the received calls: a deregistration makes
    no POST, a registration no DELETE. *)
Lemma perform_calls id op (s s' : World) r :
  perform json rest id op s = (r, s') ->
  r <> Panic /\
  exists new,
    snd s' = snd s ++ new /\
    match op with
    | Deregister _ => Forall (fun k => isPOST k = false) new
    | Register _ => Forall (fun k => isDELETE k = false) new
    end.
Proof.
  destruct op as [ip|ip]; cbn [perform]; intros H.
  - apply deregister_calls in H. destruct H as [Hr [H|[nodeId H]]];
      (split; [assumption | eexists; split; [eassumption|]]);
      repeat constructor.
  - apply register_calls in H. destruct H as [Hr [H|H]];
      (split; [assumption | eexists; split; [eassumption|]]);
      repeat constructor.
Qed.

(** The loops of the REST service: either every address was processed, or
    the addresses before the first failing one were, and the loop returned
    the error of that one from the state it left. *)
Lemma Deregister_loop id ips (s s' : World) r :
  REST.DeregisterInstancesFromLoadBalancer json rest id ips s = (r, s') ->
  (r = Ok tt /\ issued json rest id (map Deregister ips) s s')
  \/ (exists done ip todo e s1,
        ips = done ++ ip :: todo /\
        issued json rest id (map Deregister done) s s1 /\
        perform json rest id (Deregister ip) s1 = (Err e, s') /\
        r = Err e).
Proof.
  revert s. induction ips as [|ip ips IH]; intros s H.
  - cbn in H. injection H as <- <-. left. split; [reflexivity | constructor].
  - cbn [REST.DeregisterInstancesFromLoadBalancer] in H.
    apply bind_inv in H.
    destruct H as [([] & s1 & H1 & H2)|[(e & H1 & ->)|[H1 ->]]].
    + apply IH in H2.
      destruct H2 as [[-> H2]|(done & ip' & todo & e & s2 & -> & H2 & H3 & ->)].
      * left. split; [reflexivity|]. cbn [map].
        econstructor; [exact H1 | exact H2].
      * right. exists (ip :: done), ip', todo, e, s2.
        repeat split; try assumption. cbn [map].
        econstructor; [exact H1 | exact H2].
    + right. exists [], ip, ips, e, s. repeat split; try assumption.
      constructor.
    + apply deregister_calls in H1. tauto.
Qed.

Lemma Register_loop id ips (s s' : World) r :
  REST.RegisterInstancesWithLoadBalancer json rest id ips s = (r, s') ->
  (r = Ok tt /\ issued json rest id (map Register ips) s s')
  \/ (exists done ip todo e s1,
        ips = done ++ ip :: todo /\
        issued json rest id (map Register done) s s1 /\
        perform json rest id (Register ip) s1 = (Err e, s') /\
        r = Err e).
Proof.
  revert s. induction ips as [|ip ips IH]; intros s H.
  - cbn in H. injection H as <- <-. left. split; [reflexivity | constructor].
  - cbn [REST.RegisterInstancesWithLoadBalancer] in H.
    apply bind_inv in H.
    destruct H as [([] & s1 & H1 & H2)|[(e & H1 & ->)|[H1 ->]]].
    + apply IH in H2.
      destruct H2 as [[-> H2]|(done & ip' & todo & e & s2 & -> & H2 & H3 & ->)].
      * left. split; [reflexivity|]. cbn [map].
        econstructor; [exact H1 | exact H2].
      * right. exists (ip :: done), ip', todo, e, s2.
        repeat split; try assumption. cbn [map].
        econstructor; [exact H1 | exact H2].
    + right. exists [], ip, ips, e, s. repeat split; try assumption.
      constructor.
    + apply register_calls in H1. tauto.
Qed.

Lemma issued_app id ops1 ops2 (s s1 s' : World) :
  issued json rest id ops1 s s1 -> issued json rest id ops2 s1 s' ->
  issued json rest id (ops1 ++ ops2) s s'.
Proof.
  induction 1 as [|op ops w w' w'' H1 H2 IH]; intros H3; cbn [app].
  - assumption.
  - econstructor; [exact H1 | now apply IH].
Qed.

(** The calls of a sequence of deregistrations hold no POST; those of a
    sequence of registrations hold no DELETE. *)
Lemma issued_Deregister_calls id ips (s s' : World) :
  issued json rest id (map Deregister ips) s s' ->
  exists new, snd s' = snd s ++ new /\ Forall (fun k => isPOST k = false) new.
Proof.
  revert s. induction ips as [|ip ips IH]; intros s H; inversion H; subst.
  - exists []. split; [now rewrite app_nil_r | constructor].
  - match goal with H1 : perform _ _ _ _ _ = _ |- _ =>
      apply perform_calls in H1; destruct H1 as [_ (new1 & E1 & F1)] end.
    match goal with H2 : issued _ _ _ _ _ _ |- _ =>
      apply IH in H2; destruct H2 as (new2 & E2 & F2) end.
    exists (new1 ++ new2). split.
    + now rewrite E2, E1, app_assoc.
    + apply Forall_app. now split.
Qed.

Lemma issued_Register_calls id ips (s s' : World) :
  issued json rest id (map Register ips) s s' ->
  exists new, snd s' = snd s ++ new /\ Forall (fun k => isDELETE k = false) new.
Proof.
  revert s. induction ips as [|ip ips IH]; intros s H; inversion H; subst.
  - exists []. split; [now rewrite app_nil_r | constructor].
  - match goal with H1 : perform _ _ _ _ _ = _ |- _ =>
      apply perform_calls in H1; destruct H1 as [_ (new1 & E1 & F1)] end.
    match goal with H2 : issued _ _ _ _ _ _ |- _ =>
      apply IH in H2; destruct H2 as (new2 & E2 & F2) end.
    exists (new1 ++ new2). split.
    + now rewrite E2, E1, app_assoc.
    + apply Forall_app. now split.
Qed.

(** Once its three lookups have succeeded, Update is the deregistration
    loop followed by the registration loop. *)
Lemma Update_apply name region hosts lb M D (s s1 s2 s3 : World) :
  REST.GetLoadBalancerByName json rest name s = (Ok (Some lb), s1) ->
  REST.GetLoadBalancerNodesAsIPs json rest (lb_Id lb) s1 = (Ok M, s2) ->
  hostsNamesToIPs (concerto json client) hosts s2 = (Ok D, s3) ->
  UpdateTCPLoadBalancer (concerto json client) name region hosts s
  = (REST.DeregisterInstancesFromLoadBalancer json rest (lb_Id lb)
       (subtractStringArrays M D) ;;;
     REST.RegisterInstancesWithLoadBalancer json rest (lb_Id lb)
       (subtractStringArrays D M)) s3.
Proof.
  intros H1 H2 H3. unfold UpdateTCPLoadBalancer.
  cbn [service concerto GetLoadBalancerByName GetLoadBalancerNodesAsIPs
       DeregisterInstancesFromLoadBalancer RegisterInstancesWithLoadBalancer
       REST.service].
  rewrite (bind_Ok _ _ _ H1). rewrite (bind_Ok _ _ _ H2).
  rewrite (bind_Ok _ _ _ H3). reflexivity.
Qed.

(** Every run of Update either stops in its lookups, having made GET calls
    only (and returns no success), or passes them. *)
Lemma Update_lookups name region hosts (s s' : World) r :
  UpdateTCPLoadBalancer (concerto json client) name region hosts s = (r, s') ->
  (r <> Ok tt /\
   exists new, snd s' = snd s ++ new /\ Forall (fun k => isGET k = true) new)
  \/ (exists lb M D s1 s2 s3,
        REST.GetLoadBalancerByName json rest name s = (Ok (Some lb), s1) /\
        REST.GetLoadBalancerNodesAsIPs json rest (lb_Id lb) s1 = (Ok M, s2) /\
        hostsNamesToIPs (concerto json client) hosts s2 = (Ok D, s3) /\
        snd s3 = snd s ++ [GET "/kaas/load_balancers";
                           GET (REST.nodesPath (lb_Id lb));
                           GET "/kaas/ships"]).
Proof.
  unfold UpdateTCPLoadBalancer.
  cbn [service concerto GetLoadBalancerByName GetLoadBalancerNodesAsIPs
       DeregisterInstancesFromLoadBalancer RegisterInstancesWithLoadBalancer
       REST.service].
  intros H. apply bind_inv in H.
  destruct H as [(lb & s1 & H1 & H)|[(e & H1 & ->)|[H1 ->]]];
    pose proof (GetLoadBalancerByName_calls _ _ H1) as [C1 _].
  2,3: left; split; [discriminate|]; eexists; split; [exact C1|];
       repeat constructor.
  destruct lb as [lb|].
  2:{ injection H as <- <-. left. split; [discriminate|].
      eexists; split; [exact C1|]. repeat constructor. }
  apply bind_inv in H.
  destruct H as [(M & s2 & H2 & H)|[(e & H2 & ->)|[H2 ->]]];
    pose proof (GetLoadBalancerNodesAsIPs_calls _ _ H2) as [C2 _].
  2,3: left; split; [discriminate|]; eexists; split;
       [rewrite C2, C1, <- app_assoc; reflexivity|]; repeat constructor.
  apply bind_inv in H.
  destruct H as [(D & s3 & H3 & H)|[(e & H3 & ->)|[H3 ->]]];
    pose proof (hostsNamesToIPs_calls _ _ H3) as [C3 _].
  2,3: left; split; [discriminate|]; eexists; split;
       [rewrite C3, C2, C1, <- !app_assoc; reflexivity|]; repeat constructor.
  right. exists lb, M, D, s1, s2, s3. repeat split; try assumption.
  rewrite C3, C2, C1, <- !app_assoc. reflexivity.
Qed.

End Calls.

(** ** Update of a load balancer that does not exist *)

Lemma Update_absent {S : Type} (c : ConcertoCloud S) name region hosts s s' :
  GetLoadBalancerByName (service c) name s = (Ok None, s') ->
  UpdateTCPLoadBalancer c name region hosts s = (Panic, s').
Proof.
  intros H. unfold UpdateTCPLoadBalancer. now rewrite (bind_Ok _ _ _ H).
Qed.

(** C1 (the code departs from it): the remote system holds the load balancer
    myLB only; the lookup of newLB returns no load balancer and no error, and
    Update then dereferences the nil load balancer: the call panics after its
    one GET, it does not return an error. *)
Theorem Update_of_absent_load_balancer_panics :
  REST.GetLoadBalancerByName payloadJSON
    (recording (Remote.server payloadWire)) "newLB" (sampleState, [])
  = (Ok None, (sampleState, [GET "/kaas/load_balancers"]))
  /\
  UpdateTCPLoadBalancer sampleCloud "newLB" "region" ["host-b"]
    (sampleState, [])
  = (Panic, (sampleState, [GET "/kaas/load_balancers"])).
Proof. split; reflexivity. Qed.

(** ** The set difference applied by Update *)

Lemma subtractStringArrays_In a b x :
  In x (subtractStringArrays a b) <-> In x a /\ ~ In x b.
Proof.
  unfold subtractStringArrays. rewrite filter_In, negb_true_iff.
  split; intros [Ha Hb]; split; try assumption.
  - intros Hin. assert (existsb (String.eqb x) b = true) as E.
    { apply existsb_exists. exists x. split; [assumption|].
      apply String.eqb_refl. }
    congruence.
  - destruct (existsb (String.eqb x) b) eqn:E; [|reflexivity].
    apply existsb_exists in E. destruct E as (y & Hy & E).
    apply String.eqb_eq in E. subst y. contradiction.
Qed.

Lemma In_Deregister_app removed added ip :
  In (Deregister ip) (map Deregister removed ++ map Register added)
  <-> In ip removed.
Proof.
  rewrite in_app_iff, !in_map_iff. split.
  - intros [(x & E & H)|(x & E & H)]; [|discriminate E].
    injection E as ->. assumption.
  - intros H. left. now exists ip.
Qed.

Lemma In_Register_app removed added ip :
  In (Register ip) (map Deregister removed ++ map Register added)
  <-> In ip added.
Proof.
  rewrite in_app_iff, !in_map_iff. split.
  - intros [(x & E & H)|(x & E & H)]; [discriminate E|].
    injection E as ->. assumption.
  - intros H. right. now exists ip.
Qed.

(** *** The run as the REST endpoint sees it *)

Lemma find_split {A : Type} (p : A -> bool) (l : list A) x :
  find p l = Some x ->
  exists pre post,
    l = pre ++ x :: post /\ p x = true /\ forall y, In y pre -> p y = false.
Proof.
  induction l as [|a l IH]; cbn; [discriminate|].
  destruct (p a) eqn:E.
  - intros H. injection H as ->. exists [], l.
    repeat split; [assumption | intros y []].
  - intros H. destruct (IH H) as (pre & post & -> & Hx & Hpre).
    exists (a :: pre), post. repeat split; [assumption|].
    intros y [<-|Hy]; [assumption | now apply Hpre].
Qed.

Lemma find_map_split {A B : Type} (f : A -> B) (p : B -> bool)
      (l : list A) y :
  find p (map f l) = Some y ->
  exists pre x post,
    l = pre ++ x :: post /\ y = f x /\ p (f x) = true
    /\ forall z, In z pre -> p (f z) = false.
Proof.
  induction l as [|a l IH]; cbn; [discriminate|].
  destruct (p (f a)) eqn:E.
  - intros H. injection H as <-. exists [], a, l.
    repeat split; [assumption | intros z []].
  - intros H. destruct (IH H) as (pre & x & post & -> & -> & Hx & Hpre).
    exists (a :: pre), x, post. repeat split; [assumption|].
    intros z [<-|Hz]; [assumption | now apply Hpre].
Qed.

(** The set difference keeps every occurrence of an element of the first
    list that is not in the second, and nothing else. *)
Lemma count_occ_subtractStringArrays a b x :
  count_occ string_dec (subtractStringArrays a b) x
  = if in_dec string_dec x b then 0%nat else count_occ string_dec a x.
Proof.
  unfold subtractStringArrays. induction a as [|y a IH]; cbn [filter count_occ].
  - now destruct (in_dec string_dec x b).
  - destruct (existsb (String.eqb y) b) eqn:E; cbn [negb count_occ].
    + rewrite IH. destruct (in_dec string_dec x b) as [Hin|Hn]; [reflexivity|].
      destruct (string_dec y x) as [->|]; [|reflexivity].
      exfalso. apply Hn. apply existsb_exists in E.
      destruct E as (z & Hz & E). apply String.eqb_eq in E. now subst.
    + rewrite IH. destruct (string_dec y x) as [->|Hne]; [|reflexivity].
      destruct (in_dec string_dec x b) as [Hin|Hn]; [|reflexivity].
      exfalso.
      assert (existsb (String.eqb x) b = true) as E'.
      { apply existsb_exists. exists x. split; [assumption|].
        apply String.eqb_refl. }
      congruence.
Qed.

Lemma lookupHosts_Ok {S : Type} instances hosts ips (s s' : S) D :
  lookupHosts instances hosts ips s = (Ok D, s') ->
  exists D',
    D = ips ++ D'
    /\ Forall2 (fun host ip =>
                  exists i,
                    find (fun x => ci_Name x =? host) instances = Some i
                    /\ ci_PublicIP i = ip) hosts D'.
Proof.
  revert ips. induction hosts as [|name hosts IH]; intros ips; cbn.
  - intros H. injection H as <- _. exists []. split;
      [now rewrite app_nil_r | constructor].
  - destruct (find _ instances) as [i|] eqn:Hfind; [|discriminate].
    intros H. apply IH in H. destruct H as (D' & -> & HD').
    exists (ci_PublicIP i :: D'). split.
    + now rewrite <- app_assoc.
    + constructor; [|assumption]. now exists i.
Qed.

Section Transcripts.

Context {bytes W : Type}.
Variable json : JSON bytes.
Variable client : restService bytes W.

Local Abbreviation rest := (recording client).
Local Abbreviation World := (W * list (Call bytes))%type.

Lemma GetLoadBalancerByName_listed name (s s1 : World) lb :
  REST.GetLoadBalancerByName json rest name s = (Ok (Some lb), s1) ->
  balancerListed json client name s lb s1.
Proof.
  destruct s as [w calls].
  unfold REST.GetLoadBalancerByName, REST.GetLoadBalancerList, REST.call,
    bind, ret, fail.
  cbn [Get recording].
  destruct (Get client "/kaas/load_balancers" w)
    as [[[data status] err] w1] eqn:G.
  destruct err as [e|]; [discriminate|].
  destruct (status >=? 400)%Z eqn:St; [discriminate|].
  destruct (Unmarshal_lbs json data) as [lbs|e] eqn:U; [|discriminate].
  intros H. injection H as Hf <-.
  apply find_split in Hf. destruct Hf as (pre & post & -> & Hn & Hpre).
  econstructor; try eassumption.
  - rewrite Z.geb_leb in St. now apply Z.leb_gt in St.
  - reflexivity.
  - now apply String.eqb_eq.
  - intros b Hb. apply String.eqb_neq. now apply Hpre.
Qed.

Lemma GetLoadBalancerNodesAsIPs_listed id (s s1 : World) M :
  REST.GetLoadBalancerNodesAsIPs json rest id s = (Ok M, s1) ->
  membersListed json client id s M s1.
Proof.
  destruct s as [w calls].
  unfold REST.GetLoadBalancerNodesAsIPs, REST.GetLoadBalancerNodes,
    REST.nodesPath, REST.call, bind, ret, fail.
  cbn [Get recording].
  destruct (Get client _ w) as [[[data status] err] w1] eqn:G.
  destruct err as [e|]; [discriminate|].
  destruct (status =? 404)%Z eqn:St; [discriminate|].
  destruct (Unmarshal_nodes json data) as [nodes|e] eqn:U; [|discriminate].
  intros H. injection H as <- <-.
  econstructor; try eassumption.
  now apply Z.eqb_neq.
Qed.

Lemma firstNamed_of_find ships host i :
  find (fun x => ci_Name x =? host) (map REST.toInstance ships) = Some i ->
  firstNamed ships host (ci_PublicIP i).
Proof.
  intros H. apply find_map_split in H.
  destruct H as (pre & ship & post & -> & -> & Hn & Hpre).
  exists pre, ship, post. repeat split.
  - now apply String.eqb_eq in Hn.
  - intros x Hx. apply Hpre in Hx. now apply String.eqb_neq in Hx.
Qed.

Lemma hostsNamesToIPs_resolved hosts (s s1 : World) D :
  hostsNamesToIPs (concerto json client) hosts s = (Ok D, s1) ->
  hostsResolved json client hosts s D s1.
Proof.
  destruct s as [w calls].
  unfold hostsNamesToIPs.
  cbn [service concerto GetInstanceList REST.service].
  unfold REST.GetInstanceList, REST.call, bind, ret, fail.
  cbn [Get recording].
  destruct (Get client "/kaas/ships" w) as [[[data status] err] w1] eqn:G.
  destruct err as [e|]; [discriminate|].
  destruct (status =? 404)%Z eqn:St.
  - intros H. pose proof (lookupHosts_pure _ _ _ _ H) as [-> _].
    apply lookupHosts_Ok in H. destruct H as (D' & -> & HD').
    cbn [app]. apply hostsResolved_intro with (data := data) (status := status)
                                              (ships := []).
    + assumption.
    + left. split; [now apply Z.eqb_eq | reflexivity].
    + eapply Forall2_impl; [|exact HD'].
      intros host ip (i & Hi & _). discriminate Hi.
  - destruct (Unmarshal_ships json data) as [ships|e] eqn:U; [|discriminate].
    intros H. pose proof (lookupHosts_pure _ _ _ _ H) as [-> _].
    apply lookupHosts_Ok in H. destruct H as (D' & -> & HD').
    cbn [app]. apply hostsResolved_intro with (data := data) (status := status)
                                              (ships := ships).
    + assumption.
    + right. split; [now apply Z.eqb_neq | assumption].
    + eapply Forall2_impl; [|exact HD'].
      intros host ip (i & Hi & <-). now apply firstNamed_of_find.
Qed.

Lemma deregister_transcript id ip ips (s s1 s' : World) :
  REST.deregisterInstanceFromLoadBalancer json rest id ip s = (Ok tt, s1) ->
  deregistrations json client id ips s1 s' ->
  deregistrations json client id (ip :: ips) s s'.
Proof.
  destruct s as [w calls].
  unfold REST.deregisterInstanceFromLoadBalancer, REST.GetNodeByIP,
    REST.GetLoadBalancerNodes, REST.nodesPath, REST.nodePath, REST.call,
    bind, ret, fail.
  cbn [Get Delete recording].
  destruct (Get client _ w) as [[[data status] err] w1] eqn:G.
  destruct err as [e|]; [discriminate|].
  destruct (status =? 404)%Z eqn:St; [discriminate|].
  destruct (Unmarshal_nodes json data) as [nodes|e] eqn:U; [|discriminate].
  destruct (find _ nodes) as [node|] eqn:Hfind; [|discriminate].
  destruct (Delete client _ w1) as [[[data' status'] err'] w2] eqn:Del.
  destruct err' as [e|]; [discriminate|].
  destruct ((status' =? 200) || (status' =? 204))%Z eqn:St'; [|discriminate].
  intros H Hrest. injection H as <-. rewrite <- app_assoc in Hrest.
  apply find_split in Hfind. destruct Hfind as (pre & post & -> & Hn & Hpre).
  eapply deregistrations_cons with (pre := pre) (node := node) (post := post);
    try eassumption.
  - now apply Z.eqb_neq.
  - reflexivity.
  - now apply String.eqb_eq.
  - intros n Hin. apply String.eqb_neq. now apply Hpre.
  - apply orb_true_iff in St'. destruct St' as [E|E]; apply Z.eqb_eq in E;
      [now left | now right].
Qed.

Lemma register_transcript id ip ips (s s1 s' : World) :
  REST.registerInstanceWithLoadBalancer json rest id ip s = (Ok tt, s1) ->
  registrations json client id ips s1 s' ->
  registrations json client id (ip :: ips) s s'.
Proof.
  destruct s as [w calls].
  unfold REST.registerInstanceWithLoadBalancer, REST.GetInstanceByIP,
    REST.GetInstanceList, REST.nodesPath, REST.node_toJson, REST.toNode,
    REST.call, bind, ret, fail.
  cbn [Get Post recording].
  destruct (Get client "/kaas/ships" w) as [[[data status] err] w1] eqn:G.
  destruct err as [e|]; [discriminate|].
  destruct (status =? 404)%Z eqn:St; [discriminate|].
  destruct (Unmarshal_ships json data) as [ships|e] eqn:U; [|discriminate].
  destruct (find _ _) as [instance|] eqn:Hfind; [|discriminate].
  apply find_map_split in Hfind.
  destruct Hfind as (pre & ship & post & -> & -> & Hip & _).
  apply String.eqb_eq in Hip. cbn [ci_PublicIP REST.toInstance] in *.
  rewrite Hip.
  destruct (Post client _ _ w1) as [[[data' status'] err'] w2] eqn:P.
  destruct err' as [e|]; [discriminate|].
  destruct (negb (status' =? 201)%Z) eqn:St'; [discriminate|].
  apply negb_false_iff, Z.eqb_eq in St'. subst status'.
  intros H Hrest. injection H as <-. rewrite <- app_assoc in Hrest.
  eapply registrations_cons with (ship := ship); try eassumption.
  - now apply Z.eqb_neq.
  - apply in_elt.
  - reflexivity.
Qed.

Lemma Deregister_loop_transcript id ips (s s' : World) :
  REST.DeregisterInstancesFromLoadBalancer json rest id ips s = (Ok tt, s') ->
  deregistrations json client id ips s s'.
Proof.
  revert s. induction ips as [|ip ips IH]; intros s H.
  - cbn in H. injection H as <-. constructor.
  - cbn [REST.DeregisterInstancesFromLoadBalancer] in H.
    apply bind_inv in H.
    destruct H as [([] & s1 & H1 & H2)|[(e & _ & E)|[_ E]]];
      try discriminate E.
    eapply deregister_transcript; [exact H1 | now apply IH].
Qed.

Lemma Register_loop_transcript id ips (s s' : World) :
  REST.RegisterInstancesWithLoadBalancer json rest id ips s = (Ok tt, s') ->
  registrations json client id ips s s'.
Proof.
  revert s. induction ips as [|ip ips IH]; intros s H.
  - cbn in H. injection H as <-. constructor.
  - cbn [REST.RegisterInstancesWithLoadBalancer] in H.
    apply bind_inv in H.
    destruct H as [([] & s1 & H1 & H2)|[(e & _ & E)|[_ E]]];
      try discriminate E.
    eapply register_transcript; [exact H1 | now apply IH].
Qed.

End Transcripts.

(** C2: a successful Update has looked up the load balancer, listed its
    membership M and resolved the desired hosts to D, each with one GET
    whose answer the endpoint gave; from there to its end the endpoint has
    received, for the addresses [removed] in turn, the listing of the
    members and the DELETE of the first node with the address, and then,
    for the addresses [added] in turn, the listing of the instances and the
    POST of the address to the nodes path of the load balancer, and no
    other call.  [removed] holds every occurrence in M of an address that
    is not in D and nothing else, [added] every occurrence in D of an
    address that is not in M and nothing else: the deregistered addresses
    are exactly those of M that are not in D, the registered addresses
    exactly those of D that are not in M, and an address in both M and D is
    the subject of no operation. *)
Theorem Update_applies_set_difference :
  forall (bytes W : Type) (json : JSON bytes) (client : restService bytes W)
         (name region : string) (hosts : list string)
         (s s' : W * list (Call bytes)),
    UpdateTCPLoadBalancer (concerto json client) name region hosts s
    = (Ok tt, s') ->
    exists lb M D s1 s2 s3 s4 removed added,
      REST.GetLoadBalancerByName json (recording client) name s
      = (Ok (Some lb), s1)
      /\ REST.GetLoadBalancerNodesAsIPs json (recording client) (lb_Id lb) s1
         = (Ok M, s2)
      /\ hostsNamesToIPs (concerto json client) hosts s2 = (Ok D, s3)
      /\ balancerListed json client name s lb s1
      /\ membersListed json client (lb_Id lb) s1 M s2
      /\ hostsResolved json client hosts s2 D s3
      /\ deregistrations json client (lb_Id lb) removed s3 s4
      /\ registrations json client (lb_Id lb) added s4 s'
      /\ (forall ip,
            count_occ string_dec removed ip
            = if in_dec string_dec ip D then 0%nat
              else count_occ string_dec M ip)
      /\ (forall ip,
            count_occ string_dec added ip
            = if in_dec string_dec ip M then 0%nat
              else count_occ string_dec D ip)
      /\ (forall ip, In ip removed <-> In ip M /\ ~ In ip D)
      /\ (forall ip, In ip added <-> In ip D /\ ~ In ip M)
      /\ (forall ip, In ip M -> In ip D -> ~ In ip removed /\ ~ In ip added).
Proof.
  intros bytes W json client name region hosts s s' H.
  destruct (Update_lookups _ _ _ _ _ _ H)
    as [[Hr _]|(lb & M & D & s1 & s2 & s3 & H1 & H2 & H3 & _)];
    [congruence|].
  rewrite (@Update_apply _ _ json client name region hosts lb M D
             s s1 s2 s3 H1 H2 H3) in H.
  apply bind_inv in H.
  destruct H as [([] & s4 & H4 & H5)|[(e & _ & E)|[_ E]]]; try discriminate E.
  exists lb, M, D, s1, s2, s3, s4,
    (subtractStringArrays M D), (subtractStringArrays D M).
  split; [exact H1|]. split; [exact H2|]. split; [exact H3|].
  split; [now apply GetLoadBalancerByName_listed|].
  split; [now apply GetLoadBalancerNodesAsIPs_listed|].
  split; [now apply hostsNamesToIPs_resolved|].
  split; [now apply Deregister_loop_transcript|].
  split; [now apply Register_loop_transcript|].
  split; [intros ip; apply count_occ_subtractStringArrays|].
  split; [intros ip; apply count_occ_subtractStringArrays|].
  split; [intros ip; apply subtractStringArrays_In|].
  split; [intros ip; apply subtractStringArrays_In|].
  intros ip HM HD. rewrite !subtractStringArrays_In. tauto.
Qed.

Lemma Update_applies_set_difference_witness :
  exists lb M D s1 s2 s3 s4 removed added,
    REST.GetLoadBalancerByName payloadJSON
      (recording (Remote.server payloadWire)) "myLB" (sampleState, [])
    = (Ok (Some lb), s1)
    /\ REST.GetLoadBalancerNodesAsIPs payloadJSON
         (recording (Remote.server payloadWire)) (lb_Id lb) s1
       = (Ok M, s2)
    /\ hostsNamesToIPs sampleCloud ["host-b"; "host-c"] s2 = (Ok D, s3)
    /\ balancerListed payloadJSON (Remote.server payloadWire) "myLB"
         (sampleState, []) lb s1
    /\ membersListed payloadJSON (Remote.server payloadWire) (lb_Id lb)
         s1 M s2
    /\ hostsResolved payloadJSON (Remote.server payloadWire)
         ["host-b"; "host-c"] s2 D s3
    /\ deregistrations payloadJSON (Remote.server payloadWire) (lb_Id lb)
         removed s3 s4
    /\ registrations payloadJSON (Remote.server payloadWire) (lb_Id lb)
         added s4
         (snd (UpdateTCPLoadBalancer sampleCloud "myLB" "region"
                 ["host-b"; "host-c"] (sampleState, [])))
    /\ (forall ip,
          count_occ string_dec removed ip
          = if in_dec string_dec ip D then 0%nat
            else count_occ string_dec M ip)
    /\ (forall ip,
          count_occ string_dec added ip
          = if in_dec string_dec ip M then 0%nat
            else count_occ string_dec D ip)
    /\ (forall ip, In ip removed <-> In ip M /\ ~ In ip D)
    /\ (forall ip, In ip added <-> In ip D /\ ~ In ip M)
    /\ (forall ip, In ip M -> In ip D -> ~ In ip removed /\ ~ In ip added).
Proof.
  apply (@Update_applies_set_difference _ _ payloadJSON
           (Remote.server payloadWire) "myLB" "region" ["host-b"; "host-c"]
           (sampleState, [])).
  reflexivity.
Defined.

(** ** Order of the operations and first failure *)

Lemma GET_not_POST {bytes : Type} (new : list (Call bytes)) :
  Forall (fun k => isGET k = true) new ->
  Forall (fun k => isPOST k = false) new.
Proof.
  apply Forall_impl. intros [p|p b|p]; cbn; congruence.
Qed.

Lemma deregistersFirst_removed removed :
  deregistersFirst (map Deregister removed).
Proof. exists removed, []. cbn. now rewrite app_nil_r. Qed.

Lemma issued_split_calls {bytes W : Type} (json : JSON bytes)
      (client : restService bytes W) id removed added
      (sa sb : W * list (Call bytes)) :
  issued json (recording client) id
    (map Deregister removed ++ map Register added) sa sb ->
  exists before after,
    snd sb = snd sa ++ before ++ after
    /\ Forall (fun k => isPOST k = false) before
    /\ Forall (fun k => isDELETE k = false) after.
Proof.
  revert sa. induction removed as [|ip removed IH];
    intros sa Hi; cbn [map app] in Hi.
  - apply issued_Register_calls in Hi. destruct Hi as (new & E & F).
    exists [], new. repeat split; [assumption | constructor | assumption].
  - inversion Hi as [|op ops w w' w'' Hp Hi']; subst.
    apply perform_calls in Hp. destruct Hp as [_ (new & E & F)].
    apply IH in Hi'. destruct Hi' as (before & after & E' & Fb & Fa).
    exists (new ++ before), after. repeat split.
    + rewrite E', E, <- !app_assoc. reflexivity.
    + apply Forall_app. now split.
    + assumption.
Qed.

(** C4: in every run of Update no DELETE is received after a POST: the new
    calls split into a part without POST followed by a part without DELETE.
    When the lookups have succeeded, the operations attempted are an initial
    part of the planned sequence (the deregistrations of M minus D, then the
    registrations of D minus M), deregistrations first; and either all of
    them were issued and nothing is left, or the last one attempted failed,
    those before it succeeded, and Update returned the error of that
    operation in the state that operation left: nothing was attempted after
    it. *)
Theorem Update_deregisters_first_and_stops_at_first_failure :
  forall (bytes W : Type) (json : JSON bytes) (client : restService bytes W)
         (name region : string) (hosts : list string)
         (s s' : W * list (Call bytes)) (r : result unit),
    UpdateTCPLoadBalancer (concerto json client) name region hosts s
    = (r, s') ->
    (exists before after,
        snd s' = snd s ++ before ++ after
        /\ Forall (fun k => isPOST k = false) before
        /\ Forall (fun k => isDELETE k = false) after)
    /\
    (forall lb M D s1 s2 s3,
        REST.GetLoadBalancerByName json (recording client) name s
        = (Ok (Some lb), s1) ->
        REST.GetLoadBalancerNodesAsIPs json (recording client) (lb_Id lb) s1
        = (Ok M, s2) ->
        hostsNamesToIPs (concerto json client) hosts s2 = (Ok D, s3) ->
        exists attempted todo,
          map Deregister (subtractStringArrays M D)
          ++ map Register (subtractStringArrays D M) = attempted ++ todo
          /\ deregistersFirst attempted
          /\ ((r = Ok tt /\ todo = []
               /\ issued json (recording client) (lb_Id lb) attempted s3 s')
              \/
              (exists done op e s4,
                  attempted = done ++ [op]
                  /\ issued json (recording client) (lb_Id lb) done s3 s4
                  /\ perform json (recording client) (lb_Id lb) op s4
                     = (Err e, s')
                  /\ r = Err e))).
Proof.
  intros bytes W json client name region hosts s s' r H.
  assert (forall lb M D s1 s2 s3,
        REST.GetLoadBalancerByName json (recording client) name s
        = (Ok (Some lb), s1) ->
        REST.GetLoadBalancerNodesAsIPs json (recording client) (lb_Id lb) s1
        = (Ok M, s2) ->
        hostsNamesToIPs (concerto json client) hosts s2 = (Ok D, s3) ->
        exists attempted todo,
          map Deregister (subtractStringArrays M D)
          ++ map Register (subtractStringArrays D M) = attempted ++ todo
          /\ deregistersFirst attempted
          /\ ((r = Ok tt /\ todo = []
               /\ issued json (recording client) (lb_Id lb) attempted s3 s')
              \/
              (exists done op e s4,
                  attempted = done ++ [op]
                  /\ issued json (recording client) (lb_Id lb) done s3 s4
                  /\ perform json (recording client) (lb_Id lb) op s4
                     = (Err e, s')
                  /\ r = Err e))) as Hops.
  { intros lb M D s1 s2 s3 H1 H2 H3.
    rewrite (@Update_apply _ _ json client name region hosts lb M D
               s s1 s2 s3 H1 H2 H3) in H.
    apply bind_inv in H.
    destruct H as [([] & s4 & H4 & H5)|[(e & H4 & ->)|[H4 ->]]];
      apply Deregister_loop in H4;
      destruct H4 as [[E4 H4]|(done & ip & rest & e' & s5 & E & H4 & H6 & E4)];
      try discriminate E4.
    - apply Register_loop in H5.
      destruct H5 as [[-> H5]|(done & ip & rest & e' & s5 & E & H5 & H6 & ->)].
      + eexists _, []. split; [now rewrite app_nil_r|]. split.
        * now eexists _, _.
        * left. repeat split. eapply issued_app; eassumption.
      + exists (map Deregister (subtractStringArrays M D)
                ++ map Register (done ++ [ip])), (map Register rest).
        split; [|split].
        * rewrite E, <- app_assoc. f_equal.
          rewrite <- map_app, <- app_assoc. reflexivity.
        * now eexists _, _.
        * right.
          exists (map Deregister (subtractStringArrays M D)
                  ++ map Register done), (Register ip), e', s5.
          repeat split; try assumption.
          -- rewrite map_app, app_assoc. reflexivity.
          -- eapply issued_app; eassumption.
    - injection E4 as <-.
      exists (map Deregister (done ++ [ip])),
        (map Deregister rest ++ map Register (subtractStringArrays D M)).
      split; [|split].
      + rewrite E, app_assoc, <- map_app, <- app_assoc. reflexivity.
      + apply deregistersFirst_removed.
      + right. exists (map Deregister done), (Deregister ip), e, s5.
        repeat split; try assumption. now rewrite map_app. }
  split; [|exact Hops].
  destruct (Update_lookups _ _ _ _ _ _ H)
    as [[_ (new & E & F)]|(lb & M & D & s1 & s2 & s3 & H1 & H2 & H3 & E3)].
  { exists new, []. rewrite app_nil_r.
    repeat split; [assumption | now apply GET_not_POST | constructor]. }
  destruct (Hops _ _ _ _ _ _ H1 H2 H3)
    as (attempted & todo & _ & (removed & added & ->) & Hrun).
  destruct Hrun as [(_ & _ & Hi)|(done & op & e & s4 & E & Hi & Hp & _)].
  - apply issued_split_calls in Hi.
    destruct Hi as (before & after & E & Fb & Fa).
    exists ([GET "/kaas/load_balancers"; GET (REST.nodesPath (lb_Id lb));
             GET "/kaas/ships"] ++ before), after.
    repeat split.
    + rewrite E, E3, <- !app_assoc. reflexivity.
    + apply Forall_app. split; [repeat constructor | assumption].
    + assumption.
  - apply perform_calls in Hp. destruct Hp as [_ (new & Ep & Fp)].
    destruct added as [|a added' _] using rev_ind.
    + cbn [map] in E. rewrite app_nil_r in E.
      assert (exists removed', done = map Deregister removed'
                               /\ exists ip, op = Deregister ip)
        as (removed' & -> & ip & ->).
      { destruct removed as [|x removed' _] using rev_ind.
        - destruct done; discriminate E.
        - rewrite map_app in E. cbn [map] in E.
          apply app_inj_tail in E. destruct E as [<- <-].
          exists removed'. split; [reflexivity | now exists x]. }
      apply issued_Deregister_calls in Hi. destruct Hi as (new1 & E1 & F1).
      exists ([GET "/kaas/load_balancers"; GET (REST.nodesPath (lb_Id lb));
               GET "/kaas/ships"] ++ new1 ++ new), [].
      repeat split.
      * rewrite Ep, E1, E3, app_nil_r, <- !app_assoc. reflexivity.
      * apply Forall_app. split; [repeat constructor|].
        apply Forall_app. now split.
      * constructor.
    + rewrite map_app in E. cbn [map] in E. rewrite app_assoc in E.
      apply app_inj_tail in E. destruct E as [<- <-].
      apply issued_split_calls in Hi.
      destruct Hi as (before & after & E & Fb & Fa).
      exists ([GET "/kaas/load_balancers"; GET (REST.nodesPath (lb_Id lb));
               GET "/kaas/ships"] ++ before), (after ++ new).
      repeat split.
      * rewrite Ep, E, E3, <- !app_assoc. reflexivity.
      * apply Forall_app. split; [repeat constructor | assumption].
      * apply Forall_app. now split.
Qed.

Lemma Update_deregisters_first_and_stops_at_first_failure_witness :
  UpdateTCPLoadBalancer (concerto payloadJSON refusingDeletes)
    "myLB" "region" ["host-b"; "host-c"] (sampleState, [])
  = (Err LoadBalancerDeregisterInstanceError,
     (sampleState,
      [GET "/kaas/load_balancers";
       GET "/kaas/load_balancers/0001/nodes";
       GET "/kaas/ships";
       GET "/kaas/load_balancers/0001/nodes";
       DELETE "/kaas/load_balancers/0001/nodes/n1"]))
  /\
  exists before after,
    [GET "/kaas/load_balancers";
     GET "/kaas/load_balancers/0001/nodes";
     GET "/kaas/ships";
     GET "/kaas/load_balancers/0001/nodes";
     DELETE "/kaas/load_balancers/0001/nodes/n1"]
    = [] ++ before ++ after
    /\ Forall (fun k : Call payload => isPOST k = false) before
    /\ Forall (fun k : Call payload => isDELETE k = false) after.
Proof.
  split; [reflexivity|].
  apply (proj1 (@Update_deregisters_first_and_stops_at_first_failure
                  _ _ payloadJSON refusingDeletes
                  "myLB" "region" ["host-b"; "host-c"] (sampleState, [])
                  (sampleState,
                   [GET "/kaas/load_balancers";
                    GET "/kaas/load_balancers/0001/nodes";
                    GET "/kaas/ships";
                    GET "/kaas/load_balancers/0001/nodes";
                    DELETE "/kaas/load_balancers/0001/nodes/n1"])
                  (Err LoadBalancerDeregisterInstanceError)
                  eq_refl)).
Defined.

(** ** Strings and lists *)

Lemma append_inj_l p a b : (p ++ a)%string = (p ++ b)%string -> a = b.
Proof.
  induction p as [|c p IH]; cbn; intros H; [assumption|].
  injection H as H. now apply IH.
Qed.

Lemma length_append a b :
  String.length (a ++ b) = (String.length a + String.length b)%nat.
Proof. induction a as [|c a IH]; cbn; [reflexivity | now rewrite IH]. Qed.

Lemma append_inj_r s a b : (a ++ s)%string = (b ++ s)%string -> a = b.
Proof.
  revert b. induction a as [|c a IH]; intros [|d b] H; cbn in H.
  - reflexivity.
  - apply (f_equal String.length) in H. cbn in H.
    rewrite length_append in H. lia.
  - apply (f_equal String.length) in H. cbn in H.
    rewrite length_append in H. lia.
  - injection H as -> H. f_equal. now apply IH.
Qed.

Lemma eqb_iff_eqb (a b c d : string) :
  (a = b <-> c = d) -> (a =? b) = (c =? d).
Proof.
  intros H. destruct (String.eqb_spec a b), (String.eqb_spec c d);
    tauto.
Qed.

Lemma nodesPath_eqb a b : (REST.nodesPath a =? REST.nodesPath b) = (a =? b).
Proof.
  apply eqb_iff_eqb. unfold REST.nodesPath. split; [|now intros ->].
  intros H. apply append_inj_l in H. now apply append_inj_r in H.
Qed.

Lemma loadBalancerPath_eqb a b :
  (REST.loadBalancerPath a =? REST.loadBalancerPath b) = (a =? b).
Proof.
  apply eqb_iff_eqb. unfold REST.loadBalancerPath. split; [|now intros ->].
  apply append_inj_l.
Qed.

Lemma nodePath_eqb id a b :
  (REST.nodePath id a =? REST.nodePath id b) = (a =? b).
Proof.
  apply eqb_iff_eqb. unfold REST.nodePath. split; [|now intros ->].
  intros H. do 3 apply append_inj_l in H. assumption.
Qed.

Lemma slashFree_append a b :
  Remote.slashFree (a ++ String "/" b) = false.
Proof.
  unfold Remote.slashFree. apply negb_false_iff.
  induction a as [|c a IH]; cbn.
  - reflexivity.
  - rewrite IH. apply orb_true_r.
Qed.

Lemma loadBalancerPath_nodePath x id nodeId :
  Remote.slashFree x = true ->
  (REST.loadBalancerPath x =? REST.nodePath id nodeId) = false.
Proof.
  intros Hx. apply String.eqb_neq. intros H.
  unfold REST.loadBalancerPath, REST.nodePath in H.
  apply append_inj_l in H. subst x.
  change ("/nodes/" ++ nodeId)%string
    with (String "/" ("nodes/" ++ nodeId)) in Hx.
  rewrite slashFree_append in Hx. discriminate.
Qed.

Lemma nodesPath_not_ships id : (REST.nodesPath id =? "/kaas/ships") = false.
Proof. reflexivity. Qed.

Lemma nodesPath_not_balancers id :
  (REST.nodesPath id =? "/kaas/load_balancers") = false.
Proof. reflexivity. Qed.

Lemma find_ext_eq {A : Type} (p q : A -> bool) (l : list A) :
  (forall x, p x = q x) -> find p l = find q l.
Proof.
  intros H. induction l as [|x l IH]; cbn; [reflexivity|].
  now rewrite H, IH.
Qed.

Lemma find_map_comm {A B : Type} (f : A -> B) (p : B -> bool) (l : list A) :
  find p (map f l) = option_map f (find (fun x => p (f x)) l).
Proof.
  induction l as [|x l IH]; cbn; [reflexivity|].
  destruct (p (f x)); [reflexivity | assumption].
Qed.

Lemma find_map_stable {A : Type} (f : A -> A) (p : A -> bool) (l : list A) :
  (forall x, p (f x) = p x) -> find p (map f l) = option_map f (find p l).
Proof.
  intros H. rewrite find_map_comm. f_equal. now apply find_ext_eq.
Qed.

Lemma existsb_find {A : Type} (p : A -> bool) (l : list A) :
  existsb p l = true -> exists x, find p l = Some x.
Proof.
  induction l as [|x l IH]; cbn; [discriminate|].
  destruct (p x); [now exists x | assumption].
Qed.

Lemma find_existsb {A : Type} (p : A -> bool) (l : list A) x :
  find p l = Some x -> existsb p l = true.
Proof.
  intros H. apply find_some in H. apply existsb_exists. now exists x.
Qed.

Lemma distinct_NoDup l : Remote.distinct l = true <-> NoDup l.
Proof.
  induction l as [|x l IH]; cbn.
  - split; [constructor | reflexivity].
  - rewrite andb_true_iff, negb_true_iff, IH. split.
    + intros [H1 H2]. constructor; [|assumption].
      intros Hin. assert (existsb (String.eqb x) l = true) as E.
      { apply existsb_exists. exists x. split; [assumption|].
        apply String.eqb_refl. }
      congruence.
    + intros H. inversion H as [|? ? Hx Hl]; subst. split; [|assumption].
      destruct (existsb (String.eqb x) l) eqn:E; [|reflexivity].
      apply existsb_exists in E. destruct E as (y & Hy & E).
      apply String.eqb_eq in E. subst y. contradiction.
Qed.

Lemma existsb_none {A : Type} (p q : A -> bool) (l : list A) :
  forallb q l = true -> (forall x, q x = true -> p x = false) ->
  existsb p l = false.
Proof.
  intros Hq H. induction l as [|x l IH]; cbn in *; [reflexivity|].
  apply andb_true_iff in Hq. destruct Hq as [Hx Hl].
  now rewrite (H _ Hx), IH.
Qed.

Lemma find_app_skip {A : Type} (p : A -> bool) (k l : list A) :
  (forall x, In x k -> p x = false) -> find p (k ++ l) = find p l.
Proof.
  intros H. induction k as [|x k IH]; cbn; [reflexivity|].
  rewrite (H x (or_introl eq_refl)). apply IH.
  intros y Hy. apply H. now right.
Qed.

Lemma filter_all {A : Type} (p : A -> bool) (l : list A) :
  (forall x, In x l -> p x = true) -> filter p l = l.
Proof.
  intros H. induction l as [|x l IH]; cbn; [reflexivity|].
  rewrite (H x (or_introl eq_refl)). f_equal. apply IH.
  intros y Hy. apply H. now right.
Qed.

Lemma filter_none {A : Type} (p : A -> bool) (l : list A) :
  (forall x, In x l -> p x = false) -> filter p l = [].
Proof.
  intros H. induction l as [|x l IH]; cbn; [reflexivity|].
  rewrite (H x (or_introl eq_refl)). apply IH.
  intros y Hy. apply H. now right.
Qed.

(** Removing by a key that occurs once removes the one element. *)
Lemma filter_out_unique {A : Type} (key : A -> string) (k l : list A) n :
  NoDup (map key (k ++ n :: l)) ->
  filter (fun x => negb (key x =? key n)) (k ++ n :: l) = k ++ l.
Proof.
  intros H. rewrite map_app in H. cbn [map] in H.
  apply NoDup_remove_2 in H. rewrite in_app_iff, !in_map_iff in H.
  rewrite filter_app. cbn [filter]. rewrite String.eqb_refl. cbn [negb].
  rewrite !filter_all; [reflexivity| |]; intros x Hx;
    apply negb_true_iff, String.eqb_neq; intros E; apply H;
    [right | left]; now exists x.
Qed.

Lemma forallb_map_fst {A B : Type} (p : A -> bool) (l : list (A * B)) :
  forallb (fun b => p (fst b)) l = forallb p (map fst l).
Proof.
  induction l as [|x l IH]; cbn; [reflexivity | now rewrite IH].
Qed.

Lemma existsb_In_string x l :
  existsb (String.eqb x) l = true <-> In x l.
Proof.
  rewrite existsb_exists. split.
  - intros (y & Hy & E). apply String.eqb_eq in E. now subst.
  - intros H. exists x. split; [assumption | apply String.eqb_refl].
Qed.

Lemma NoDup_map_same {A : Type} (key : A -> string) (l : list A) x y :
  NoDup (map key l) -> In x l -> In y l -> key x = key y -> x = y.
Proof.
  induction l as [|a l IH]; cbn; intros Hnd Hx Hy E; [contradiction|].
  inversion Hnd as [|? ? Ha Hl]; subst.
  destruct Hx as [<-|Hx], Hy as [<-|Hy].
  - reflexivity.
  - exfalso. apply Ha. rewrite E. now apply in_map.
  - exfalso. apply Ha. rewrite <- E. now apply in_map.
  - now apply IH.
Qed.

Lemma length_zeros n : String.length (Remote.zeros n) = n.
Proof. induction n as [|n IH]; cbn; [reflexivity | now rewrite IH]. Qed.

Lemma freshId_fresh used x : In x used -> (x =? Remote.freshId used) = false.
Proof.
  intros H. apply String.eqb_neq. intros E.
  apply (f_equal String.length) in E. unfold Remote.freshId in E.
  rewrite length_zeros in E.
  assert (String.length x <= list_max (map String.length used))%nat.
  { pose proof (proj1 (list_max_le (map String.length used)
                         (list_max (map String.length used)))
                      (Nat.le_refl _)) as F.
    rewrite Forall_forall in F. apply F. now apply in_map. }
  lia.
Qed.

Lemma existsb_all_false {A : Type} (p : A -> bool) (l : list A) :
  (forall x, In x l -> p x = false) -> existsb p l = false.
Proof.
  intros H. induction l as [|x l IH]; cbn; [reflexivity|].
  rewrite (H x (or_introl eq_refl)). apply IH.
  intros y Hy. apply H. now right.
Qed.

(** ** Runs against the remote system *)

Section RemoteRuns.

Context {bytes : Type}.
Variable json : JSON bytes.
Variable wire : Remote.Wire bytes.
Hypothesis agree : Remote.Agree json wire.

Local Abbreviation rest := (recording (Remote.server wire)).
Local Abbreviation cloud := (concerto json (Remote.server wire)).
Local Abbreviation withId id :=
  (fun b : ConcertoLoadBalancer * list ConcertoLoadBalancerNode =>
     lb_Id (fst b) =? id).

Lemma remote_GetInstanceList st calls :
  REST.GetInstanceList json rest (st, calls)
  = (Ok (map REST.toInstance (Remote.ships st)),
     (st, calls ++ [GET "/kaas/ships"])).
Proof.
  unfold REST.GetInstanceList, REST.call, bind.
  cbn [Get recording Remote.server Remote.handleGet String.eqb Ascii.eqb
       Bool.eqb].
  cbn [Z.eqb Pos.eqb]. now rewrite (Remote.ships_roundtrip agree).
Qed.

Lemma remote_GetLoadBalancerByName name st calls :
  REST.GetLoadBalancerByName json rest name (st, calls)
  = (Ok (Remote.balancerNamed st name),
     (st, calls ++ [GET "/kaas/load_balancers"])).
Proof.
  unfold REST.GetLoadBalancerByName, REST.GetLoadBalancerList, REST.call, bind.
  cbn [Get recording Remote.server Remote.handleGet String.eqb Ascii.eqb
       Bool.eqb].
  cbn [Z.geb Z.compare Pos.compare Pos.compare_cont].
  now rewrite (Remote.lbs_roundtrip agree).
Qed.

Lemma remote_find_nodes id st :
  find (fun b => REST.nodesPath (lb_Id (fst b)) =? REST.nodesPath id)
       (Remote.balancers st)
  = find (withId id) (Remote.balancers st).
Proof. apply find_ext_eq. intros b. apply nodesPath_eqb. Qed.

Lemma remote_GetLoadBalancerNodes id st calls b :
  find (withId id) (Remote.balancers st) = Some b ->
  REST.GetLoadBalancerNodes json rest id (st, calls)
  = (Ok (snd b), (st, calls ++ [GET (REST.nodesPath id)])).
Proof.
  intros H.
  unfold REST.GetLoadBalancerNodes, REST.call, bind.
  cbn [Get recording Remote.server]. unfold Remote.handleGet.
  rewrite nodesPath_not_ships, nodesPath_not_balancers, remote_find_nodes, H.
  cbn [Z.eqb Pos.eqb]. now rewrite (Remote.nodes_roundtrip agree).
Qed.

Lemma find_instance_by_name name ships :
  find (fun instance => ci_Name instance =? name) (map REST.toInstance ships)
  = option_map REST.toInstance (find (fun s => ship_Fqdn s =? name) ships).
Proof. apply find_map_comm. Qed.

Lemma remote_lookupHosts st hosts ips (s : Remote.State * list (Call bytes)) :
  Remote.allResolve st hosts = true ->
  lookupHosts (map REST.toInstance (Remote.ships st)) hosts ips s
  = (Ok (ips ++ Remote.resolvedAddresses st hosts), s).
Proof.
  revert ips. induction hosts as [|host hosts IH]; intros ips H.
  - cbn. now rewrite app_nil_r.
  - cbn [Remote.allResolve forallb] in H. apply andb_true_iff in H.
    destruct H as [H1 H2]. cbn [lookupHosts].
    rewrite find_instance_by_name.
    apply existsb_find in H1. destruct H1 as (ship & H1).
    assert (Remote.addressOf st host = ship_Public_ip ship) as A.
    { unfold Remote.addressOf. now rewrite H1. }
    rewrite H1. cbn [option_map]. rewrite (IH _ H2).
    unfold Remote.resolvedAddresses. cbn [map]. rewrite A.
    cbn [REST.toInstance ci_PublicIP]. rewrite <- app_assoc. reflexivity.
Qed.

Lemma remote_hostsNamesToIPs st calls hosts :
  Remote.allResolve st hosts = true ->
  hostsNamesToIPs cloud hosts (st, calls)
  = (Ok (Remote.resolvedAddresses st hosts),
     (st, calls ++ [GET "/kaas/ships"])).
Proof.
  intros H. unfold hostsNamesToIPs.
  cbn [service concerto GetInstanceList REST.service].
  rewrite remote_GetInstanceList. now rewrite remote_lookupHosts.
Qed.

(** An address resolved from a host name is the address of an instance. *)
Lemma resolved_is_instance st hosts ip :
  Remote.allResolve st hosts = true ->
  In ip (Remote.resolvedAddresses st hosts) ->
  existsb (fun s => ship_Public_ip s =? ip) (Remote.ships st) = true.
Proof.
  intros H Hin. unfold Remote.resolvedAddresses in Hin.
  apply in_map_iff in Hin. destruct Hin as (host & <- & Hin).
  unfold Remote.allResolve in H. rewrite forallb_forall in H.
  apply H in Hin. apply existsb_find in Hin. destruct Hin as (ship & Hs).
  unfold Remote.addressOf. rewrite Hs. apply find_some in Hs.
  apply existsb_exists. exists ship. split; [tauto | apply String.eqb_refl].
Qed.

(** *** One registration *)

Lemma remote_register id ip st calls b :
  find (withId id) (Remote.balancers st) = Some b ->
  existsb (fun s => ship_Public_ip s =? ip) (Remote.ships st) = true ->
  REST.registerInstanceWithLoadBalancer json rest id ip (st, calls)
  = (Ok tt,
     ({| Remote.ships := Remote.ships st;
         Remote.balancers :=
           map (Remote.addNode (REST.nodesPath id)
                  {| node_ID := EmptyString; node_IP := ip |})
               (Remote.balancers st) |},
      calls ++ [GET "/kaas/ships";
                POST (REST.nodesPath id)
                     (REST.node_toJson json
                        {| node_ID := EmptyString; node_IP := ip |})])).
Proof.
  intros Hb Hip.
  unfold REST.registerInstanceWithLoadBalancer, REST.GetInstanceByIP.
  unfold bind at 1 2. rewrite remote_GetInstanceList.
  rewrite find_map_comm. cbn [REST.toInstance ci_PublicIP].
  apply existsb_find in Hip. destruct Hip as (ship & Hs). rewrite Hs.
  cbn [option_map ret]. apply find_some_eqb in Hs. destruct Hs as [_ Hs].
  unfold REST.toNode. cbn [REST.toInstance ci_PublicIP]. rewrite Hs.
  unfold REST.call, bind. cbn [Post recording Remote.server].
  unfold Remote.handlePost. rewrite nodesPath_not_balancers.
  assert (existsb (fun b0 => REST.nodesPath (lb_Id (fst b0))
                             =? REST.nodesPath id)
                  (Remote.balancers st) = true) as E.
  { apply (find_existsb _ _ (x := b)). now rewrite remote_find_nodes. }
  rewrite E, (Remote.node_request agree). cbn [Z.eqb Pos.eqb negb ret].
  now rewrite <- app_assoc.
Qed.

Lemma addNode_fst path n b : fst (Remote.addNode path n b) = fst b.
Proof. unfold Remote.addNode. now destruct (_ =? _). Qed.

Lemma dropNode_fst path b : fst (Remote.dropNode path b) = fst b.
Proof. reflexivity. Qed.

Lemma map_fst_stable {A B : Type} (f : A * B -> A * B) (l : list (A * B)) :
  (forall b, fst (f b) = fst b) -> map fst (map f l) = map fst l.
Proof.
  intros H. rewrite map_map. apply map_ext. assumption.
Qed.

Lemma find_addNode id n bs b :
  find (withId id) bs = Some b ->
  find (withId id) (map (Remote.addNode (REST.nodesPath id) n) bs)
  = Some (fst b,
          snd b ++ [ {| node_ID := Remote.freshId (map node_ID (snd b));
                        node_IP := node_IP n |} ]).
Proof.
  intros H. rewrite find_map_stable.
  - rewrite H. cbn [option_map]. apply find_some_eqb in H.
    destruct H as [_ H]. unfold Remote.addNode.
    rewrite H, String.eqb_refl. reflexivity.
  - intros x. now rewrite addNode_fst.
Qed.

(** *** One deregistration *)

Lemma remote_deregister id ip st calls b node :
  forallb (fun lb => Remote.slashFree (lb_Id lb))
          (map fst (Remote.balancers st)) = true ->
  find (withId id) (Remote.balancers st) = Some b ->
  find (fun n => node_IP n =? ip) (snd b) = Some node ->
  REST.deregisterInstanceFromLoadBalancer json rest id ip (st, calls)
  = (Ok tt,
     ({| Remote.ships := Remote.ships st;
         Remote.balancers :=
           map (Remote.dropNode (REST.nodePath id (node_ID node)))
               (Remote.balancers st) |},
      calls ++ [GET (REST.nodesPath id);
                DELETE (REST.nodePath id (node_ID node))])).
Proof.
  intros Hsf Hb Hn.
  unfold REST.deregisterInstanceFromLoadBalancer, REST.GetNodeByIP.
  unfold bind at 1 2. rewrite (remote_GetLoadBalancerNodes _ _ _ Hb).
  rewrite Hn. cbn [ret].
  unfold REST.call, bind. cbn [Delete recording Remote.server].
  unfold Remote.handleDelete.
  rewrite <- forallb_map_fst in Hsf.
  rewrite (existsb_none _ _ _ Hsf).
  2:{ intros x Hx. now apply loadBalancerPath_nodePath. }
  assert (existsb
            (fun b0 =>
               existsb (fun n => REST.nodePath (lb_Id (fst b0)) (node_ID n)
                                 =? REST.nodePath id (node_ID node))
                       (snd b0))
            (Remote.balancers st) = true) as E.
  { apply existsb_exists. exists b.
    apply find_some_eqb in Hb. destruct Hb as [Hin Hid].
    split; [assumption|]. apply existsb_exists. exists node.
    apply find_some in Hn. split; [tauto|].
    rewrite Hid. apply String.eqb_refl. }
  rewrite E. cbn [Z.eqb Pos.eqb orb ret]. now rewrite <- app_assoc.
Qed.

Lemma find_dropNode id nodeId bs b :
  find (withId id) bs = Some b ->
  find (withId id) (map (Remote.dropNode (REST.nodePath id nodeId)) bs)
  = Some (fst b, filter (fun n => negb (node_ID n =? nodeId)) (snd b)).
Proof.
  intros H. rewrite find_map_stable; [|reflexivity].
  rewrite H. cbn [option_map]. apply find_some_eqb in H.
  destruct H as [_ H]. unfold Remote.dropNode. rewrite H. do 2 f_equal.
  apply filter_ext. intros n. now rewrite nodePath_eqb.
Qed.

(** *** The registration loop *)

Lemma remote_Register_loop id ips :
  forall st calls b,
    find (withId id) (Remote.balancers st) = Some b ->
    (forall ip, In ip ips ->
       existsb (fun s => ship_Public_ip s =? ip) (Remote.ships st) = true) ->
    exists st' added,
      REST.RegisterInstancesWithLoadBalancer json rest id ips (st, calls)
      = (Ok tt,
         (st',
          calls ++
          flat_map (fun ip =>
                      [GET "/kaas/ships";
                       POST (REST.nodesPath id)
                            (REST.node_toJson json
                               {| node_ID := EmptyString; node_IP := ip |})])
                   ips))
      /\ Remote.ships st' = Remote.ships st
      /\ map fst (Remote.balancers st') = map fst (Remote.balancers st)
      /\ find (withId id) (Remote.balancers st')
         = Some (fst b, snd b ++ added)
      /\ map node_IP added = ips.
Proof.
  induction ips as [|ip ips IH]; intros st calls b Hb Hips.
  - exists st, []. cbn. rewrite !app_nil_r. destruct b. repeat split.
    assumption.
  - cbn [REST.RegisterInstancesWithLoadBalancer].
    pose proof (remote_register id ip st calls Hb
                  (Hips ip (or_introl eq_refl))) as H1.
    rewrite (bind_Ok _ _ _ H1).
    pose proof (find_addNode id {| node_ID := EmptyString; node_IP := ip |}
                  _ Hb) as Hb1.
    cbn [node_IP] in Hb1.
    match type of H1 with
    | _ = (_, (?st1, ?calls1)) =>
        edestruct (IH st1 calls1 _ Hb1)
          as (st' & added & H2 & Hs & Hf & Hb2 & Hadded)
    end.
    { intros ip' Hin. cbn [Remote.ships]. apply Hips. now right. }
    eexists st', (_ :: added). repeat split.
    + rewrite H2. cbn [flat_map]. now rewrite <- app_assoc.
    + assumption.
    + rewrite Hf. cbn [Remote.balancers]. apply map_fst_stable.
      intros x. apply addNode_fst.
    + rewrite Hb2. cbn [fst snd]. now rewrite <- app_assoc.
    + cbn [map node_IP]. now rewrite Hadded.
Qed.

(** *** The deregistration loop

    The members are [kept ++ nodes]; those of [kept] are wanted and stay.
    Deregistering the addresses of [nodes] that are not wanted leaves the
    wanted ones of [nodes] after [kept]. *)
Lemma remote_Deregister_loop id D nodes :
  forall kept st calls lb0,
    forallb (fun lb => Remote.slashFree (lb_Id lb))
            (map fst (Remote.balancers st)) = true ->
    find (withId id) (Remote.balancers st) = Some (lb0, kept ++ nodes) ->
    (forall n, In n kept -> In (node_IP n) D) ->
    NoDup (map node_ID (kept ++ nodes)) ->
    exists st' calls',
      REST.DeregisterInstancesFromLoadBalancer json rest id
        (subtractStringArrays (map node_IP nodes) D) (st, calls)
      = (Ok tt, (st', calls'))
      /\ Remote.ships st' = Remote.ships st
      /\ map fst (Remote.balancers st') = map fst (Remote.balancers st)
      /\ find (withId id) (Remote.balancers st')
         = Some (lb0,
                 kept ++ filter (fun n => existsb (String.eqb (node_IP n)) D)
                                nodes).
Proof.
  induction nodes as [|n nodes IH]; intros kept st calls lb0 Hsf Hb Hkept Hnd.
  - exists st, calls. cbn. repeat split. assumption.
  - unfold subtractStringArrays. cbn [map filter].
    destruct (existsb (String.eqb (node_IP n)) D) eqn:Hn; cbn [negb].
    + destruct (IH (kept ++ [n]) st calls lb0) as (st' & calls' & H & R);
        try assumption.
      * now rewrite <- app_assoc.
      * intros x Hx. apply in_app_iff in Hx. destruct Hx as [Hx|[<-|[]]].
        -- now apply Hkept.
        -- now apply existsb_In_string.
      * now rewrite <- app_assoc.
      * exists st', calls'. split; [exact H|].
        rewrite <- app_assoc in R. exact R.
    + cbn [REST.DeregisterInstancesFromLoadBalancer].
      assert (find (fun x => node_IP x =? node_IP n) (kept ++ n :: nodes)
              = Some n) as Hfind.
      { rewrite find_app_skip.
        - cbn [find]. now rewrite String.eqb_refl.
        - intros x Hx. apply String.eqb_neq. intros E.
          apply Hkept, existsb_In_string in Hx. congruence. }
      pose proof (remote_deregister id (node_IP n) st calls
                    (b := (lb0, kept ++ n :: nodes)) Hsf Hb Hfind) as H1.
      rewrite (bind_Ok _ _ _ H1).
      pose proof (find_dropNode id (node_ID n) _ Hb) as Hb1.
      cbn [fst snd] in Hb1.
      rewrite (filter_out_unique node_ID kept nodes n Hnd) in Hb1.
      match type of H1 with
      | _ = (_, (?st1, ?calls1)) =>
          edestruct (IH kept st1 calls1 lb0)
            as (st' & calls' & H & Hs & Hf & Hb2);
            [ | exact Hb1 | exact Hkept | | ]
      end.
      * cbn [Remote.balancers]. rewrite map_fst_stable; [assumption|].
        intros x. apply dropNode_fst.
      * rewrite map_app in Hnd |- *. cbn [map] in Hnd.
        now apply NoDup_remove_1 in Hnd.
      * exists st', calls'. repeat split.
        -- exact H.
        -- assumption.
        -- rewrite Hf. cbn [Remote.balancers]. apply map_fst_stable.
           intros x. apply dropNode_fst.
        -- assumption.
Qed.

(** *** Lookups *)

Lemma wellFormed_parts st :
  Remote.wellFormed st = true ->
  NoDup (map (fun b => lb_Name (fst b)) (Remote.balancers st))
  /\ forallb (fun lb => Remote.slashFree (lb_Id lb))
             (map fst (Remote.balancers st)) = true
  /\ (forall b, In b (Remote.balancers st) -> NoDup (map node_ID (snd b))).
Proof.
  unfold Remote.wellFormed. rewrite !andb_true_iff.
  intros [[[_ Hn] Hs] Hd]. repeat split.
  - now apply distinct_NoDup.
  - now rewrite <- forallb_map_fst.
  - intros b Hb. rewrite forallb_forall in Hd. now apply distinct_NoDup, Hd.
Qed.

Lemma balancerNamed_found st name lb :
  Remote.balancerNamed st name = Some lb ->
  lb_Name lb = name
  /\ exists b, In b (Remote.balancers st) /\ fst b = lb
               /\ exists b', find (withId (lb_Id lb)) (Remote.balancers st)
                             = Some b'.
Proof.
  intros H. apply find_some_eqb in H. destruct H as [Hin Hname].
  split; [assumption|].
  apply in_map_iff in Hin. destruct Hin as (b & <- & Hb).
  exists b. repeat split; [assumption|].
  apply existsb_find, existsb_exists. exists b.
  split; [assumption | apply String.eqb_refl].
Qed.

Lemma remote_GetLoadBalancerNodesAsIPs id st calls b :
  find (withId id) (Remote.balancers st) = Some b ->
  REST.GetLoadBalancerNodesAsIPs json rest id (st, calls)
  = (Ok (map node_IP (snd b)), (st, calls ++ [GET (REST.nodesPath id)])).
Proof.
  intros H. unfold REST.GetLoadBalancerNodesAsIPs.
  now rewrite (bind_Ok _ _ _ (remote_GetLoadBalancerNodes _ _ calls H)).
Qed.

Lemma membership_found st id b :
  find (withId id) (Remote.balancers st) = Some b ->
  Remote.membership st id = map node_IP (snd b).
Proof. intros H. unfold Remote.membership. now rewrite H. Qed.

Lemma same_ships_resolve st st' hosts :
  Remote.ships st' = Remote.ships st ->
  Remote.allResolve st' hosts = Remote.allResolve st hosts
  /\ Remote.resolvedAddresses st' hosts = Remote.resolvedAddresses st hosts.
Proof.
  intros H. unfold Remote.allResolve, Remote.resolvedAddresses,
              Remote.addressOf.
  now rewrite H.
Qed.

(** *** Update against the remote system *)

Lemma remote_Update name region hosts st calls lb :
  Remote.wellFormed st = true ->
  Remote.balancerNamed st name = Some lb ->
  Remote.allResolve st hosts = true ->
  exists st' calls',
    UpdateTCPLoadBalancer cloud name region hosts (st, calls)
    = (Ok tt, (st', calls'))
    /\ Remote.ships st' = Remote.ships st
    /\ map fst (Remote.balancers st') = map fst (Remote.balancers st)
    /\ (forall ip, In ip (Remote.membership st' (lb_Id lb))
                   <-> In ip (Remote.resolvedAddresses st hosts)).
Proof.
  intros Hwf Hlb Hres.
  destruct (wellFormed_parts _ Hwf) as (_ & Hsf & Hnd).
  destruct (balancerNamed_found _ _ Hlb) as (_ & _ & _ & _ & [lb0 nodes] & Hb).
  set (D := Remote.resolvedAddresses st hosts).
  rewrite (@Update_apply _ _ json (Remote.server wire) name region hosts lb
             (map node_IP nodes) D (st, calls)
             (st, calls ++ [GET "/kaas/load_balancers"])
             (st, (calls ++ [GET "/kaas/load_balancers"])
                  ++ [GET (REST.nodesPath (lb_Id lb))])
             (st, ((calls ++ [GET "/kaas/load_balancers"])
                   ++ [GET (REST.nodesPath (lb_Id lb))])
                  ++ [GET "/kaas/ships"])).
  2:{ now rewrite remote_GetLoadBalancerByName, Hlb. }
  2:{ now rewrite (remote_GetLoadBalancerNodesAsIPs _ _ _ Hb). }
  2:{ now apply remote_hostsNamesToIPs. }
  apply find_some in Hb as Hin. destruct Hin as [Hin _].
  edestruct (remote_Deregister_loop (lb_Id lb) D nodes [] st)
    as (st1 & calls1 & H1 & Hs1 & Hf1 & Hb1);
    [exact Hsf | exact Hb | intros n [] | exact (Hnd _ Hin) |].
  rewrite (bind_Ok _ _ _ H1). cbn [app] in Hb1.
  edestruct (remote_Register_loop (lb_Id lb)
               (subtractStringArrays D (map node_IP nodes)) st1 calls1 Hb1)
    as (st2 & added & H2 & Hs2 & Hf2 & Hb2 & Hadded).
  { intros ip Hip. apply subtractStringArrays_In in Hip. rewrite Hs1.
    apply (resolved_is_instance _ _ _ Hres). tauto. }
  exists st2. eexists. split; [exact H2|]. repeat split.
  - congruence.
  - congruence.
  - rewrite (membership_found _ _ Hb2). cbn [snd].
    rewrite map_app, in_app_iff, Hadded. intros [H|H].
    + apply in_map_iff in H. destruct H as (n & <- & H).
      apply filter_In in H. now apply existsb_In_string.
    + apply subtractStringArrays_In in H. tauto.
  - rewrite (membership_found _ _ Hb2). cbn [snd].
    rewrite map_app, in_app_iff, Hadded. intros H.
    destruct (in_dec string_dec ip (map node_IP nodes)) as [Hm|Hm].
    + left. apply in_map_iff in Hm. destruct Hm as (n & <- & Hn).
      apply in_map, filter_In. split; [assumption|].
      now apply existsb_In_string.
    + right. now apply subtractStringArrays_In.
Qed.

(** Update when the membership already is the desired one: three listings,
    no change. *)
Lemma remote_Update_noop name region hosts st calls lb :
  Remote.balancerNamed st name = Some lb ->
  Remote.allResolve st hosts = true ->
  (forall ip, In ip (Remote.membership st (lb_Id lb))
              <-> In ip (Remote.resolvedAddresses st hosts)) ->
  UpdateTCPLoadBalancer cloud name region hosts (st, calls)
  = (Ok tt,
     (st, calls ++ [GET "/kaas/load_balancers";
                    GET (REST.nodesPath (lb_Id lb));
                    GET "/kaas/ships"])).
Proof.
  intros Hlb Hres Hsame.
  destruct (balancerNamed_found _ _ Hlb) as (_ & _ & _ & _ & b & Hb).
  rewrite (membership_found _ _ Hb) in Hsame.
  rewrite (@Update_apply _ _ json (Remote.server wire) name region hosts lb
             (map node_IP (snd b)) (Remote.resolvedAddresses st hosts)
             (st, calls)
             (st, calls ++ [GET "/kaas/load_balancers"])
             (st, (calls ++ [GET "/kaas/load_balancers"])
                  ++ [GET (REST.nodesPath (lb_Id lb))])
             (st, ((calls ++ [GET "/kaas/load_balancers"])
                   ++ [GET (REST.nodesPath (lb_Id lb))])
                  ++ [GET "/kaas/ships"])).
  2:{ now rewrite remote_GetLoadBalancerByName, Hlb. }
  2:{ now rewrite (remote_GetLoadBalancerNodesAsIPs _ _ _ Hb). }
  2:{ now apply remote_hostsNamesToIPs. }
  unfold subtractStringArrays. rewrite !filter_none.
  - cbn. now rewrite <- !app_assoc.
  - intros x Hx. apply negb_false_iff, existsb_In_string. now apply Hsame.
  - intros x Hx. apply negb_false_iff, existsb_In_string. now apply Hsame.
Qed.

(** C3: on the remote system, for a load balancer that exists and desired
    hosts that all resolve, Update succeeds and leaves as membership exactly
    the resolved addresses of the desired hosts; a second Update with the
    same hosts succeeds as well, leaves the remote system as it is, and makes
    three GET calls and no POST or DELETE. *)
Theorem Update_converges_and_is_idempotent :
  forall (name region : string) (hosts : list string)
         (st : Remote.State) (calls : list (Call bytes))
         (lb : ConcertoLoadBalancer),
    Remote.wellFormed st = true ->
    Remote.balancerNamed st name = Some lb ->
    Remote.allResolve st hosts = true ->
    exists st1 calls1,
      UpdateTCPLoadBalancer cloud name region hosts (st, calls)
      = (Ok tt, (st1, calls1))
      /\ (forall ip, In ip (Remote.membership st1 (lb_Id lb))
                     <-> In ip (Remote.resolvedAddresses st hosts))
      /\ UpdateTCPLoadBalancer cloud name region hosts (st1, calls1)
         = (Ok tt,
            (st1, calls1 ++ [GET "/kaas/load_balancers";
                             GET (REST.nodesPath (lb_Id lb));
                             GET "/kaas/ships"])).
Proof.
  intros name region hosts st calls lb Hwf Hlb Hres.
  destruct (remote_Update name region hosts st calls Hwf Hlb Hres)
    as (st1 & calls1 & H1 & Hs & Hf & Hm).
  exists st1, calls1. split; [exact H1|]. split; [exact Hm|].
  destruct (same_ships_resolve st st1 hosts Hs) as [Ha Hr].
  apply remote_Update_noop.
  - unfold Remote.balancerNamed. now rewrite Hf.
  - now rewrite Ha.
  - now rewrite Hr.
Qed.

(** *** Creation and deletion of a load balancer *)

Lemma balancerNamed_absent st name :
  Remote.balancerNamed st name = None ->
  forall b, In b (Remote.balancers st) -> (lb_Name (fst b) =? name) = false.
Proof.
  intros H b Hb. unfold Remote.balancerNamed in H.
  apply (find_none _ _ H (fst b)). now apply in_map.
Qed.

Lemma remote_CreateLoadBalancer name port nodePort st calls :
  Remote.balancerNamed st name = None ->
  REST.CreateLoadBalancer json rest name port nodePort (st, calls)
  = (Ok (Some
           {| lb_Id := Remote.freshId (map (fun b => lb_Id (fst b))
                                           (Remote.balancers st));
              lb_Name := name;
              lb_FQDN := name;
              lb_Port := port;
              lb_NodePort := nodePort;
              lb_Protocol := "tcp" |}),
     ({| Remote.ships := Remote.ships st;
         Remote.balancers :=
           Remote.balancers st ++
           [({| lb_Id := Remote.freshId (map (fun b => lb_Id (fst b))
                                             (Remote.balancers st));
                lb_Name := name;
                lb_FQDN := name;
                lb_Port := port;
                lb_NodePort := nodePort;
                lb_Protocol := "tcp" |}, [])] |},
      calls ++ [POST "/kaas/load_balancers"
                     (REST.lb_toJson json
                        {| lb_Id := EmptyString;
                           lb_Name := name;
                           lb_FQDN := name;
                           lb_Port := port;
                           lb_NodePort := nodePort;
                           lb_Protocol := "tcp" |})])).
Proof.
  intros Habsent.
  unfold REST.CreateLoadBalancer, REST.call, bind.
  cbn [Post recording Remote.server]. unfold Remote.handlePost.
  cbn [String.eqb Ascii.eqb Bool.eqb].
  rewrite (Remote.lb_request agree). cbn [lb_Name].
  rewrite existsb_all_false by (now apply balancerNamed_absent).
  cbn [Z.eqb Pos.eqb negb]. rewrite (Remote.lb_roundtrip agree).
  reflexivity.
Qed.

Lemma remote_DeleteLoadBalancerById id st calls b :
  find (withId id) (Remote.balancers st) = Some b ->
  REST.DeleteLoadBalancerById rest id (st, calls)
  = (Ok tt,
     ({| Remote.ships := Remote.ships st;
         Remote.balancers :=
           filter (fun b => negb (lb_Id (fst b) =? id))
                  (Remote.balancers st) |},
      calls ++ [DELETE (REST.loadBalancerPath id)])).
Proof.
  intros Hb.
  unfold REST.DeleteLoadBalancerById, REST.call, bind.
  cbn [Delete recording Remote.server]. unfold Remote.handleDelete.
  assert (existsb (fun b0 => REST.loadBalancerPath (lb_Id (fst b0))
                             =? REST.loadBalancerPath id)
                  (Remote.balancers st) = true) as E.
  { apply (find_existsb _ _ (x := b)). rewrite <- Hb.
    apply find_ext_eq. intros x. apply loadBalancerPath_eqb. }
  rewrite E. cbn [Z.eqb Pos.eqb orb]. unfold ret.
  rewrite (filter_ext _ (fun b0 => negb (lb_Id (fst b0) =? id))).
  - reflexivity.
  - intros x. now rewrite loadBalancerPath_eqb.
Qed.

(** C8: on the remote system, for a name that no load balancer bears and a
    non-empty list of desired hosts that all resolve, Ensure (affinity None,
    no explicit IP, one port) succeeds; it first creates the load balancer
    with one POST and then registers the resolved addresses of the desired
    hosts, one POST each, in their order, and nothing else; afterwards the
    load balancer of that name has exactly those addresses as members. *)
Theorem Ensure_creates_then_populates :
  forall (name region : string) (port : ServicePort) (hosts : list string)
         (st : Remote.State) (calls : list (Call bytes)),
    Remote.balancerNamed st name = None ->
    hosts <> [] ->
    Remote.allResolve st hosts = true ->
    exists lb st',
      EnsureTCPLoadBalancer cloud name region None [Some port] hosts
        ServiceAffinityNone (st, calls)
      = (Ok {| status_Ingress :=
                 [ {| ingress_IP := EmptyString;
                      ingress_Hostname := name |} ] |},
         (st',
          calls ++
          [GET "/kaas/load_balancers";
           POST "/kaas/load_balancers"
                (REST.lb_toJson json
                   {| lb_Id := EmptyString;
                      lb_Name := name;
                      lb_FQDN := name;
                      lb_Port := sp_Port port;
                      lb_NodePort := sp_NodePort port;
                      lb_Protocol := "tcp" |});
           GET "/kaas/ships"] ++
          flat_map (fun ip =>
                      [GET "/kaas/ships";
                       POST (REST.nodesPath (lb_Id lb))
                            (REST.node_toJson json
                               {| node_ID := EmptyString; node_IP := ip |})])
                   (Remote.resolvedAddresses st hosts)))
      /\ Remote.balancerNamed st' name = Some lb
      /\ Remote.membership st' (lb_Id lb) = Remote.resolvedAddresses st hosts.
Proof.
  intros name region port hosts st calls Habsent Hhosts Hres.
  unfold EnsureTCPLoadBalancer.
  cbn [ServiceAffinityNone String.eqb Ascii.eqb Bool.eqb negb length Nat.eqb].
  cbn [service concerto GetLoadBalancerByName REST.service].
  rewrite (bind_Ok _ _ _ (remote_GetLoadBalancerByName name st calls)).
  rewrite Habsent.
  set (lb := {| lb_Id := Remote.freshId (map (fun b => lb_Id (fst b))
                                             (Remote.balancers st));
                lb_Name := name;
                lb_FQDN := name;
                lb_Port := sp_Port port;
                lb_NodePort := sp_NodePort port;
                lb_Protocol := "tcp" |}).
  set (st1 := {| Remote.ships := Remote.ships st;
                 Remote.balancers := Remote.balancers st ++ [(lb, [])] |}).
  assert (find (withId (lb_Id lb)) (Remote.balancers st1) = Some (lb, []))
    as Hb.
  { cbn [st1 Remote.balancers]. rewrite find_app_skip.
    - cbn [find fst]. now rewrite String.eqb_refl.
    - intros b Hin. apply freshId_fresh.
      apply (in_map (fun b => lb_Id (fst b))) in Hin. exact Hin. }
  destruct (same_ships_resolve st st1 hosts eq_refl) as [Ha Hr].
  edestruct (remote_Register_loop (lb_Id lb)
               (Remote.resolvedAddresses st hosts) st1
               (((calls ++ [GET "/kaas/load_balancers"])
                 ++ [POST "/kaas/load_balancers"
                       (REST.lb_toJson json
                          {| lb_Id := EmptyString;
                             lb_Name := name;
                             lb_FQDN := name;
                             lb_Port := sp_Port port;
                             lb_NodePort := sp_NodePort port;
                             lb_Protocol := "tcp" |})])
                ++ [GET "/kaas/ships"])
               Hb)
    as (st' & added & H2 & Hs & Hf & Hb2 & Hadded).
  { intros ip Hip. cbn [st1 Remote.ships].
    now apply (resolved_is_instance _ _ _ Hres). }
  assert (createTCPLoadBalancer cloud name [Some port] hosts
            (st, calls ++ [GET "/kaas/load_balancers"])
          = (Ok (Some lb),
             (st',
              (((calls ++ [GET "/kaas/load_balancers"])
                ++ [POST "/kaas/load_balancers"
                      (REST.lb_toJson json
                         {| lb_Id := EmptyString;
                            lb_Name := name;
                            lb_FQDN := name;
                            lb_Port := sp_Port port;
                            lb_NodePort := sp_NodePort port;
                            lb_Protocol := "tcp" |})])
               ++ [GET "/kaas/ships"])
              ++ flat_map
                   (fun ip =>
                      [GET "/kaas/ships";
                       POST (REST.nodesPath (lb_Id lb))
                            (REST.node_toJson json
                               {| node_ID := EmptyString; node_IP := ip |})])
                   (Remote.resolvedAddresses st hosts)))) as Hcreate.
  { unfold createTCPLoadBalancer.
    cbn [service concerto CreateLoadBalancer
         RegisterInstancesWithLoadBalancer REST.service].
    rewrite (bind_Ok _ _ _
               (remote_CreateLoadBalancer name (sp_Port port)
                  (sp_NodePort port) st
                  (calls ++ [GET "/kaas/load_balancers"]) Habsent)).
    fold lb. fold st1.
    assert ((0 <? length hosts)%nat = true) as ->.
    { destruct hosts; [contradiction | reflexivity]. }
    rewrite (bind_Ok _ _ _
               (remote_hostsNamesToIPs st1 _ hosts (eq_trans Ha Hres))).
    rewrite Hr. now rewrite (bind_Ok _ _ _ H2). }
  exists lb, st'. split; [|split].
  - rewrite (bind_Ok _ _ _ Hcreate). cbn [ret toStatus lb lb_FQDN].
    now rewrite <- !app_assoc.
  - unfold Remote.balancerNamed. rewrite Hf. cbn [st1 Remote.balancers].
    rewrite map_app, find_app_skip.
    + cbn [map find fst lb lb_Name]. now rewrite String.eqb_refl.
    + intros x Hx. apply in_map_iff in Hx. destruct Hx as (b & <- & Hx).
      now apply (balancerNamed_absent _ _ Habsent).
  - now rewrite (membership_found _ _ Hb2).
Qed.

Lemma DeleteLoadBalancerById_calls {W : Type} (client : restService bytes W)
      id (s s' : W * list (Call bytes)) r :
  REST.DeleteLoadBalancerById (recording client) id s = (r, s') ->
  snd s' = snd s ++ [DELETE (REST.loadBalancerPath id)].
Proof.
  destruct s as [w calls].
  unfold REST.DeleteLoadBalancerById, REST.call, bind, ret, fail.
  cbn [Delete recording].
  destruct (Delete client (REST.loadBalancerPath id) w)
    as [[[data status] err] w1].
  destruct err; [|destruct (_ || _)%bool]; intros H; injection H as <- <-;
    reflexivity.
Qed.

(** C9: when the lookup finds no load balancer of the name, EnsureDeleted
    returns no error and has made the listing GET only; when the lookup finds
    one, EnsureDeleted makes, after the listing, exactly one DELETE, of the
    path of that load balancer's id; and on the remote system that call
    succeeds and a lookup of the name afterwards finds no load balancer. *)
Theorem EnsureDeleted_deletes_once_and_is_idempotent :
  (forall (W : Type) (client : restService bytes W) (name region : string)
          (s s' : W * list (Call bytes)),
      REST.GetLoadBalancerByName json (recording client) name s
      = (Ok None, s') ->
      EnsureTCPLoadBalancerDeleted (concerto json client) name region s
      = (Ok tt, s')
      /\ snd s' = snd s ++ [GET "/kaas/load_balancers"])
  /\
  (forall (W : Type) (client : restService bytes W) (name region : string)
          (s s1 : W * list (Call bytes)) (lb : ConcertoLoadBalancer),
      REST.GetLoadBalancerByName json (recording client) name s
      = (Ok (Some lb), s1) ->
      exists r s',
        EnsureTCPLoadBalancerDeleted (concerto json client) name region s
        = (r, s')
        /\ snd s' = snd s ++ [GET "/kaas/load_balancers";
                              DELETE (REST.loadBalancerPath (lb_Id lb))])
  /\
  (forall (name region : string) (st : Remote.State)
          (calls : list (Call bytes)) (lb : ConcertoLoadBalancer),
      Remote.wellFormed st = true ->
      Remote.balancerNamed st name = Some lb ->
      exists st',
        EnsureTCPLoadBalancerDeleted cloud name region (st, calls)
        = (Ok tt,
           (st', calls ++ [GET "/kaas/load_balancers";
                           DELETE (REST.loadBalancerPath (lb_Id lb))]))
        /\ Remote.balancerNamed st' name = None
        /\ forall calls',
             REST.GetLoadBalancerByName json rest name (st', calls')
             = (Ok None, (st', calls' ++ [GET "/kaas/load_balancers"]))).
Proof.
  split; [|split].
  - intros W client name region s s' H. split.
    + unfold EnsureTCPLoadBalancerDeleted.
      cbn [service concerto GetLoadBalancerByName REST.service].
      now rewrite (bind_Ok _ _ _ H).
    + now apply GetLoadBalancerByName_calls in H.
  - intros W client name region s s1 lb H.
    destruct (REST.DeleteLoadBalancerById (recording client) (lb_Id lb) s1)
      as [r s'] eqn:Hd.
    exists r, s'. split.
    + unfold EnsureTCPLoadBalancerDeleted.
      cbn [service concerto GetLoadBalancerByName DeleteLoadBalancerById
           REST.service].
      now rewrite (bind_Ok _ _ _ H).
    + apply DeleteLoadBalancerById_calls in Hd.
      apply GetLoadBalancerByName_calls in H. destruct H as [H _].
      now rewrite Hd, H, <- app_assoc.
  - intros name region st calls lb Hwf Hlb.
    destruct (wellFormed_parts _ Hwf) as (Hnd & _ & _).
    destruct (balancerNamed_found _ _ Hlb)
      as (Hname & b1 & Hin1 & Hfst1 & b' & Hb').
    assert (Remote.balancerNamed
              {| Remote.ships := Remote.ships st;
                 Remote.balancers :=
                   filter (fun b => negb (lb_Id (fst b) =? lb_Id lb))
                          (Remote.balancers st) |} name = None) as Hgone.
    { unfold Remote.balancerNamed. cbn [Remote.balancers].
      destruct (find (fun lb0 => lb_Name lb0 =? name) _) as [lb2|] eqn:Hfind;
        [exfalso | reflexivity].
      apply find_some_eqb in Hfind. destruct Hfind as [Hin2 Hname2].
      apply in_map_iff in Hin2. destruct Hin2 as (b2 & <- & Hin2).
      apply filter_In in Hin2. destruct Hin2 as [Hin2 Hid].
      assert (b1 = b2) as <-.
      { apply (NoDup_map_same (fun b => lb_Name (fst b))
                 (Remote.balancers st)); try assumption.
        cbn. congruence. }
      rewrite Hfst1, String.eqb_refl in Hid. discriminate. }
    eexists. split; [|split].
    + unfold EnsureTCPLoadBalancerDeleted.
      cbn [service concerto GetLoadBalancerByName DeleteLoadBalancerById
           REST.service].
      rewrite (bind_Ok _ _ _ (remote_GetLoadBalancerByName name st calls)).
      rewrite Hlb.
      rewrite (remote_DeleteLoadBalancerById _ _ _ Hb').
      now rewrite <- app_assoc.
    + exact Hgone.
    + intros calls'. rewrite remote_GetLoadBalancerByName. now rewrite Hgone.
Qed.

End RemoteRuns.

(** ** The properties on the sample data *)

Lemma payload_agree : Remote.Agree payloadJSON payloadWire.
Proof. split; reflexivity. Qed.

Lemma Update_converges_and_is_idempotent_witness :
  exists st1 calls1,
    UpdateTCPLoadBalancer sampleCloud "myLB" "region" ["host-b"; "host-c"]
      (sampleState, [])
    = (Ok tt, (st1, calls1))
    /\ (forall ip, In ip (Remote.membership st1 (lb_Id sampleBalancer))
                   <-> In ip (Remote.resolvedAddresses sampleState
                                ["host-b"; "host-c"]))
    /\ UpdateTCPLoadBalancer sampleCloud "myLB" "region" ["host-b"; "host-c"]
         (st1, calls1)
       = (Ok tt,
          (st1, calls1 ++ [GET "/kaas/load_balancers";
                           GET (REST.nodesPath (lb_Id sampleBalancer));
                           GET "/kaas/ships"])).
Proof.
  apply (@Update_converges_and_is_idempotent _ payloadJSON payloadWire
           payload_agree "myLB" "region" ["host-b"; "host-c"] sampleState []
           sampleBalancer); reflexivity.
Defined.

Lemma Ensure_creates_then_populates_witness :
  exists lb st',
    EnsureTCPLoadBalancer sampleCloud "newLB" "region" None [Some samplePort]
      ["host-a"; "host-c"] ServiceAffinityNone (sampleState, [])
    = (Ok {| status_Ingress :=
               [ {| ingress_IP := EmptyString;
                    ingress_Hostname := "newLB" |} ] |},
       (st',
        [] ++
        [GET "/kaas/load_balancers";
         POST "/kaas/load_balancers"
              (REST.lb_toJson payloadJSON
                 {| lb_Id := EmptyString;
                    lb_Name := "newLB";
                    lb_FQDN := "newLB";
                    lb_Port := sp_Port samplePort;
                    lb_NodePort := sp_NodePort samplePort;
                    lb_Protocol := "tcp" |});
         GET "/kaas/ships"] ++
        flat_map (fun ip =>
                    [GET "/kaas/ships";
                     POST (REST.nodesPath (lb_Id lb))
                          (REST.node_toJson payloadJSON
                             {| node_ID := EmptyString; node_IP := ip |})])
                 (Remote.resolvedAddresses sampleState ["host-a"; "host-c"])))
    /\ Remote.balancerNamed st' "newLB" = Some lb
    /\ Remote.membership st' (lb_Id lb)
       = Remote.resolvedAddresses sampleState ["host-a"; "host-c"].
Proof.
  apply (@Ensure_creates_then_populates _ payloadJSON payloadWire
           payload_agree "newLB" "region" samplePort ["host-a"; "host-c"]
           sampleState []).
  - reflexivity.
  - discriminate.
  - reflexivity.
Defined.

Lemma EnsureDeleted_deletes_once_and_is_idempotent_witness :
  (EnsureTCPLoadBalancerDeleted sampleCloud "newLB" "region" (sampleState, [])
   = (Ok tt, (sampleState, [GET "/kaas/load_balancers"]))
   /\ [GET "/kaas/load_balancers"]
      = [] ++ [GET "/kaas/load_balancers" : Call payload])
  /\
  (exists st',
      EnsureTCPLoadBalancerDeleted sampleCloud "myLB" "region"
        (sampleState, [])
      = (Ok tt,
         (st', [] ++ [GET "/kaas/load_balancers";
                      DELETE (REST.loadBalancerPath (lb_Id sampleBalancer))]))
      /\ Remote.balancerNamed st' "myLB" = None
      /\ forall calls',
           REST.GetLoadBalancerByName payloadJSON
             (recording (Remote.server payloadWire)) "myLB" (st', calls')
           = (Ok None, (st', calls' ++ [GET "/kaas/load_balancers"]))).
Proof.
  destruct (@EnsureDeleted_deletes_once_and_is_idempotent
              _ payloadJSON payloadWire payload_agree) as (Ha & _ & Hc).
  split.
  - apply (Ha _ (Remote.server payloadWire) "newLB" "region"
              (sampleState, []) (sampleState, [GET "/kaas/load_balancers"])).
    reflexivity.
  - apply (Hc "myLB" "region" sampleState [] sampleBalancer); reflexivity.
Defined.

(** * Further properties of the package *)

(** ** Resolution of host names *)

Section Resolution.

Context {S : Type}.
Variable c : ConcertoCloud S.

Lemma lookupHosts_resolved instances hosts :
  forall ips (s : S),
    (forall h, In h hosts ->
       existsb (fun i => ci_Name i =? h) instances = true) ->
    exists added,
      lookupHosts instances hosts ips s = (Ok (ips ++ added), s)
      /\ Forall2 (fun h ip =>
                    exists i, find (fun i => ci_Name i =? h) instances = Some i
                              /\ ip = ci_PublicIP i)
                 hosts added.
Proof.
  induction hosts as [|h hosts IH]; intros ips s H.
  - exists []. cbn. rewrite app_nil_r. split; [reflexivity | constructor].
  - cbn [lookupHosts].
    destruct (existsb_find _ _ (H h (or_introl eq_refl))) as (i & Hi).
    rewrite Hi.
    destruct (IH (ips ++ [ci_PublicIP i]) s) as (added & E & F).
    { intros x Hx. apply H. now right. }
    exists (ci_PublicIP i :: added). split.
    + rewrite E, <- app_assoc. reflexivity.
    + constructor; [now exists i | assumption].
Qed.

Lemma lookupHosts_unresolved instances pre h post :
  forall ips (s : S),
    (forall x, In x pre ->
       existsb (fun i => ci_Name i =? x) instances = true) ->
    existsb (fun i => ci_Name i =? h) instances = false ->
    lookupHosts instances (pre ++ h :: post) ips s
    = (Err (CouldNotFindInstance h), s).
Proof.
  induction pre as [|x pre IH]; intros ips s Hpre Hh; cbn [app lookupHosts].
  - destruct (find _ instances) as [i|] eqn:Hi; [|reflexivity].
    apply find_existsb in Hi. congruence.
  - destruct (existsb_find _ _ (Hpre x (or_introl eq_refl))) as (i & Hi).
    rewrite Hi. apply IH; [|assumption].
    intros y Hy. apply Hpre. now right.
Qed.

(** X1: hostsNamesToIPs is all or nothing.  When every host names a listed
    instance the result has one address per host, in the order of the hosts,
    each the public IP of the first listed instance of that name; otherwise
    it is the error that names the first host without an instance, and no
    partial result; an error of the listing is returned wrapped.  Nothing but
    the listing acts on the world. *)
Theorem hostsNamesToIPs_all_or_nothing :
  (forall (hosts : list string) (s s' : S) (instances : list ConcertoInstance),
      GetInstanceList (service c) s = (Ok instances, s') ->
      (forall h, In h hosts ->
         existsb (fun i => ci_Name i =? h) instances = true) ->
      exists ips,
        hostsNamesToIPs c hosts s = (Ok ips, s')
        /\ Forall2 (fun h ip =>
                      exists i,
                        find (fun i => ci_Name i =? h) instances = Some i
                        /\ ip = ci_PublicIP i)
                   hosts ips)
  /\
  (forall (pre post : list string) (h : string) (s s' : S)
          (instances : list ConcertoInstance),
      GetInstanceList (service c) s = (Ok instances, s') ->
      (forall x, In x pre ->
         existsb (fun i => ci_Name i =? x) instances = true) ->
      existsb (fun i => ci_Name i =? h) instances = false ->
      hostsNamesToIPs c (pre ++ h :: post) s
      = (Err (CouldNotFindInstance h), s'))
  /\
  (forall (hosts : list string) (s s' : S) (e : error),
      GetInstanceList (service c) s = (Err e, s') ->
      hostsNamesToIPs c hosts s = (Err (ConvertingNamesToIPsError e), s')).
Proof.
  split; [|split].
  - intros hosts s s' instances Hl H. unfold hostsNamesToIPs. rewrite Hl.
    destruct (lookupHosts_resolved instances hosts [] s' H)
      as (added & E & F).
    exists added. split; assumption.
  - intros pre post h s s' instances Hl Hpre Hh.
    unfold hostsNamesToIPs. rewrite Hl.
    now apply lookupHosts_unresolved.
  - intros hosts s s' e Hl. unfold hostsNamesToIPs. now rewrite Hl.
Qed.

(** ** An error of the lookup *)

(** X2: when the lookup of the load balancer fails, every operation of the
    facade returns that very error in the state the lookup left: nothing is
    created, updated or deleted. *)
Theorem lookup_error_is_returned_unchanged :
  forall (name region : string) (hosts : list string)
         (port : option ServicePort) (s s' : S) (e : error),
    GetLoadBalancerByName (service c) name s = (Err e, s') ->
    GetTCPLoadBalancer c name region s = (Err e, s')
    /\ EnsureTCPLoadBalancer c name region None [port] hosts
         ServiceAffinityNone s = (Err e, s')
    /\ UpdateTCPLoadBalancer c name region hosts s = (Err e, s')
    /\ EnsureTCPLoadBalancerDeleted c name region s = (Err e, s').
Proof.
  intros name region hosts port s s' e H. repeat split.
  - unfold GetTCPLoadBalancer. now rewrite (bind_Err _ _ _ H).
  - unfold EnsureTCPLoadBalancer. cbn [ServiceAffinityNone String.eqb].
    cbn. now rewrite (bind_Err _ _ _ H).
  - unfold UpdateTCPLoadBalancer. now rewrite (bind_Err _ _ _ H).
  - unfold EnsureTCPLoadBalancerDeleted. now rewrite (bind_Err _ _ _ H).
Qed.

End Resolution.

Lemma hostsNamesToIPs_all_or_nothing_witness :
  (exists ips,
      hostsNamesToIPs sampleCloud ["host-c"; "host-a"; "host-c"]
        (sampleState, [])
      = (Ok ips, (sampleState, [GET "/kaas/ships"]))
      /\ Forall2 (fun h ip =>
                    exists i,
                      find (fun i => ci_Name i =? h)
                           (map REST.toInstance (Remote.ships sampleState))
                      = Some i
                      /\ ip = ci_PublicIP i)
                 ["host-c"; "host-a"; "host-c"] ips)
  /\
  hostsNamesToIPs sampleCloud (["host-b"] ++ "host-z" :: ["host-c"])
    (sampleState, [])
  = (Err (CouldNotFindInstance "host-z"), (sampleState, [GET "/kaas/ships"])).
Proof.
  destruct (hostsNamesToIPs_all_or_nothing sampleCloud) as (Ha & Hb & _).
  split.
  - apply Ha; [reflexivity|].
    intros h [<-|[<-|[<-|[]]]]; reflexivity.
  - apply (Hb ["host-b"] ["host-c"] "host-z" (sampleState, [])
              (sampleState, [GET "/kaas/ships"])
              (map REST.toInstance (Remote.ships sampleState)));
      [reflexivity | | reflexivity].
    intros x [<-|[]]. reflexivity.
Defined.

Lemma lookup_error_is_returned_unchanged_witness :
  GetTCPLoadBalancer
    (concerto payloadJSON (RESTMock EmptyPayload 500%Z None))
    "myLB" "region" (@nil (Call payload), [])
  = (Err (HTTPStatusGettingLoadBalancers 500),
     ([GET "/kaas/load_balancers"], [GET "/kaas/load_balancers"]))
  /\ EnsureTCPLoadBalancer
       (concerto payloadJSON (RESTMock EmptyPayload 500%Z None))
       "myLB" "region" None [Some samplePort] ["host-b"]
       ServiceAffinityNone ([], [])
     = (Err (HTTPStatusGettingLoadBalancers 500),
        ([GET "/kaas/load_balancers"], [GET "/kaas/load_balancers"]))
  /\ UpdateTCPLoadBalancer
       (concerto payloadJSON (RESTMock EmptyPayload 500%Z None))
       "myLB" "region" ["host-b"] ([], [])
     = (Err (HTTPStatusGettingLoadBalancers 500),
        ([GET "/kaas/load_balancers"], [GET "/kaas/load_balancers"]))
  /\ EnsureTCPLoadBalancerDeleted
       (concerto payloadJSON (RESTMock EmptyPayload 500%Z None))
       "myLB" "region" ([], [])
     = (Err (HTTPStatusGettingLoadBalancers 500),
        ([GET "/kaas/load_balancers"], [GET "/kaas/load_balancers"])).
Proof.
  apply (@lookup_error_is_returned_unchanged _
           (concerto payloadJSON (RESTMock EmptyPayload 500%Z None))
           "myLB" "region" ["host-b"] (Some samplePort)).
  reflexivity.
Defined.

(** ** The REST service under any client *)

Section Service.

Context {bytes W : Type}.
Variable json : JSON bytes.
Variable client : restService bytes W.

Local Abbreviation rest := (recording client).
Local Abbreviation World := (W * list (Call bytes))%type.

(** X3: GetTCPLoadBalancer makes the listing GET and no other call, and
    never panics.  It answers (status, true) exactly when the lookup finds a
    load balancer, the status then holding one ingress whose hostname is the
    FQDN of that load balancer; (nil, false) exactly when the lookup finds
    none; and the error of the lookup otherwise. *)
Theorem GetTCPLoadBalancer_reports_existence :
  forall (name region : string) (s s' : World)
         (r : result (option LoadBalancerStatus * bool)),
    GetTCPLoadBalancer (concerto json client) name region s = (r, s') ->
    snd s' = snd s ++ [GET "/kaas/load_balancers"]
    /\ match r with
       | Ok (Some status, true) =>
           exists lb,
             REST.GetLoadBalancerByName json rest name s = (Ok (Some lb), s')
             /\ status = {| status_Ingress :=
                              [ {| ingress_IP := EmptyString;
                                   ingress_Hostname := lb_FQDN lb |} ] |}
       | Ok (None, false) =>
           REST.GetLoadBalancerByName json rest name s = (Ok None, s')
       | Ok _ => False
       | Err e => REST.GetLoadBalancerByName json rest name s = (Err e, s')
       | Panic => False
       end.
Proof.
  intros name region s s' r H. unfold GetTCPLoadBalancer in H.
  cbn [service concerto GetLoadBalancerByName REST.service] in H.
  apply bind_inv in H.
  destruct H as [(lb & s1 & H1 & H)|[(e & H1 & ->)|[H1 ->]]];
    pose proof H1 as C; apply GetLoadBalancerByName_calls in C;
    destruct C as [C1 P1].
  - destruct lb as [lb|]; cbn in H; injection H as <- <-.
    + split; [assumption|]. now exists lb.
    + split; assumption.
  - split; assumption.
  - congruence.
Qed.

(** X4: with the load balancer found, EnsureDeleted makes one DELETE of the
    path of its id and succeeds exactly when the status of the answer is 200
    or 204; any other status is LoadBalancerDeleteError, and a transport
    error is returned as it is. *)
Theorem EnsureDeleted_succeeds_on_200_or_204 :
  forall (name region : string) (w w1 w2 : W)
         (calls calls1 : list (Call bytes)) (lb : ConcertoLoadBalancer)
         (data : bytes) (status : Z) (err : option error),
    REST.GetLoadBalancerByName json rest name (w, calls)
    = (Ok (Some lb), (w1, calls1)) ->
    Delete client (REST.loadBalancerPath (lb_Id lb)) w1
    = ((data, status, err), w2) ->
    EnsureTCPLoadBalancerDeleted (concerto json client) name region (w, calls)
    = (match err with
       | Some e => Err e
       | None =>
           if ((status =? 200) || (status =? 204))%Z then Ok tt
           else Err LoadBalancerDeleteError
       end,
       (w2, calls1 ++ [DELETE (REST.loadBalancerPath (lb_Id lb))])).
Proof.
  intros name region w w1 w2 calls calls1 lb data status err H1 H2.
  unfold EnsureTCPLoadBalancerDeleted.
  cbn [service concerto GetLoadBalancerByName DeleteLoadBalancerById
       REST.service].
  rewrite (bind_Ok _ _ _ H1).
  unfold REST.DeleteLoadBalancerById, REST.call, bind.
  cbn [Delete recording]. rewrite H2.
  destruct err; [reflexivity|]. now destruct (_ || _)%bool.
Qed.

(** X5: the lookups of an instance by name and by address return the first
    listed instance that matches, and InstanceNotFound when none does. *)
Theorem instance_lookups_return_first_match :
  forall (key : string) (s s' : W) (instances : list ConcertoInstance),
    REST.GetInstanceList json client s = (Ok instances, s') ->
    (forall pre i post,
        instances = pre ++ i :: post ->
        ci_Name i = key ->
        (forall x, In x pre -> ci_Name x <> key) ->
        REST.GetInstanceByName json client key s = (Ok i, s'))
    /\ ((forall x, In x instances -> ci_Name x <> key) ->
        REST.GetInstanceByName json client key s = (Err InstanceNotFound, s'))
    /\ (forall pre i post,
           instances = pre ++ i :: post ->
           ci_PublicIP i = key ->
           (forall x, In x pre -> ci_PublicIP x <> key) ->
           REST.GetInstanceByIP json client key s = (Ok i, s'))
    /\ ((forall x, In x instances -> ci_PublicIP x <> key) ->
        REST.GetInstanceByIP json client key s = (Err InstanceNotFound, s')).
Proof.
  intros key s s' instances H.
  assert (forall (f : ConcertoInstance -> string) pre i post,
             f i = key -> (forall x, In x pre -> f x <> key) ->
             find (fun x => f x =? key) (pre ++ i :: post) = Some i) as Hfound.
  { intros f pre i post Hi Hpre. rewrite find_app_skip.
    - cbn. now rewrite Hi, String.eqb_refl.
    - intros x Hx. now apply String.eqb_neq, Hpre. }
  assert (forall (f : ConcertoInstance -> string) l,
             (forall x, In x l -> f x <> key) ->
             find (fun x => f x =? key) l = None) as Hnone.
  { intros f l Hl. destruct (find _ l) as [x|] eqn:E; [|reflexivity].
    apply find_some_eqb in E. destruct E as [Hin E].
    now apply Hl in Hin. }
  repeat split.
  - intros pre i post -> Hi Hpre. unfold REST.GetInstanceByName.
    rewrite (bind_Ok _ _ _ H). now rewrite (Hfound ci_Name).
  - intros Hl. unfold REST.GetInstanceByName.
    rewrite (bind_Ok _ _ _ H). now rewrite (Hnone ci_Name).
  - intros pre i post -> Hi Hpre. unfold REST.GetInstanceByIP.
    rewrite (bind_Ok _ _ _ H). now rewrite (Hfound ci_PublicIP).
  - intros Hl. unfold REST.GetInstanceByIP.
    rewrite (bind_Ok _ _ _ H). now rewrite (Hnone ci_PublicIP).
Qed.

(** *** The calls of the two loops *)

Lemma register_Ok_calls id ip (s s' : World) :
  REST.registerInstanceWithLoadBalancer json rest id ip s = (Ok tt, s') ->
  snd s' = snd s ++
           [GET "/kaas/ships";
            POST (REST.nodesPath id)
                 (REST.node_toJson json
                    {| node_ID := EmptyString; node_IP := ip |})].
Proof.
  destruct s as [w calls]. destruct s' as [w' calls'].
  unfold REST.registerInstanceWithLoadBalancer, REST.GetInstanceByIP,
    REST.GetInstanceList, REST.call, bind, ret, fail.
  cbn [Get Post recording snd].
  destruct (Get client "/kaas/ships" w) as [[[data status] err] w1].
  destruct err as [e|]; [discriminate|].
  destruct (status =? 404)%Z; [discriminate|].
  destruct (Unmarshal_ships json data) as [ships|e]; [|discriminate].
  destruct (find _ _) as [instance|] eqn:Hfind; [|discriminate].
  apply find_some_eqb in Hfind. destruct Hfind as [_ Hip].
  unfold REST.toNode. rewrite Hip.
  destruct (Post client _ _ w1) as [[[data' status'] err'] w2].
  destruct err'; [discriminate|]. destruct (negb _); [discriminate|].
  intros H. injection H as _ <-. now rewrite <- app_assoc.
Qed.

Lemma deregister_Ok_calls id ip (s s' : World) :
  REST.deregisterInstanceFromLoadBalancer json rest id ip s = (Ok tt, s') ->
  exists nodeId,
    snd s' = snd s ++ [GET (REST.nodesPath id);
                       DELETE (REST.nodePath id nodeId)].
Proof.
  destruct s as [w calls]. destruct s' as [w' calls'].
  unfold REST.deregisterInstanceFromLoadBalancer, REST.GetNodeByIP,
    REST.GetLoadBalancerNodes, REST.call, bind, ret, fail.
  cbn [Get Delete recording snd].
  destruct (Get client (REST.nodesPath id) w) as [[[data status] err] w1].
  destruct err as [e|]; [discriminate|].
  destruct (status =? 404)%Z; [discriminate|].
  destruct (Unmarshal_nodes json data) as [nodes|e]; [|discriminate].
  destruct (find _ _) as [node|] eqn:Hfind; [|discriminate].
  destruct (Delete client _ w1) as [[[data' status'] err'] w2].
  destruct err'; [discriminate|]. destruct (_ || _)%bool; [|discriminate].
  intros H. injection H as _ <-. exists (node_ID node).
  now rewrite <- app_assoc.
Qed.

(** X6: a loop that succeeds has made exactly two calls for each address, in
    the order of the addresses: for a registration the instance listing and
    the POST of the node with that address; for a deregistration the
    membership listing and the DELETE of one node of the load balancer. *)
Theorem successful_loops_make_two_calls_per_address :
  (forall (id : string) (ips : list string) (s s' : World),
      REST.RegisterInstancesWithLoadBalancer json rest id ips s
      = (Ok tt, s') ->
      snd s' = snd s ++
               flat_map (fun ip =>
                           [GET "/kaas/ships";
                            POST (REST.nodesPath id)
                                 (REST.node_toJson json
                                    {| node_ID := EmptyString;
                                       node_IP := ip |})])
                        ips)
  /\
  (forall (id : string) (ips : list string) (s s' : World),
      REST.DeregisterInstancesFromLoadBalancer json rest id ips s
      = (Ok tt, s') ->
      exists nodeIds,
        length nodeIds = length ips
        /\ snd s' = snd s ++
                    flat_map (fun nodeId =>
                                [GET (REST.nodesPath id);
                                 DELETE (REST.nodePath id nodeId)])
                             nodeIds).
Proof.
  split.
  - intros id ips. induction ips as [|ip ips IH]; intros s s' H.
    + cbn in H. injection H as <-. cbn. now rewrite app_nil_r.
    + cbn [REST.RegisterInstancesWithLoadBalancer] in H.
      apply bind_inv in H.
      destruct H as [([] & s1 & H1 & H2)|[(e & _ & E)|[_ E]]];
        try discriminate E.
      apply register_Ok_calls in H1. apply IH in H2.
      rewrite H2, H1. cbn [flat_map]. now rewrite <- !app_assoc.
  - intros id ips. induction ips as [|ip ips IH]; intros s s' H.
    + cbn in H. injection H as <-. exists []. cbn.
      now rewrite app_nil_r.
    + cbn [REST.DeregisterInstancesFromLoadBalancer] in H.
      apply bind_inv in H.
      destruct H as [([] & s1 & H1 & H2)|[(e & _ & E)|[_ E]]];
        try discriminate E.
      apply deregister_Ok_calls in H1. destruct H1 as (nodeId & H1).
      apply IH in H2. destruct H2 as (nodeIds & Hlen & H2).
      exists (nodeId :: nodeIds). split; [cbn; now rewrite Hlen|].
      rewrite H2, H1. cbn [flat_map]. now rewrite <- !app_assoc.
Qed.

(** X7: an address that no listed instance has is not registered: the
    registration returns InstanceNotFound after the listing, without a POST,
    and the loop stops there, whatever addresses follow. *)
Theorem registration_of_unknown_address_stops :
  forall (id ip : string) (ips : list string) (s s' : World)
         (instances : list ConcertoInstance),
    REST.GetInstanceList json rest s = (Ok instances, s') ->
    (forall i, In i instances -> ci_PublicIP i <> ip) ->
    REST.registerInstanceWithLoadBalancer json rest id ip s
    = (Err InstanceNotFound, s')
    /\ REST.RegisterInstancesWithLoadBalancer json rest id (ip :: ips) s
       = (Err InstanceNotFound, s')
    /\ snd s' = snd s ++ [GET "/kaas/ships"].
Proof.
  intros id ip ips s s' instances H Hnone.
  assert (REST.registerInstanceWithLoadBalancer json rest id ip s
          = (Err InstanceNotFound, s')) as H1.
  { unfold REST.registerInstanceWithLoadBalancer, REST.GetInstanceByIP.
    unfold bind at 1 2. rewrite H.
    destruct (find _ instances) as [i|] eqn:E; [|reflexivity].
    apply find_some_eqb in E. destruct E as [Hin E].
    now apply Hnone in Hin. }
  repeat split.
  - exact H1.
  - cbn [REST.RegisterInstancesWithLoadBalancer].
    now rewrite (bind_Err _ _ _ H1).
  - now apply GetInstanceList_calls in H.
Qed.

(** X8: an address that no member of the load balancer has is not
    deregistered: the deregistration returns the node-not-found error after
    the membership listing, without a DELETE, and the loop stops there. *)
Theorem deregistration_of_non_member_stops :
  forall (id ip : string) (ips : list string) (s s' : World)
         (nodes : list ConcertoLoadBalancerNode),
    REST.GetLoadBalancerNodes json rest id s = (Ok nodes, s') ->
    (forall n, In n nodes -> node_IP n <> ip) ->
    REST.deregisterInstanceFromLoadBalancer json rest id ip s
    = (Err (NodeNotFoundInLoadBalancer ip id), s')
    /\ REST.DeregisterInstancesFromLoadBalancer json rest id (ip :: ips) s
       = (Err (NodeNotFoundInLoadBalancer ip id), s')
    /\ snd s' = snd s ++ [GET (REST.nodesPath id)].
Proof.
  intros id ip ips s s' nodes H Hnone.
  assert (REST.deregisterInstanceFromLoadBalancer json rest id ip s
          = (Err (NodeNotFoundInLoadBalancer ip id), s')) as H1.
  { unfold REST.deregisterInstanceFromLoadBalancer, REST.GetNodeByIP.
    unfold bind at 1 2. rewrite H.
    destruct (find _ nodes) as [n|] eqn:E; [|reflexivity].
    apply find_some_eqb in E. destruct E as [Hin E].
    now apply Hnone in Hin. }
  repeat split.
  - exact H1.
  - cbn [REST.DeregisterInstancesFromLoadBalancer].
    now rewrite (bind_Err _ _ _ H1).
  - now apply GetLoadBalancerNodes_calls in H.
Qed.

(** *** Creation through Ensure *)

Lemma CreateLoadBalancer_calls name port nodePort (s s' : World) r :
  REST.CreateLoadBalancer json rest name port nodePort s = (r, s') ->
  snd s' = snd s ++
           [POST "/kaas/load_balancers"
                 (REST.lb_toJson json
                    {| lb_Id := EmptyString;
                       lb_Name := name;
                       lb_FQDN := name;
                       lb_Port := port;
                       lb_NodePort := nodePort;
                       lb_Protocol := "tcp" |})]
  /\ r <> Panic /\ r <> Ok None.
Proof.
  destruct s as [w calls].
  unfold REST.CreateLoadBalancer, REST.call, bind, ret, fail.
  cbn [Post recording].
  destruct (Post client _ _ w) as [[[data status] err] w1].
  destruct err; [|destruct (negb _); [|destruct (Unmarshal_lb json data _)]];
    intros H; injection H as <- <-; repeat split; discriminate.
Qed.

(** X9: with no desired host, an Ensure that finds no load balancer of the
    name makes the lookup and the creating POST and nothing else: no
    instance is listed and none is registered.  It does not panic. *)
Theorem Ensure_without_hosts_only_creates :
  forall (name region : string) (port : ServicePort) (s s1 s' : World)
         (r : result LoadBalancerStatus),
    REST.GetLoadBalancerByName json rest name s = (Ok None, s1) ->
    EnsureTCPLoadBalancer (concerto json client) name region None [Some port]
      [] ServiceAffinityNone s = (r, s') ->
    snd s' = snd s ++
             [GET "/kaas/load_balancers";
              POST "/kaas/load_balancers"
                   (REST.lb_toJson json
                      {| lb_Id := EmptyString;
                         lb_Name := name;
                         lb_FQDN := name;
                         lb_Port := sp_Port port;
                         lb_NodePort := sp_NodePort port;
                         lb_Protocol := "tcp" |})]
    /\ r <> Panic.
Proof.
  intros name region port s s1 s' r H1 H.
  unfold EnsureTCPLoadBalancer in H.
  cbn [ServiceAffinityNone String.eqb Ascii.eqb Bool.eqb negb length Nat.eqb]
    in H.
  cbn [service concerto GetLoadBalancerByName REST.service] in H.
  rewrite (bind_Ok _ _ _ H1) in H.
  apply GetLoadBalancerByName_calls in H1. destruct H1 as [C1 _].
  unfold createTCPLoadBalancer in H.
  cbn [service concerto CreateLoadBalancer REST.service length Nat.ltb
       Nat.leb] in H.
  apply bind_inv in H.
  destruct H as [(lb & s2 & H2 & H)|[(e & H2 & ->)|[H2 ->]]].
  - apply bind_inv in H2.
    destruct H2 as [(lb' & s3 & H2 & H3)|[(e & H2 & E)|[H2 E]]];
      try discriminate E.
    injection H3 as <- <-.
    apply CreateLoadBalancer_calls in H2. destruct H2 as (C2 & _ & Hsome).
    destruct lb' as [lb'|]; [|congruence].
    cbn in H. injection H as <- <-. split; [|discriminate].
    now rewrite C2, C1, <- app_assoc.
  - apply bind_inv in H2.
    destruct H2 as [(lb' & s3 & H2 & H3)|[(e' & H2 & E)|[H2 E]]];
      try discriminate.
    apply CreateLoadBalancer_calls in H2. destruct H2 as (C2 & _).
    split; [|discriminate]. now rewrite C2, C1, <- app_assoc.
  - apply bind_inv in H2.
    destruct H2 as [(lb' & s3 & H2 & H3)|[(e' & H2 & E)|[H2 E]]];
      try discriminate.
    apply CreateLoadBalancer_calls in H2. tauto.
Qed.

(** X10: when the answer to the creating POST has a status other than 201,
    Ensure returns the error that carries that status and the name, and stops
    there: no instance is listed, no address is registered. *)
Theorem Ensure_stops_when_creation_is_refused :
  forall (name region : string) (port : ServicePort) (hosts : list string)
         (w w1 w2 : W) (calls calls1 : list (Call bytes))
         (data : bytes) (status : Z),
    REST.GetLoadBalancerByName json rest name (w, calls)
    = (Ok None, (w1, calls1)) ->
    Post client "/kaas/load_balancers"
      (REST.lb_toJson json
         {| lb_Id := EmptyString;
            lb_Name := name;
            lb_FQDN := name;
            lb_Port := sp_Port port;
            lb_NodePort := sp_NodePort port;
            lb_Protocol := "tcp" |}) w1
    = ((data, status, None), w2) ->
    status <> 201%Z ->
    EnsureTCPLoadBalancer (concerto json client) name region None [Some port]
      hosts ServiceAffinityNone (w, calls)
    = (Err (HTTPStatusCreatingLoadBalancer status name),
       (w2, calls1 ++
            [POST "/kaas/load_balancers"
                  (REST.lb_toJson json
                     {| lb_Id := EmptyString;
                        lb_Name := name;
                        lb_FQDN := name;
                        lb_Port := sp_Port port;
                        lb_NodePort := sp_NodePort port;
                        lb_Protocol := "tcp" |})])).
Proof.
  intros name region port hosts w w1 w2 calls calls1 data status H1 H2 Hs.
  unfold EnsureTCPLoadBalancer.
  cbn [ServiceAffinityNone String.eqb Ascii.eqb Bool.eqb negb length Nat.eqb].
  cbn [service concerto GetLoadBalancerByName REST.service].
  rewrite (bind_Ok _ _ _ H1).
  assert (REST.CreateLoadBalancer json rest name (sp_Port port)
            (sp_NodePort port) (w1, calls1)
          = (Err (HTTPStatusCreatingLoadBalancer status name),
             (w2, calls1 ++
                  [POST "/kaas/load_balancers"
                        (REST.lb_toJson json
                           {| lb_Id := EmptyString;
                              lb_Name := name;
                              lb_FQDN := name;
                              lb_Port := sp_Port port;
                              lb_NodePort := sp_NodePort port;
                              lb_Protocol := "tcp" |})]))) as Hc.
  { unfold REST.CreateLoadBalancer, REST.call, bind.
    cbn [Post recording]. rewrite H2.
    apply Z.eqb_neq in Hs. now rewrite Hs. }
  unfold createTCPLoadBalancer.
  cbn [service concerto CreateLoadBalancer REST.service].
  now rewrite (bind_Err _ _ _ (bind_Err _ _ _ Hc)).
Qed.

(** *** What Update touches *)

Lemma perform_membership_calls id op (s s' : World) r :
  perform json rest id op s = (r, s') ->
  exists new, snd s' = snd s ++ new /\ Forall (membershipCall id) new.
Proof.
  destruct op as [ip|ip]; cbn [perform]; intros H.
  - apply deregister_calls in H. destruct H as [_ [H|[nodeId H]]];
      (eexists; split; [eassumption|]); repeat constructor.
    now exists nodeId.
  - apply register_calls in H. destruct H as [_ [H|H]];
      (eexists; split; [eassumption|]); repeat constructor.
Qed.

Lemma issued_membership_calls id ops (s s' : World) :
  issued json rest id ops s s' ->
  exists new, snd s' = snd s ++ new /\ Forall (membershipCall id) new.
Proof.
  induction 1 as [w|op ops w w' w'' H1 H2 IH].
  - exists []. split; [now rewrite app_nil_r | constructor].
  - apply perform_membership_calls in H1. destruct H1 as (new1 & E1 & F1).
    destruct IH as (new2 & E2 & F2).
    exists (new1 ++ new2). split.
    + now rewrite E2, E1, app_assoc.
    + apply Forall_app. now split.
Qed.

Lemma Deregister_loop_membership_calls id ips (s s' : World) r :
  REST.DeregisterInstancesFromLoadBalancer json rest id ips s = (r, s') ->
  exists new, snd s' = snd s ++ new /\ Forall (membershipCall id) new.
Proof.
  intros H. apply Deregister_loop in H.
  destruct H as [[_ H]|(done & ip & todo & e & s1 & _ & H & Hp & _)].
  - now apply issued_membership_calls in H.
  - apply issued_membership_calls in H. destruct H as (new1 & E1 & F1).
    apply perform_membership_calls in Hp. destruct Hp as (new2 & E2 & F2).
    exists (new1 ++ new2). split.
    + now rewrite E2, E1, app_assoc.
    + apply Forall_app. now split.
Qed.

Lemma Register_loop_membership_calls id ips (s s' : World) r :
  REST.RegisterInstancesWithLoadBalancer json rest id ips s = (r, s') ->
  exists new, snd s' = snd s ++ new /\ Forall (membershipCall id) new.
Proof.
  intros H. apply Register_loop in H.
  destruct H as [[_ H]|(done & ip & todo & e & s1 & _ & H & Hp & _)].
  - now apply issued_membership_calls in H.
  - apply issued_membership_calls in H. destruct H as (new1 & E1 & F1).
    apply perform_membership_calls in Hp. destruct Hp as (new2 & E2 & F2).
    exists (new1 ++ new2). split.
    + now rewrite E2, E1, app_assoc.
    + apply Forall_app. now split.
Qed.

(** X11: Update never creates or deletes a load balancer and never touches
    the members of another one.  The calls of a run are GETs only, and the
    run is no success, unless all three lookups succeed: the load balancer
    is found, its members are listed and the hosts are resolved.  When they
    do, the run has made their three GETs and then calls of which every
    POST goes to the nodes path of the load balancer found by the lookup
    and every DELETE to the path of one of its nodes. *)
Theorem Update_touches_only_the_members_of_its_load_balancer :
  forall (name region : string) (hosts : list string) (s s' : World)
         (r : result unit),
    UpdateTCPLoadBalancer (concerto json client) name region hosts s
    = (r, s') ->
    exists new,
      snd s' = snd s ++ new
      /\ (Forall (fun k => isGET k = true) new /\ r <> Ok tt
          \/ exists lb M D s1 s2 s3 changes,
               REST.GetLoadBalancerByName json rest name s
               = (Ok (Some lb), s1)
               /\ REST.GetLoadBalancerNodesAsIPs json rest (lb_Id lb) s1
                  = (Ok M, s2)
               /\ hostsNamesToIPs (concerto json client) hosts s2
                  = (Ok D, s3)
               /\ new = [GET "/kaas/load_balancers";
                         GET (REST.nodesPath (lb_Id lb));
                         GET "/kaas/ships"] ++ changes
               /\ Forall (membershipCall (lb_Id lb)) changes).
Proof.
  intros name region hosts s s' r H.
  destruct (Update_lookups _ _ _ _ _ _ H)
    as [[Hr (new & E & F)]|(lb & M & D & s1 & s2 & s3 & H1 & H2 & H3 & E3)].
  { exists new. split; [assumption | left; now split]. }
  rewrite (@Update_apply _ _ json client name region hosts lb M D
             s s1 s2 s3 H1 H2 H3) in H.
  assert (exists changes, snd s' = snd s3 ++ changes
                          /\ Forall (membershipCall (lb_Id lb)) changes)
    as (changes & E & F).
  { apply bind_inv in H.
    destruct H as [([] & s4 & H4 & H5)|[(e & H4 & _)|[H4 _]]].
    - apply Deregister_loop_membership_calls in H4.
      destruct H4 as (new1 & E1 & F1).
      apply Register_loop_membership_calls in H5.
      destruct H5 as (new2 & E2 & F2).
      exists (new1 ++ new2). split.
      + now rewrite E2, E1, app_assoc.
      + apply Forall_app. now split.
    - now apply Deregister_loop_membership_calls in H4.
    - now apply Deregister_loop_membership_calls in H4. }
  eexists. split.
  - rewrite E, E3, <- app_assoc. reflexivity.
  - right. exists lb, M, D, s1, s2, s3, changes.
    repeat split; assumption.
Qed.

End Service.

(** ** The facade against the remote system *)

Lemma find_filter_same {A : Type} (p q : A -> bool) (l : list A) :
  (forall x, In x l -> p x = true -> q x = true) ->
  find p (filter q l) = find p l.
Proof.
  intros H. induction l as [|x l IH]; cbn; [reflexivity|].
  assert (find p (filter q l) = find p l) as IH'.
  { apply IH. intros y Hy. apply H. now right. }
  destruct (q x) eqn:Hq; cbn.
  - now rewrite IH'.
  - destruct (p x) eqn:Hp; [|assumption].
    rewrite (H x (or_introl eq_refl) Hp) in Hq. discriminate.
Qed.

Lemma find_app_last {A : Type} (p : A -> bool) (l : list A) x :
  p x = false -> find p (l ++ [x]) = find p l.
Proof.
  intros H. induction l as [|y l IH]; cbn.
  - now rewrite H.
  - now rewrite IH.
Qed.

Lemma existsb_toInstance_name ships h :
  existsb (fun i => ci_Name i =? h) (map REST.toInstance ships)
  = existsb (fun s => ship_Fqdn s =? h) ships.
Proof.
  induction ships as [|s ships IH]; cbn; [reflexivity | now rewrite IH].
Qed.

Lemma NoDup_snoc {A : Type} (l : list A) x :
  NoDup l -> ~ In x l -> NoDup (l ++ [x]).
Proof.
  induction 1 as [|y l Hy Hl IH]; intros Hx; cbn.
  - constructor; [intros [] | constructor].
  - constructor.
    + rewrite in_app_iff. intros [H|[<-|[]]]; [contradiction|].
      apply Hx. now left.
    + apply IH. intros H. apply Hx. now right.
Qed.

Lemma wellFormed_ids st :
  Remote.wellFormed st = true ->
  NoDup (map (fun b => lb_Id (fst b)) (Remote.balancers st)).
Proof.
  unfold Remote.wellFormed. rewrite !andb_true_iff.
  intros [[[H _] _] _]. now apply distinct_NoDup.
Qed.

Section Reconciliation.

Context {bytes : Type}.
Variable json : JSON bytes.
Variable wire : Remote.Wire bytes.
Hypothesis agree : Remote.Agree json wire.

Local Abbreviation rest := (recording (Remote.server wire)).
Local Abbreviation cloud := (concerto json (Remote.server wire)).
Local Abbreviation withId id :=
  (fun b : ConcertoLoadBalancer * list ConcertoLoadBalancerNode =>
     lb_Id (fst b) =? id).

(** X12: Ensure of a load balancer that exists takes the update path.  It
    succeeds whatever the one port is (the port is not read), returns the
    status whose hostname is the FQDN of the existing load balancer, creates
    and deletes no load balancer, and leaves as its membership exactly the
    resolved addresses of the desired hosts. *)
Theorem Ensure_of_existing_load_balancer_reconciles_it :
  forall (name region : string) (port : option ServicePort)
         (hosts : list string) (st : Remote.State)
         (calls : list (Call bytes)) (lb : ConcertoLoadBalancer),
    Remote.wellFormed st = true ->
    Remote.balancerNamed st name = Some lb ->
    Remote.allResolve st hosts = true ->
    exists st' calls',
      EnsureTCPLoadBalancer cloud name region None [port] hosts
        ServiceAffinityNone (st, calls)
      = (Ok {| status_Ingress :=
                 [ {| ingress_IP := EmptyString;
                      ingress_Hostname := lb_FQDN lb |} ] |},
         (st', calls'))
      /\ map fst (Remote.balancers st') = map fst (Remote.balancers st)
      /\ Remote.ships st' = Remote.ships st
      /\ (forall ip, In ip (Remote.membership st' (lb_Id lb))
                     <-> In ip (Remote.resolvedAddresses st hosts)).
Proof.
  intros name region port hosts st calls lb Hwf Hlb Hres.
  destruct (@remote_Update _ json wire agree name region hosts st
              (calls ++ [GET "/kaas/load_balancers"]) lb Hwf Hlb Hres)
    as (st' & calls' & H & Hs & Hf & Hm).
  exists st', calls'. repeat split; try assumption; try apply Hm.
  unfold EnsureTCPLoadBalancer.
  cbn [ServiceAffinityNone String.eqb Ascii.eqb Bool.eqb negb length Nat.eqb].
  cbn [service concerto GetLoadBalancerByName REST.service].
  rewrite (bind_Ok _ _ _
             (@remote_GetLoadBalancerByName _ json wire agree name st calls)).
  rewrite Hlb. now rewrite (bind_Ok _ _ _ H).
Qed.

(** The creating path of Ensure, with or without hosts. *)
Lemma remote_Ensure_create name region port hosts st calls :
  Remote.balancerNamed st name = None ->
  Remote.allResolve st hosts = true ->
  exists lb st' calls',
    EnsureTCPLoadBalancer cloud name region None [Some port] hosts
      ServiceAffinityNone (st, calls)
    = (Ok {| status_Ingress :=
               [ {| ingress_IP := EmptyString;
                    ingress_Hostname := name |} ] |},
       (st', calls'))
    /\ Remote.ships st' = Remote.ships st
    /\ Remote.balancerNamed st' name = Some lb
    /\ lb_FQDN lb = name
    /\ Remote.membership st' (lb_Id lb) = Remote.resolvedAddresses st hosts.
Proof.
  intros Habsent Hres.
  set (lb := {| lb_Id := Remote.freshId (map (fun b => lb_Id (fst b))
                                             (Remote.balancers st));
                lb_Name := name;
                lb_FQDN := name;
                lb_Port := sp_Port port;
                lb_NodePort := sp_NodePort port;
                lb_Protocol := "tcp" |}).
  set (st1 := {| Remote.ships := Remote.ships st;
                 Remote.balancers := Remote.balancers st ++ [(lb, [])] |}).
  assert (find (withId (lb_Id lb)) (Remote.balancers st1) = Some (lb, []))
    as Hb.
  { cbn [st1 Remote.balancers]. rewrite find_app_skip.
    - cbn [find fst]. now rewrite String.eqb_refl.
    - intros b Hin. apply freshId_fresh.
      apply (in_map (fun b => lb_Id (fst b))) in Hin. exact Hin. }
  assert (forall st', map fst (Remote.balancers st')
                      = map fst (Remote.balancers st1) ->
                      Remote.balancerNamed st' name = Some lb) as Hnamed.
  { intros st' Hf. unfold Remote.balancerNamed. rewrite Hf.
    cbn [st1 Remote.balancers]. rewrite map_app, find_app_skip.
    - cbn [map find fst lb lb_Name]. now rewrite String.eqb_refl.
    - intros x Hx. apply in_map_iff in Hx. destruct Hx as (b & <- & Hx).
      now apply (balancerNamed_absent _ _ Habsent). }
  destruct (same_ships_resolve st st1 hosts eq_refl) as [Ha Hr].
  pose proof (@remote_CreateLoadBalancer _ json wire agree name
                (sp_Port port) (sp_NodePort port) st
                (calls ++ [GET "/kaas/load_balancers"]) Habsent) as Hc.
  fold lb in Hc. fold st1 in Hc.
  unfold EnsureTCPLoadBalancer.
  cbn [ServiceAffinityNone String.eqb Ascii.eqb Bool.eqb negb length Nat.eqb].
  cbn [service concerto GetLoadBalancerByName REST.service].
  rewrite (bind_Ok _ _ _
             (@remote_GetLoadBalancerByName _ json wire agree name st calls)).
  rewrite Habsent.
  destruct hosts as [|h hosts].
  - exists lb, st1. eexists. split; [|repeat split].
    + assert (createTCPLoadBalancer cloud name [Some port] []
                (st, calls ++ [GET "/kaas/load_balancers"])
              = (Ok (Some lb),
                 (st1,
                  (calls ++ [GET "/kaas/load_balancers"])
                  ++ [POST "/kaas/load_balancers"
                        (REST.lb_toJson json
                           {| lb_Id := EmptyString;
                              lb_Name := name;
                              lb_FQDN := name;
                              lb_Port := sp_Port port;
                              lb_NodePort := sp_NodePort port;
                              lb_Protocol := "tcp" |})]))) as Hcreate.
      { unfold createTCPLoadBalancer.
        cbn [service concerto CreateLoadBalancer REST.service length Nat.ltb
             Nat.leb].
        now rewrite (bind_Ok _ _ _ Hc). }
      rewrite (bind_Ok _ _ _ Hcreate). reflexivity.
    + now apply Hnamed.
    + now rewrite (membership_found _ _ Hb).
  - match type of Hc with
    | _ = (_, (_, ?calls1)) =>
        edestruct (@remote_Register_loop _ json wire agree (lb_Id lb)
                     (Remote.resolvedAddresses st (h :: hosts)) st1
                     (calls1 ++ [GET "/kaas/ships"]) _ Hb)
          as (st' & added & H2 & Hs & Hf & Hb2 & Hadded)
    end.
    { intros ip Hip. cbn [st1 Remote.ships].
      now apply (resolved_is_instance _ _ _ Hres). }
    match type of H2 with
    | _ = (_, (_, ?calls2)) =>
        assert (createTCPLoadBalancer cloud name [Some port] (h :: hosts)
                  (st, calls ++ [GET "/kaas/load_balancers"])
                = (Ok (Some lb), (st', calls2))) as Hcreate
    end.
    { unfold createTCPLoadBalancer.
      cbn [service concerto CreateLoadBalancer
           RegisterInstancesWithLoadBalancer REST.service].
      rewrite (bind_Ok _ _ _ Hc). cbn [length Nat.ltb Nat.leb].
      rewrite (bind_Ok _ _ _
                 (@remote_hostsNamesToIPs _ json wire agree st1 _ (h :: hosts)
                    (eq_trans Ha Hres))).
      rewrite Hr. now rewrite (bind_Ok _ _ _ H2). }
    exists lb, st'. eexists. split; [|repeat split].
    + rewrite (bind_Ok _ _ _ Hcreate). reflexivity.
    + assumption.
    + now apply Hnamed.
    + now rewrite (membership_found _ _ Hb2).
Qed.

(** X13: Ensure is idempotent.  After an Ensure that created the load
    balancer, a second Ensure with the same arguments returns the same
    status, leaves the remote system as it is, and makes four GET calls: no
    POST and no DELETE. *)
Theorem Ensure_twice_changes_nothing_the_second_time :
  forall (name region : string) (port : ServicePort) (hosts : list string)
         (st : Remote.State) (calls : list (Call bytes)),
    Remote.balancerNamed st name = None ->
    Remote.allResolve st hosts = true ->
    exists lb status st1 calls1,
      EnsureTCPLoadBalancer cloud name region None [Some port] hosts
        ServiceAffinityNone (st, calls)
      = (Ok status, (st1, calls1))
      /\ Remote.balancerNamed st1 name = Some lb
      /\ EnsureTCPLoadBalancer cloud name region None [Some port] hosts
           ServiceAffinityNone (st1, calls1)
         = (Ok status,
            (st1, calls1 ++ [GET "/kaas/load_balancers";
                             GET "/kaas/load_balancers";
                             GET (REST.nodesPath (lb_Id lb));
                             GET "/kaas/ships"])).
Proof.
  intros name region port hosts st calls Habsent Hres.
  destruct (remote_Ensure_create name region port hosts st calls
              Habsent Hres)
    as (lb & st1 & calls1 & H1 & Hs & Hlb & Hfqdn & Hm).
  exists lb. eexists. exists st1, calls1.
  split; [exact H1|]. split; [exact Hlb|].
  destruct (same_ships_resolve st st1 hosts Hs) as [Ha Hr].
  unfold EnsureTCPLoadBalancer.
  cbn [ServiceAffinityNone String.eqb Ascii.eqb Bool.eqb negb length Nat.eqb].
  cbn [service concerto GetLoadBalancerByName REST.service].
  rewrite (bind_Ok _ _ _
             (@remote_GetLoadBalancerByName _ json wire agree name st1
                calls1)).
  rewrite Hlb.
  rewrite (bind_Ok _ _ _
             (@remote_Update_noop _ json wire agree name region hosts st1
                (calls1 ++ [GET "/kaas/load_balancers"]) lb Hlb
                (eq_trans Ha Hres)
                ltac:(intros ip; rewrite Hm, Hr; reflexivity))).
  cbn [toStatus ret]. rewrite Hfqdn. now rewrite <- app_assoc.
Qed.

(** X14: Ensure does not roll back.  When the load balancer does not exist
    and one desired host names no instance, Ensure creates the load balancer,
    lists the instances, and returns the error that names the first such
    host; the load balancer stays created, with no member. *)
Theorem Ensure_leaves_the_created_load_balancer_when_a_host_is_unknown :
  forall (name region : string) (port : ServicePort)
         (pre post : list string) (h : string)
         (st : Remote.State) (calls : list (Call bytes)),
    Remote.balancerNamed st name = None ->
    Remote.allResolve st pre = true ->
    existsb (fun s => ship_Fqdn s =? h) (Remote.ships st) = false ->
    exists lb st',
      EnsureTCPLoadBalancer cloud name region None [Some port]
        (pre ++ h :: post) ServiceAffinityNone (st, calls)
      = (Err (CouldNotFindInstance h),
         (st',
          calls ++
          [GET "/kaas/load_balancers";
           POST "/kaas/load_balancers"
                (REST.lb_toJson json
                   {| lb_Id := EmptyString;
                      lb_Name := name;
                      lb_FQDN := name;
                      lb_Port := sp_Port port;
                      lb_NodePort := sp_NodePort port;
                      lb_Protocol := "tcp" |});
           GET "/kaas/ships"]))
      /\ Remote.balancerNamed st' name = Some lb
      /\ Remote.membership st' (lb_Id lb) = [].
Proof.
  intros name region port pre post h st calls Habsent Hpre Hh.
  set (lb := {| lb_Id := Remote.freshId (map (fun b => lb_Id (fst b))
                                             (Remote.balancers st));
                lb_Name := name;
                lb_FQDN := name;
                lb_Port := sp_Port port;
                lb_NodePort := sp_NodePort port;
                lb_Protocol := "tcp" |}).
  set (st1 := {| Remote.ships := Remote.ships st;
                 Remote.balancers := Remote.balancers st ++ [(lb, [])] |}).
  pose proof (@remote_CreateLoadBalancer _ json wire agree name
                (sp_Port port) (sp_NodePort port) st
                (calls ++ [GET "/kaas/load_balancers"]) Habsent) as Hc.
  fold lb in Hc. fold st1 in Hc.
  exists lb, st1. split; [|split].
  - unfold EnsureTCPLoadBalancer.
    cbn [ServiceAffinityNone String.eqb Ascii.eqb Bool.eqb negb length
         Nat.eqb].
    cbn [service concerto GetLoadBalancerByName REST.service].
    rewrite (bind_Ok _ _ _
               (@remote_GetLoadBalancerByName _ json wire agree name st
                  calls)).
    rewrite Habsent.
    match type of Hc with
    | _ = (_, (_, ?calls1)) =>
        assert (createTCPLoadBalancer cloud name [Some port]
                  (pre ++ h :: post)
                  (st, calls ++ [GET "/kaas/load_balancers"])
                = (Err (CouldNotFindInstance h),
                   (st1, calls1 ++ [GET "/kaas/ships"]))) as Hcreate
    end.
    { unfold createTCPLoadBalancer.
      cbn [service concerto CreateLoadBalancer REST.service].
      rewrite (bind_Ok _ _ _ Hc).
      assert ((0 <? length (pre ++ h :: post))%nat = true) as ->.
      { rewrite length_app. cbn [length]. apply Nat.ltb_lt. lia. }
      assert (hostsNamesToIPs cloud (pre ++ h :: post)
                (st1, ((calls ++ [GET "/kaas/load_balancers"])
                       ++ [POST "/kaas/load_balancers"
                             (REST.lb_toJson json
                                {| lb_Id := EmptyString;
                                   lb_Name := name;
                                   lb_FQDN := name;
                                   lb_Port := sp_Port port;
                                   lb_NodePort := sp_NodePort port;
                                   lb_Protocol := "tcp" |})]))
              = (Err (CouldNotFindInstance h),
                 (st1, ((calls ++ [GET "/kaas/load_balancers"])
                        ++ [POST "/kaas/load_balancers"
                              (REST.lb_toJson json
                                 {| lb_Id := EmptyString;
                                    lb_Name := name;
                                    lb_FQDN := name;
                                    lb_Port := sp_Port port;
                                    lb_NodePort := sp_NodePort port;
                                    lb_Protocol := "tcp" |})])
                       ++ [GET "/kaas/ships"]))) as Hn.
      { unfold hostsNamesToIPs.
        cbn [service concerto GetInstanceList REST.service].
        rewrite (@remote_GetInstanceList _ json wire agree).
        apply lookupHosts_unresolved.
        - intros x Hx. rewrite existsb_toInstance_name.
          unfold Remote.allResolve in Hpre. rewrite forallb_forall in Hpre.
          now apply Hpre.
        - now rewrite existsb_toInstance_name. }
      now rewrite (bind_Err _ _ _ Hn). }
    rewrite (bind_Err _ _ _ Hcreate). now rewrite <- !app_assoc.
  - unfold Remote.balancerNamed. cbn [st1 Remote.balancers].
    rewrite map_app, find_app_skip.
    + cbn [map find fst lb lb_Name]. now rewrite String.eqb_refl.
    + intros x Hx. apply in_map_iff in Hx. destruct Hx as (b & <- & Hx).
      now apply (balancerNamed_absent _ _ Habsent).
  - unfold Remote.membership. cbn [st1 Remote.balancers].
    rewrite find_app_skip.
    + cbn [find fst]. now rewrite String.eqb_refl.
    + intros b Hin. apply freshId_fresh.
      apply (in_map (fun b => lb_Id (fst b))) in Hin. exact Hin.
Qed.

(** X15: registration and deregistration are inverse on the remote system.
    Registering the address of an instance that is not a member of the load
    balancer and then deregistering it succeeds and leaves the load balancer
    with the very nodes it had. *)
Theorem register_then_deregister_restores_the_members :
  forall (id ip : string) (st : Remote.State) (calls : list (Call bytes))
         (b : ConcertoLoadBalancer * list ConcertoLoadBalancerNode),
    Remote.wellFormed st = true ->
    find (withId id) (Remote.balancers st) = Some b ->
    existsb (fun s => ship_Public_ip s =? ip) (Remote.ships st) = true ->
    ~ In ip (Remote.membership st id) ->
    exists st' calls',
      (REST.RegisterInstancesWithLoadBalancer json rest id [ip] ;;;
       REST.DeregisterInstancesFromLoadBalancer json rest id [ip])
        (st, calls)
      = (Ok tt, (st', calls'))
      /\ find (withId id) (Remote.balancers st') = Some b
      /\ Remote.membership st' id = Remote.membership st id.
Proof.
  intros id ip st calls [lb0 nodes] Hwf Hb Hip Hnot.
  destruct (wellFormed_parts _ Hwf) as (_ & Hsf & Hnd).
  apply find_some in Hb as Hin. destruct Hin as [Hin _].
  specialize (Hnd _ Hin). cbn [snd] in Hnd.
  rewrite (membership_found _ _ Hb) in Hnot. cbn [snd] in Hnot.
  pose proof (@remote_register _ json wire agree id ip st calls _ Hb Hip)
    as H1.
  pose proof (find_addNode id {| node_ID := EmptyString; node_IP := ip |}
                _ Hb) as Hb1.
  cbn [fst snd node_IP] in Hb1.
  set (new := {| node_ID := Remote.freshId (map node_ID nodes);
                 node_IP := ip |}) in *.
  assert (find (fun n => node_IP n =? ip) (nodes ++ [new]) = Some new)
    as Hfind.
  { rewrite find_app_skip.
    - cbn [find new node_IP]. now rewrite String.eqb_refl.
    - intros x Hx. apply String.eqb_neq. intros E. apply Hnot.
      rewrite <- E. now apply in_map. }
  assert (NoDup (map node_ID (nodes ++ [new]))) as Hnd1.
  { rewrite map_app. cbn [map]. apply NoDup_snoc; [assumption|].
    cbn [new node_ID]. intros Hx.
    pose proof (freshId_fresh _ _ Hx) as F.
    rewrite String.eqb_refl in F. discriminate. }
  match type of H1 with
  | _ = (_, (?st1, ?calls1)) =>
      pose proof (@remote_deregister _ json wire agree id ip st1 calls1
                    (lb0, nodes ++ [new]) new) as H2
  end.
  cbn [Remote.balancers] in H2.
  rewrite map_fst_stable in H2 by (intros x; apply addNode_fst).
  specialize (H2 Hsf Hb1 Hfind).
  eexists. eexists. split; [|split].
  - cbn [REST.RegisterInstancesWithLoadBalancer
         REST.DeregisterInstancesFromLoadBalancer].
    unfold bind at 1. unfold bind at 1. rewrite H1. unfold ret at 1.
    unfold bind at 1. rewrite H2. reflexivity.
  - cbn [Remote.balancers].
    rewrite (find_dropNode id (node_ID new) _ Hb1). cbn [fst snd].
    rewrite (filter_out_unique node_ID nodes [] new Hnd1).
    now rewrite app_nil_r.
  - unfold Remote.membership. cbn [Remote.balancers].
    rewrite (find_dropNode id (node_ID new) _ Hb1). cbn [fst snd].
    rewrite (filter_out_unique node_ID nodes [] new Hnd1).
    rewrite app_nil_r. now rewrite Hb.
Qed.

(** X16: creation and lookup round trip.  Creating a load balancer under a
    name that none bears succeeds; the load balancer returned has that name
    as name and FQDN, the two ports given and protocol tcp; a lookup of the
    name then finds exactly it, with no member, and the lookup of every
    other name finds what it found before. *)
Theorem CreateLoadBalancer_then_lookup_finds_it :
  forall (name : string) (port nodePort : Z) (st : Remote.State)
         (calls : list (Call bytes)),
    Remote.balancerNamed st name = None ->
    exists lb st1 calls1,
      REST.CreateLoadBalancer json rest name port nodePort (st, calls)
      = (Ok (Some lb), (st1, calls1))
      /\ lb_Name lb = name /\ lb_FQDN lb = name
      /\ lb_Port lb = port /\ lb_NodePort lb = nodePort
      /\ lb_Protocol lb = "tcp"
      /\ (forall calls',
             REST.GetLoadBalancerByName json rest name (st1, calls')
             = (Ok (Some lb), (st1, calls' ++ [GET "/kaas/load_balancers"])))
      /\ Remote.membership st1 (lb_Id lb) = []
      /\ (forall other, other <> name ->
             Remote.balancerNamed st1 other = Remote.balancerNamed st other).
Proof.
  intros name port nodePort st calls Habsent.
  pose proof (@remote_CreateLoadBalancer _ json wire agree name port nodePort
                st calls Habsent) as Hc.
  eexists. eexists. eexists. split; [exact Hc|].
  cbn [lb_Name lb_FQDN lb_Port lb_NodePort lb_Protocol lb_Id].
  assert (forall x, In x (map fst (Remote.balancers st)) ->
                    (lb_Name x =? name) = false) as Hold.
  { intros x Hx. apply in_map_iff in Hx. destruct Hx as (b & <- & Hx).
    now apply (balancerNamed_absent _ _ Habsent). }
  repeat split.
  - intros calls'.
    rewrite (@remote_GetLoadBalancerByName _ json wire agree).
    unfold Remote.balancerNamed. cbn [Remote.balancers].
    rewrite map_app, (find_app_skip _ _ _ Hold).
    cbn [map find fst lb_Name]. now rewrite String.eqb_refl.
  - unfold Remote.membership. cbn [Remote.balancers].
    rewrite find_app_skip.
    + cbn [find fst lb_Id]. now rewrite String.eqb_refl.
    + intros b Hin. apply freshId_fresh.
      apply (in_map (fun b => lb_Id (fst b))) in Hin. exact Hin.
  - intros other Hother. unfold Remote.balancerNamed.
    cbn [Remote.balancers]. rewrite map_app. cbn [map fst].
    apply find_app_last. cbn [lb_Name]. apply String.eqb_neq. congruence.
Qed.

(** X17: EnsureDeleted deletes nothing else.  On the remote system, after
    the deletion of the load balancer of one name, the lookup of every other
    name finds what it found before, and the instances are as before. *)
Theorem EnsureDeleted_leaves_the_other_load_balancers :
  forall (name region other : string) (st : Remote.State)
         (calls : list (Call bytes)) (lb : ConcertoLoadBalancer),
    Remote.wellFormed st = true ->
    Remote.balancerNamed st name = Some lb ->
    other <> name ->
    exists st' calls',
      EnsureTCPLoadBalancerDeleted cloud name region (st, calls)
      = (Ok tt, (st', calls'))
      /\ Remote.balancerNamed st' other = Remote.balancerNamed st other
      /\ Remote.ships st' = Remote.ships st.
Proof.
  intros name region other st calls lb Hwf Hlb Hother.
  pose proof (wellFormed_ids _ Hwf) as Hids.
  destruct (balancerNamed_found _ _ Hlb)
    as (Hname & b1 & Hin1 & Hfst1 & b' & Hb').
  eexists. eexists. split; [|split].
  - unfold EnsureTCPLoadBalancerDeleted.
    cbn [service concerto GetLoadBalancerByName DeleteLoadBalancerById
         REST.service].
    rewrite (bind_Ok _ _ _
               (@remote_GetLoadBalancerByName _ json wire agree name st
                  calls)).
    rewrite Hlb.
    apply (@remote_DeleteLoadBalancerById _ wire _ _ _ _ Hb').
  - unfold Remote.balancerNamed. cbn [Remote.balancers].
    rewrite !find_map_comm. f_equal. apply find_filter_same.
    intros b Hb Hn. apply negb_true_iff, String.eqb_neq. intros Hid.
    assert (b = b1) as ->.
    { apply (NoDup_map_same (fun b => lb_Id (fst b)) (Remote.balancers st));
        try assumption. cbn. now rewrite Hfst1. }
    apply String.eqb_eq in Hn. rewrite Hfst1 in Hn. congruence.
  - reflexivity.
Qed.

End Reconciliation.

(** *** On the sample data *)

Lemma GetTCPLoadBalancer_reports_existence_witness :
  snd (sampleState, [GET "/kaas/load_balancers" : Call payload])
  = snd (sampleState, @nil (Call payload)) ++ [GET "/kaas/load_balancers"]
  /\ exists lb,
       REST.GetLoadBalancerByName payloadJSON
         (recording (Remote.server payloadWire)) "myLB" (sampleState, [])
       = (Ok (Some lb), (sampleState, [GET "/kaas/load_balancers"]))
       /\ {| status_Ingress :=
               [ {| ingress_IP := EmptyString;
                    ingress_Hostname := "myLB" |} ] |}
          = {| status_Ingress :=
                 [ {| ingress_IP := EmptyString;
                      ingress_Hostname := lb_FQDN lb |} ] |}.
Proof.
  apply (@GetTCPLoadBalancer_reports_existence _ _ payloadJSON
           (Remote.server payloadWire) "myLB" "region" (sampleState, [])
           (sampleState, [GET "/kaas/load_balancers"])
           (Ok (Some {| status_Ingress :=
                          [ {| ingress_IP := EmptyString;
                               ingress_Hostname := "myLB" |} ] |}, true))).
  reflexivity.
Defined.

Lemma EnsureDeleted_succeeds_on_200_or_204_witness :
  EnsureTCPLoadBalancerDeleted (concerto payloadJSON refusingDeletes)
    "myLB" "region" (sampleState, [])
  = (Err LoadBalancerDeleteError,
     (sampleState,
      [GET "/kaas/load_balancers"]
      ++ [DELETE (REST.loadBalancerPath (lb_Id sampleBalancer))])).
Proof.
  apply (@EnsureDeleted_succeeds_on_200_or_204 _ _ payloadJSON
           refusingDeletes "myLB" "region" sampleState sampleState
           sampleState [] [GET "/kaas/load_balancers"] sampleBalancer
           EmptyPayload 500%Z None); reflexivity.
Defined.

Lemma instance_lookups_return_first_match_witness :
  REST.GetInstanceByName payloadJSON (Remote.server payloadWire) "host-b"
    sampleState
  = (Ok (REST.toInstance (sampleShip "s2" "host-b" "5.6.7.8")), sampleState).
Proof.
  apply (proj1 (@instance_lookups_return_first_match _ _ payloadJSON
                  (Remote.server payloadWire) "host-b" sampleState
                  sampleState
                  (map REST.toInstance (Remote.ships sampleState))
                  eq_refl)
           [REST.toInstance (sampleShip "s1" "host-a" "1.2.3.4")]
           (REST.toInstance (sampleShip "s2" "host-b" "5.6.7.8"))
           [REST.toInstance (sampleShip "s3" "host-c" "9.9.9.9")]).
  - reflexivity.
  - reflexivity.
  - intros x [<-|[]]. discriminate.
Defined.

Lemma registration_of_unknown_address_stops_witness :
  REST.registerInstanceWithLoadBalancer payloadJSON
    (recording (Remote.server payloadWire)) "0001" "7.7.7.7"
    (sampleState, [])
  = (Err InstanceNotFound, (sampleState, [GET "/kaas/ships"]))
  /\ REST.RegisterInstancesWithLoadBalancer payloadJSON
       (recording (Remote.server payloadWire)) "0001"
       ("7.7.7.7" :: ["9.9.9.9"]) (sampleState, [])
     = (Err InstanceNotFound, (sampleState, [GET "/kaas/ships"]))
  /\ snd (sampleState, [GET "/kaas/ships" : Call payload])
     = snd (sampleState, @nil (Call payload)) ++ [GET "/kaas/ships"].
Proof.
  apply (@registration_of_unknown_address_stops _ _ payloadJSON
           (Remote.server payloadWire) "0001" "7.7.7.7" ["9.9.9.9"]
           (sampleState, []) (sampleState, [GET "/kaas/ships"])
           (map REST.toInstance (Remote.ships sampleState))).
  - reflexivity.
  - intros i [<-|[<-|[<-|[]]]]; discriminate.
Defined.

Lemma deregistration_of_non_member_stops_witness :
  REST.deregisterInstanceFromLoadBalancer payloadJSON
    (recording (Remote.server payloadWire)) "0001" "9.9.9.9"
    (sampleState, [])
  = (Err (NodeNotFoundInLoadBalancer "9.9.9.9" "0001"),
     (sampleState, [GET "/kaas/load_balancers/0001/nodes"]))
  /\ REST.DeregisterInstancesFromLoadBalancer payloadJSON
       (recording (Remote.server payloadWire)) "0001"
       ("9.9.9.9" :: ["1.2.3.4"]) (sampleState, [])
     = (Err (NodeNotFoundInLoadBalancer "9.9.9.9" "0001"),
        (sampleState, [GET "/kaas/load_balancers/0001/nodes"]))
  /\ snd (sampleState, [GET "/kaas/load_balancers/0001/nodes" : Call payload])
     = snd (sampleState, @nil (Call payload))
       ++ [GET (REST.nodesPath "0001")].
Proof.
  apply (@deregistration_of_non_member_stops _ _ payloadJSON
           (Remote.server payloadWire) "0001" "9.9.9.9" ["1.2.3.4"]
           (sampleState, [])
           (sampleState, [GET "/kaas/load_balancers/0001/nodes"])
           [ {| node_ID := "n1"; node_IP := "1.2.3.4" |};
             {| node_ID := "n2"; node_IP := "5.6.7.8" |} ]).
  - reflexivity.
  - intros n [<-|[<-|[]]]; discriminate.
Defined.

Lemma successful_loops_make_two_calls_per_address_witness :
  snd (snd (REST.RegisterInstancesWithLoadBalancer payloadJSON
              (recording (Remote.server payloadWire)) "0001"
              ["9.9.9.9"; "1.2.3.4"] (sampleState, [])))
  = snd (sampleState, @nil (Call payload)) ++
    flat_map (fun ip =>
                [GET "/kaas/ships";
                 POST (REST.nodesPath "0001")
                      (REST.node_toJson payloadJSON
                         {| node_ID := EmptyString; node_IP := ip |})])
             ["9.9.9.9"; "1.2.3.4"].
Proof.
  apply (proj1 (@successful_loops_make_two_calls_per_address _ _ payloadJSON
                  (Remote.server payloadWire))
           "0001" ["9.9.9.9"; "1.2.3.4"] (sampleState, [])
           (snd (REST.RegisterInstancesWithLoadBalancer payloadJSON
                   (recording (Remote.server payloadWire)) "0001"
                   ["9.9.9.9"; "1.2.3.4"] (sampleState, [])))).
  reflexivity.
Defined.

Lemma Ensure_without_hosts_only_creates_witness :
  snd (snd (EnsureTCPLoadBalancer sampleCloud "newLB" "region" None
              [Some samplePort] [] ServiceAffinityNone (sampleState, [])))
  = snd (sampleState, @nil (Call payload)) ++
    [GET "/kaas/load_balancers";
     POST "/kaas/load_balancers"
          (REST.lb_toJson payloadJSON
             {| lb_Id := EmptyString;
                lb_Name := "newLB";
                lb_FQDN := "newLB";
                lb_Port := sp_Port samplePort;
                lb_NodePort := sp_NodePort samplePort;
                lb_Protocol := "tcp" |})]
  /\ fst (EnsureTCPLoadBalancer sampleCloud "newLB" "region" None
            [Some samplePort] [] ServiceAffinityNone (sampleState, []))
     <> Panic.
Proof.
  apply (@Ensure_without_hosts_only_creates _ _ payloadJSON
           (Remote.server payloadWire) "newLB" "region" samplePort
           (sampleState, []) (sampleState, [GET "/kaas/load_balancers"])).
  - reflexivity.
  - reflexivity.
Defined.

Lemma Ensure_stops_when_creation_is_refused_witness :
  EnsureTCPLoadBalancer
    (concerto payloadJSON (RESTMock (BalancersPayload []) 200%Z None))
    "newLB" "region" None [Some samplePort] ["host-b"] ServiceAffinityNone
    ([], [])
  = (Err (HTTPStatusCreatingLoadBalancer 200 "newLB"),
     ([GET "/kaas/load_balancers";
       POST "/kaas/load_balancers"
            (REST.lb_toJson payloadJSON
               {| lb_Id := EmptyString;
                  lb_Name := "newLB";
                  lb_FQDN := "newLB";
                  lb_Port := sp_Port samplePort;
                  lb_NodePort := sp_NodePort samplePort;
                  lb_Protocol := "tcp" |})],
      [GET "/kaas/load_balancers"] ++
      [POST "/kaas/load_balancers"
            (REST.lb_toJson payloadJSON
               {| lb_Id := EmptyString;
                  lb_Name := "newLB";
                  lb_FQDN := "newLB";
                  lb_Port := sp_Port samplePort;
                  lb_NodePort := sp_NodePort samplePort;
                  lb_Protocol := "tcp" |})])).
Proof.
  apply (@Ensure_stops_when_creation_is_refused _ _ payloadJSON
           (RESTMock (BalancersPayload []) 200%Z None)
           "newLB" "region" samplePort ["host-b"]
           [] [GET "/kaas/load_balancers"] _ [] [GET "/kaas/load_balancers"]
           (BalancersPayload []) 200%Z).
  - reflexivity.
  - reflexivity.
  - discriminate.
Defined.

Lemma Update_touches_only_the_members_of_its_load_balancer_witness :
  (exists new,
     snd (snd (UpdateTCPLoadBalancer sampleCloud "myLB" "region"
                 ["host-b"; "host-c"] (sampleState, [])))
     = snd (sampleState, @nil (Call payload)) ++ new
     /\ (Forall (fun k => isGET k = true) new /\ Ok tt <> Ok tt
         \/ exists lb M D s1 s2 s3 changes,
              REST.GetLoadBalancerByName payloadJSON
                (recording (Remote.server payloadWire)) "myLB"
                (sampleState, [])
              = (Ok (Some lb), s1)
              /\ REST.GetLoadBalancerNodesAsIPs payloadJSON
                   (recording (Remote.server payloadWire)) (lb_Id lb) s1
                 = (Ok M, s2)
              /\ hostsNamesToIPs sampleCloud ["host-b"; "host-c"] s2
                 = (Ok D, s3)
              /\ new = [GET "/kaas/load_balancers";
                        GET (REST.nodesPath (lb_Id lb));
                        GET "/kaas/ships"] ++ changes
              /\ Forall (membershipCall (lb_Id lb)) changes))
  /\
  (exists new,
     snd (snd (UpdateTCPLoadBalancer sampleCloud "myLB" "region"
                 ["host-z"] (sampleState, [])))
     = snd (sampleState, @nil (Call payload)) ++ new
     /\ (Forall (fun k => isGET k = true) new
         /\ Err (CouldNotFindInstance "host-z") <> Ok tt
         \/ exists lb M D s1 s2 s3 changes,
              REST.GetLoadBalancerByName payloadJSON
                (recording (Remote.server payloadWire)) "myLB"
                (sampleState, [])
              = (Ok (Some lb), s1)
              /\ REST.GetLoadBalancerNodesAsIPs payloadJSON
                   (recording (Remote.server payloadWire)) (lb_Id lb) s1
                 = (Ok M, s2)
              /\ hostsNamesToIPs sampleCloud ["host-z"] s2 = (Ok D, s3)
              /\ new = [GET "/kaas/load_balancers";
                        GET (REST.nodesPath (lb_Id lb));
                        GET "/kaas/ships"] ++ changes
              /\ Forall (membershipCall (lb_Id lb)) changes)).
Proof.
  split.
  - apply (@Update_touches_only_the_members_of_its_load_balancer _ _
             payloadJSON (Remote.server payloadWire) "myLB" "region"
             ["host-b"; "host-c"] (sampleState, [])
             (snd (UpdateTCPLoadBalancer sampleCloud "myLB" "region"
                     ["host-b"; "host-c"] (sampleState, [])))
             (Ok tt)).
    reflexivity.
  - apply (@Update_touches_only_the_members_of_its_load_balancer _ _
             payloadJSON (Remote.server payloadWire) "myLB" "region"
             ["host-z"] (sampleState, [])
             (snd (UpdateTCPLoadBalancer sampleCloud "myLB" "region"
                     ["host-z"] (sampleState, [])))
             (Err (CouldNotFindInstance "host-z"))).
    reflexivity.
Defined.

Lemma Ensure_of_existing_load_balancer_reconciles_it_witness :
  exists st' calls',
    EnsureTCPLoadBalancer sampleCloud "myLB" "region" None [None]
      ["host-b"; "host-c"] ServiceAffinityNone (sampleState, [])
    = (Ok {| status_Ingress :=
               [ {| ingress_IP := EmptyString;
                    ingress_Hostname := lb_FQDN sampleBalancer |} ] |},
       (st', calls'))
    /\ map fst (Remote.balancers st') = map fst (Remote.balancers sampleState)
    /\ Remote.ships st' = Remote.ships sampleState
    /\ (forall ip, In ip (Remote.membership st' (lb_Id sampleBalancer))
                   <-> In ip (Remote.resolvedAddresses sampleState
                                ["host-b"; "host-c"])).
Proof.
  apply (@Ensure_of_existing_load_balancer_reconciles_it _ payloadJSON
           payloadWire payload_agree "myLB" "region" None
           ["host-b"; "host-c"] sampleState [] sampleBalancer);
    reflexivity.
Defined.

Lemma Ensure_twice_changes_nothing_the_second_time_witness :
  exists lb status st1 calls1,
    EnsureTCPLoadBalancer sampleCloud "newLB" "region" None [Some samplePort]
      ["host-a"] ServiceAffinityNone (sampleState, [])
    = (Ok status, (st1, calls1))
    /\ Remote.balancerNamed st1 "newLB" = Some lb
    /\ EnsureTCPLoadBalancer sampleCloud "newLB" "region" None
         [Some samplePort] ["host-a"] ServiceAffinityNone (st1, calls1)
       = (Ok status,
          (st1, calls1 ++ [GET "/kaas/load_balancers";
                           GET "/kaas/load_balancers";
                           GET (REST.nodesPath (lb_Id lb));
                           GET "/kaas/ships"])).
Proof.
  apply (@Ensure_twice_changes_nothing_the_second_time _ payloadJSON
           payloadWire payload_agree "newLB" "region" samplePort ["host-a"]
           sampleState []); reflexivity.
Defined.

Lemma Ensure_leaves_the_created_load_balancer_when_a_host_is_unknown_witness :
  exists lb st',
    EnsureTCPLoadBalancer sampleCloud "newLB" "region" None [Some samplePort]
      (["host-a"] ++ "host-z" :: ["host-c"]) ServiceAffinityNone
      (sampleState, [])
    = (Err (CouldNotFindInstance "host-z"),
       (st',
        [] ++
        [GET "/kaas/load_balancers";
         POST "/kaas/load_balancers"
              (REST.lb_toJson payloadJSON
                 {| lb_Id := EmptyString;
                    lb_Name := "newLB";
                    lb_FQDN := "newLB";
                    lb_Port := sp_Port samplePort;
                    lb_NodePort := sp_NodePort samplePort;
                    lb_Protocol := "tcp" |});
         GET "/kaas/ships"]))
    /\ Remote.balancerNamed st' "newLB" = Some lb
    /\ Remote.membership st' (lb_Id lb) = [].
Proof.
  apply (@Ensure_leaves_the_created_load_balancer_when_a_host_is_unknown
           _ payloadJSON payloadWire payload_agree "newLB" "region"
           samplePort ["host-a"] ["host-c"] "host-z" sampleState []);
    reflexivity.
Defined.

Lemma register_then_deregister_restores_the_members_witness :
  exists st' calls',
    (REST.RegisterInstancesWithLoadBalancer payloadJSON
       (recording (Remote.server payloadWire)) "0001" ["9.9.9.9"] ;;;
     REST.DeregisterInstancesFromLoadBalancer payloadJSON
       (recording (Remote.server payloadWire)) "0001" ["9.9.9.9"])
      (sampleState, [])
    = (Ok tt, (st', calls'))
    /\ find (fun b => lb_Id (fst b) =? "0001") (Remote.balancers st')
       = Some (sampleBalancer,
               [ {| node_ID := "n1"; node_IP := "1.2.3.4" |};
                 {| node_ID := "n2"; node_IP := "5.6.7.8" |} ])
    /\ Remote.membership st' "0001" = Remote.membership sampleState "0001".
Proof.
  apply (@register_then_deregister_restores_the_members _ payloadJSON
           payloadWire payload_agree "0001" "9.9.9.9" sampleState []
           (sampleBalancer,
            [ {| node_ID := "n1"; node_IP := "1.2.3.4" |};
              {| node_ID := "n2"; node_IP := "5.6.7.8" |} ])).
  - reflexivity.
  - reflexivity.
  - reflexivity.
  - cbv. intros [H|[H|[]]]; discriminate.
Defined.

Lemma CreateLoadBalancer_then_lookup_finds_it_witness :
  exists lb st1 calls1,
    REST.CreateLoadBalancer payloadJSON
      (recording (Remote.server payloadWire)) "newLB" 80%Z 30080%Z
      (sampleState, [])
    = (Ok (Some lb), (st1, calls1))
    /\ lb_Name lb = "newLB" /\ lb_FQDN lb = "newLB"
    /\ lb_Port lb = 80%Z /\ lb_NodePort lb = 30080%Z
    /\ lb_Protocol lb = "tcp"
    /\ (forall calls',
           REST.GetLoadBalancerByName payloadJSON
             (recording (Remote.server payloadWire)) "newLB" (st1, calls')
           = (Ok (Some lb), (st1, calls' ++ [GET "/kaas/load_balancers"])))
    /\ Remote.membership st1 (lb_Id lb) = []
    /\ (forall other, other <> "newLB" ->
           Remote.balancerNamed st1 other
           = Remote.balancerNamed sampleState other).
Proof.
  apply (@CreateLoadBalancer_then_lookup_finds_it _ payloadJSON payloadWire
           payload_agree "newLB" 80%Z 30080%Z sampleState []).
  reflexivity.
Defined.

Lemma EnsureDeleted_leaves_the_other_load_balancers_witness :
  exists st' calls',
    EnsureTCPLoadBalancerDeleted sampleCloud "myLB" "region"
      (sampleState2, [])
    = (Ok tt, (st', calls'))
    /\ Remote.balancerNamed st' "otherLB"
       = Remote.balancerNamed sampleState2 "otherLB"
    /\ Remote.ships st' = Remote.ships sampleState2.
Proof.
  apply (@EnsureDeleted_leaves_the_other_load_balancers _ payloadJSON
           payloadWire payload_agree "myLB" "region" "otherLB" sampleState2
           [] sampleBalancer).
  - reflexivity.
  - reflexivity.
  - discriminate.
Defined.

(** ** The Instances operations *)

Lemma matchingNames_filter matchString instances :
  forall names,
    matchingNames matchString instances names
    = names ++ filter matchString (map ci_Name instances).
Proof.
  induction instances as [|i instances IH]; intros names; cbn.
  - now rewrite app_nil_r.
  - destruct (matchString (ci_Name i)).
    + now rewrite IH, <- app_assoc.
    + apply IH.
Qed.

(** X18: the queries on one instance answer from the first listed instance
    of the name: its id for InstanceID and ExternalID alike, one address of
    type ExternalIP for NodeAddresses, the resources built from its CPUs and
    memory for GetNodeResources.  When no listed instance has the name (in
    particular when the listing is empty) each of them returns
    InstanceNotFound.  In both cases the only call is the instance
    listing. *)
Theorem instance_queries_answer_from_the_first_instance_of_the_name :
  forall (bytes W : Type) (json : JSON bytes) (client : restService bytes W)
         (ParseIP_String : string -> string) (float64_to_int64 : float -> Z)
         (name : string) (s s' : W * list (Call bytes))
         (instances : list ConcertoInstance),
    REST.GetInstanceList json (recording client) s = (Ok instances, s') ->
    snd s' = snd s ++ [GET "/kaas/ships"]
    /\ (forall pre i post,
           instances = pre ++ i :: post ->
           ci_Name i = name ->
           (forall x, In x pre -> ci_Name x <> name) ->
           InstanceID (concerto json client) name s = (Ok (ci_Id i), s')
           /\ ExternalID (concerto json client) name s = (Ok (ci_Id i), s')
           /\ NodeAddresses (concerto json client) ParseIP_String name s
              = (Ok [ {| addr_Type := "ExternalIP";
                         addr_Address := ParseIP_String (ci_PublicIP i) |} ],
                 s')
           /\ GetNodeResources (concerto json client) float64_to_int64 name s
              = (Ok (makeNodeResources float64_to_int64 (ci_CPUs i)
                       (ci_Memory i)), s'))
    /\ ((forall x, In x instances -> ci_Name x <> name) ->
        InstanceID (concerto json client) name s = (Err InstanceNotFound, s')
        /\ ExternalID (concerto json client) name s
           = (Err InstanceNotFound, s')
        /\ NodeAddresses (concerto json client) ParseIP_String name s
           = (Err InstanceNotFound, s')
        /\ GetNodeResources (concerto json client) float64_to_int64 name s
           = (Err InstanceNotFound, s')).
Proof.
  intros bytes W json client ParseIP_String float64_to_int64 name s s'
    instances H.
  split; [now apply GetInstanceList_calls in H|].
  split.
  - intros pre i post -> Hi Hpre.
    assert (REST.GetInstanceByName json (recording client) name s
            = (Ok i, s')) as Hg.
    { unfold REST.GetInstanceByName. rewrite (bind_Ok _ _ _ H).
      rewrite find_app_skip.
      - cbn. now rewrite Hi, String.eqb_refl.
      - intros x Hx. now apply String.eqb_neq, Hpre. }
    unfold ExternalID, InstanceID, NodeAddresses, GetNodeResources.
    cbn [service concerto GetInstanceByName REST.service].
    now rewrite !(bind_Ok _ _ _ Hg).
  - intros Hnone.
    assert (REST.GetInstanceByName json (recording client) name s
            = (Err InstanceNotFound, s')) as Hg.
    { unfold REST.GetInstanceByName. rewrite (bind_Ok _ _ _ H).
      destruct (find _ instances) as [x|] eqn:E; [|reflexivity].
      apply find_some_eqb in E. destruct E as [Hin E].
      now apply Hnone in Hin. }
    unfold ExternalID, InstanceID, NodeAddresses, GetNodeResources.
    cbn [service concerto GetInstanceByName REST.service].
    now rewrite !(bind_Err _ _ _ Hg).
Qed.

Lemma instance_queries_answer_from_the_first_instance_of_the_name_witness :
  (InstanceID sampleCloud "host-b" (sampleState, [])
   = (Ok "s2", (sampleState, [GET "/kaas/ships"]))
   /\ ExternalID sampleCloud "host-b" (sampleState, [])
      = (Ok "s2", (sampleState, [GET "/kaas/ships"]))
   /\ NodeAddresses sampleCloud (fun ip => ip) "host-b" (sampleState, [])
      = (Ok [ {| addr_Type := "ExternalIP"; addr_Address := "5.6.7.8" |} ],
         (sampleState, [GET "/kaas/ships"]))
   /\ GetNodeResources sampleCloud (fun _ => 0%Z) "host-b" (sampleState, [])
      = (Ok (makeNodeResources (fun _ => 0%Z) 2%float 2048%Z),
         (sampleState, [GET "/kaas/ships"])))
  /\
  (InstanceID sampleCloud "host-z" (sampleState, [])
   = (Err InstanceNotFound, (sampleState, [GET "/kaas/ships"]))
   /\ ExternalID sampleCloud "host-z" (sampleState, [])
      = (Err InstanceNotFound, (sampleState, [GET "/kaas/ships"]))
   /\ NodeAddresses sampleCloud (fun ip => ip) "host-z" (sampleState, [])
      = (Err InstanceNotFound, (sampleState, [GET "/kaas/ships"]))
   /\ GetNodeResources sampleCloud (fun _ => 0%Z) "host-z" (sampleState, [])
      = (Err InstanceNotFound, (sampleState, [GET "/kaas/ships"]))).
Proof.
  split.
  - apply (proj1 (proj2
             (@instance_queries_answer_from_the_first_instance_of_the_name
                _ _ payloadJSON (Remote.server payloadWire)
                (fun ip => ip) (fun _ => 0%Z) "host-b" (sampleState, [])
                (sampleState, [GET "/kaas/ships"])
                (map REST.toInstance (Remote.ships sampleState)) eq_refl))
             [REST.toInstance (sampleShip "s1" "host-a" "1.2.3.4")]
             (REST.toInstance (sampleShip "s2" "host-b" "5.6.7.8"))
             [REST.toInstance (sampleShip "s3" "host-c" "9.9.9.9")]).
    + reflexivity.
    + reflexivity.
    + intros x [<-|[]]. discriminate.
  - apply (proj2 (proj2
             (@instance_queries_answer_from_the_first_instance_of_the_name
                _ _ payloadJSON (Remote.server payloadWire)
                (fun ip => ip) (fun _ => 0%Z) "host-z" (sampleState, [])
                (sampleState, [GET "/kaas/ships"])
                (map REST.toInstance (Remote.ships sampleState)) eq_refl))).
    intros x [<-|[<-|[<-|[]]]]; discriminate.
Defined.

(** X19: List compiles its filter before anything else: with a filter that
    does not compile it returns the error of the compilation and makes no
    remote call.  With one that compiles it makes the instance listing only
    and returns the names of the listed instances that match, in the order
    of the listing; an error of the listing is returned as it is. *)
Theorem List_filters_the_listed_names :
  forall (bytes W : Type) (json : JSON bytes) (client : restService bytes W)
         (regexp_Compile : string -> (string -> bool) + error)
         (filter : string) (s : W * list (Call bytes)),
    (forall e, regexp_Compile filter = inr e ->
               ListInstances (concerto json client) regexp_Compile filter s
               = (Err e, s))
    /\ (forall matchString instances s',
           regexp_Compile filter = inl matchString ->
           REST.GetInstanceList json (recording client) s
           = (Ok instances, s') ->
           ListInstances (concerto json client) regexp_Compile filter s
           = (Ok (List.filter matchString (map ci_Name instances)), s')
           /\ snd s' = snd s ++ [GET "/kaas/ships"])
    /\ (forall matchString e s',
           regexp_Compile filter = inl matchString ->
           REST.GetInstanceList json (recording client) s = (Err e, s') ->
           ListInstances (concerto json client) regexp_Compile filter s
           = (Err e, s')).
Proof.
  intros bytes W json client regexp_Compile filter s. repeat split.
  - intros e He. unfold ListInstances. now rewrite He.
  - unfold ListInstances. rewrite H.
    cbn [service concerto GetInstanceList REST.service].
    rewrite (bind_Ok _ _ _ H0). now rewrite matchingNames_filter.
  - now apply GetInstanceList_calls in H0.
  - intros matchString e s' Hc Hl. unfold ListInstances. rewrite Hc.
    cbn [service concerto GetInstanceList REST.service].
    now rewrite (bind_Err _ _ _ Hl).
Qed.

Lemma List_filters_the_listed_names_witness :
  ListInstances sampleCloud sampleCompile "host-[" (sampleState, [])
  = (Err (ExternalError "error parsing regexp"), (sampleState, []))
  /\
  ListInstances sampleCloud sampleCompile "host-.*" (sampleState, [])
  = (Ok ["host-a"; "host-b"; "host-c"], (sampleState, [GET "/kaas/ships"])).
Proof.
  split.
  - apply (proj1 (@List_filters_the_listed_names _ _ payloadJSON
                    (Remote.server payloadWire) sampleCompile "host-["
                    (sampleState, []))).
    reflexivity.
  - apply (proj1 (proj1 (proj2 (@List_filters_the_listed_names _ _
                                  payloadJSON (Remote.server payloadWire)
                                  sampleCompile "host-.*" (sampleState, [])))
                    (String.prefix "host-")
                    (map REST.toInstance (Remote.ships sampleState))
                    (sampleState, [GET "/kaas/ships"]) eq_refl eq_refl)).
Defined.

(** *** The memory capacity *)

Lemma int64_small z : (- 2 ^ 63 <= z < 2 ^ 63)%Z -> int64 z = z.
Proof.
  intros H. unfold int64. rewrite Z.mod_small; lia.
Qed.

Lemma int64_range z : (- 2 ^ 63 <= int64 z < 2 ^ 63)%Z.
Proof.
  unfold int64.
  pose proof (Z.mod_pos_bound (z + 2 ^ 63) (2 ^ 64) eq_refl). lia.
Qed.

Lemma int64_congr a b :
  (a mod 2 ^ 64 = b mod 2 ^ 64)%Z -> int64 a = int64 b.
Proof.
  intros H. unfold int64.
  rewrite (Z.add_mod a), (Z.add_mod b), H by lia. reflexivity.
Qed.

Lemma int64_mod z : (int64 z mod 2 ^ 64 = z mod 2 ^ 64)%Z.
Proof.
  unfold int64.
  rewrite <- (Zminus_mod_idemp_l ((z + 2 ^ 63) mod 2 ^ 64)).
  rewrite Z.mod_mod by lia. rewrite Zminus_mod_idemp_l.
  f_equal. lia.
Qed.

(** X20: the memory capacity that makeNodeResources reports is the number of
    MiB times 1048576, computed in int64: exact when the number of MiB lies
    between -2^43 and 2^43 - 1, wrapped around otherwise; 2^43 MiB is
    reported as -2^63 bytes. *)
Theorem makeNodeResources_memory_is_exact_below_2_pow_43 :
  forall (float64_to_int64 : float -> Z) (cpu : float) (memory : Z),
    capacity_memory (makeNodeResources float64_to_int64 cpu memory)
    = int64 (memory * 1048576)
    /\ ((- 2 ^ 43 <= memory < 2 ^ 43)%Z ->
        capacity_memory (makeNodeResources float64_to_int64 cpu memory)
        = (memory * 1048576)%Z)
    /\ capacity_memory (makeNodeResources float64_to_int64 cpu (2 ^ 43))
       = (- 2 ^ 63)%Z.
Proof.
  intros conv cpu memory.
  assert (forall m, capacity_memory (makeNodeResources conv cpu m)
                    = int64 (m * 1048576)) as H.
  { intros m. cbn [makeNodeResources capacity_memory].
    rewrite (@int64_small (int64 _)) by apply int64_range.
    apply int64_congr.
    rewrite <- Zmult_mod_idemp_l, int64_mod, Zmult_mod_idemp_l.
    f_equal. lia. }
  split; [|split].
  - apply H.
  - intros Hm. rewrite H. apply int64_small. lia.
  - rewrite H. reflexivity.
Qed.

Lemma makeNodeResources_memory_is_exact_below_2_pow_43_witness :
  capacity_memory (makeNodeResources (fun _ => 0%Z) 2%float 2048)
  = (2048 * 1048576)%Z.
Proof.
  apply (proj1 (proj2 (makeNodeResources_memory_is_exact_below_2_pow_43
                         (fun _ => 0%Z) 2%float 2048))).
  lia.
Defined.
